(** * Watch-face resource packer (gen_clock.py): a shallow embedding

  The development follows the packer of [gen_clock.py]: the BMP to
  device-RGB transcoder ([bmp_2_rgb]), the chunk compressor
  ([compress_rgb]), the layout validator ([check_clock]) and the
  assembler with its layer serializer ([gen_clock_res]).

  Conventions.  Python integers are [Z].  A [bytes] object is a
  [list byte]; a [str] is a [string] holding its UTF-8 bytes, so that
  [str.encode()] is the list of its bytes and the ASCII-only tests of the
  source ([startswith('z_')], [split('.')], ['thumbnail' in name]) act
  on it as they do in Python.  [str.lower()] changes the letters [A] to
  [Z]: the names of the files and of the descriptor are taken to be ASCII
  wherever their letter case is compared.  A Python exception is
  [None]. *)

From Stdlib Require Import ZArith List String Ascii Strings.Byte Lia Bool.
From stdpp Require Import base option list list_numbers gmap strings.

Local Open Scope Z_scope.

(* ===================================================================== *)
(** ** Bytes and byte strings *)
(* ===================================================================== *)

Module Bytes.

#[export] Instance byte_eq_decision : EqDecision byte := Byte.byte_eq_dec.

Definition b2z (b : byte) : Z := Z.of_N (Byte.to_N b).

(** The byte whose value is [z mod 256]. *)
Definition z2b (z : Z) : byte :=
  default Byte.x00 (Byte.of_N (Z.to_N (z mod 256))).

(** [len(b)] *)
Definition len {A} (l : list A) : Z := Z.of_nat (length l).

(** [b[i]] for an index [0 <= i]; [IndexError] is [None].  Every index
    expression of the source is non-negative. *)
Definition byte_at (l : list byte) (i : Z) : option Z :=
  if i <? 0 then None else b2z <$> l !! Z.to_nat i.

(** [b[lo:hi]] for [0 <= lo] and [0 <= hi]: never raises, clips. *)
Definition slice {A} (l : list A) (lo hi : Z) : list A :=
  drop (Z.to_nat lo) (take (Z.to_nat hi) l).

(** [range(n)] *)
Definition range (n : Z) : list Z := seqZ 0 n.

(** Little-endian value of a byte string. *)
Definition le_uint (bs : list byte) : Z :=
  foldr (fun b acc => b2z b + 256 * acc) 0 bs.

Definition bytes_of_string (s : string) : list byte := list_byte_of_string s.

End Bytes.

Import Bytes.

(* ===================================================================== *)
(** ** The [struct] formats the packer uses *)
(* ===================================================================== *)

Module Struct.

(** ['B'] : one unsigned byte; [struct.error] outside 0..255. *)
Definition pack_B (v : Z) : option (list byte) :=
  if (0 <=? v) && (v <=? 255) then Some [z2b v] else None.

(** ['BBBBBBBBBBBBBBBB'] and the like. *)
Definition pack_Bs (vs : list Z) : option (list byte) :=
  @concat byte <$> mapM pack_B vs.

(** ['<H'] : little-endian u16. *)
Definition pack_H_le (v : Z) : option (list byte) :=
  if (0 <=? v) && (v <=? 65535) then Some [z2b v; z2b (v / 256)] else None.

Definition be32 (v : Z) : list byte :=
  [z2b (v / 16777216); z2b (v / 65536); z2b (v / 256); z2b v].

(** ['>I'] : big-endian u32. *)
Definition pack_I_be (v : Z) : option (list byte) :=
  if (0 <=? v) && (v <=? 4294967295) then Some (be32 v) else None.

(** ['>i'] : big-endian i32, two's complement. *)
Definition pack_i_be (v : Z) : option (list byte) :=
  if (-2147483648 <=? v) && (v <=? 2147483647) then Some (be32 v) else None.

(** ['30s'] : the bytes cut or padded with zero bytes to 30. *)
Definition pack_30s (bs : list byte) : list byte :=
  take 30 bs ++ replicate (30 - length bs)%nat Byte.x00.

(** ['<I'] and ['<H'] : [struct.unpack] wants the exact size. *)
Definition unpack_I_le (bs : list byte) : option Z :=
  if len bs =? 4 then Some (le_uint bs) else None.

Definition unpack_H_le (bs : list byte) : option Z :=
  if len bs =? 2 then Some (le_uint bs) else None.

(** ['<i'] *)
Definition unpack_i_le (bs : list byte) : option Z :=
  u ← unpack_I_le bs;
  Some (if 2147483648 <=? u then u - 4294967296 else u).

End Struct.

Import Struct.

(* ===================================================================== *)
(** ** The [str] methods the packer uses *)
(* ===================================================================== *)

Module PyStr.

(** [s.startswith(p)] *)
Definition startswith (s p : string) : bool := String.prefix p s.

(** [s.endswith(p)] *)
Definition endswith (s p : string) : bool :=
  let ls := list_ascii_of_string s in
  let lp := list_ascii_of_string p in
  bool_decide (drop (length ls - length lp)%nat ls = lp)
  && (length lp <=? length ls)%nat.

(** [p in s] *)
Fixpoint contains (p s : string) : bool :=
  String.prefix p s ||
  match s with
  | EmptyString => false
  | String _ s' => contains p s'
  end.

(** [s.split(c)] for a one-character separator. *)
Fixpoint split (c : ascii) (s : string) : list string :=
  match s with
  | EmptyString => [EmptyString]
  | String a s' =>
      if Ascii.eqb a c then EmptyString :: split c s'
      else match split c s' with
           | h :: t => String a h :: t
           | [] => [String a EmptyString]
           end
  end.

Definition lower_ascii (a : ascii) : ascii :=
  let n := N_of_ascii a in
  if ((65 <=? n) && (n <=? 90))%N then ascii_of_N (n + 32) else a.

(** [s.lower()].  A string is the list of the bytes of its UTF-8 form, and
    the letters [A] to [Z] are the ones changed: this is [str.lower] on the
    names that are ASCII ([is_ascii] below), and leaves the bytes of any
    other character as they are. *)
Fixpoint lower (s : string) : string :=
  match s with
  | EmptyString => EmptyString
  | String a s' => String (lower_ascii a) (lower s')
  end.

(** ['.'.join([a, b])] *)
Definition join_dot (a b : string) : string := a +:+ "." +:+ b.

(** The names [lower] is [str.lower] on: every byte below 128. *)
Definition is_ascii (s : string) : bool :=
  forallb (fun a => (N_of_ascii a <? 128)%N) (list_ascii_of_string s).

Definition is_dot (a : ascii) : bool := Ascii.eqb a ".".

Definition is_sep (a : ascii) : bool := Ascii.eqb a "/".

(** What follows the last dot of the last component of a path and what
    comes before that dot, both read from the end; [None] when the last
    component has no dot. *)
Fixpoint cut_at_dot (rev : list ascii) : option (list ascii * list ascii) :=
  match rev with
  | [] => None
  | a :: rest =>
      if is_dot a then Some ([], rest)
      else if is_sep a then None
      else '(ext, root) ← cut_at_dot rest; Some (a :: ext, root)
  end.

(** Whether the last component of a path, read from the end, is made of
    dots alone. *)
Fixpoint only_dots (rev : list ascii) : bool :=
  match rev with
  | [] => true
  | a :: rest => if is_sep a then true else is_dot a && only_dots rest
  end.

(** [os.path.splitext(p)] with [/] as separator: the cut is at the last
    dot of the last component, unless nothing but dots comes before it
    there. *)
Definition splitext (p : string) : string * string :=
  match cut_at_dot (reverse (list_ascii_of_string p)) with
  | Some (ext, root) =>
      if only_dots root then (p, EmptyString)
      else (string_of_list_ascii (reverse root),
            string_of_list_ascii ("."%char :: reverse ext))
  | None => (p, EmptyString)
  end.

End PyStr.

Import PyStr.

(* ===================================================================== *)
(** ** Pixel transcoder: [bmp_2_rgb] *)
(* ===================================================================== *)

Module Bmp.

(** The branch on the file-name suffix and the bytes per pixel.  The
    result is [(rgb_format, img_type)]; [None] is the logged early
    [return]. *)
Definition select_format (file_name : string) (bpp : Z) : option (Z * Z) :=
  if endswith file_name "8888" then
    if negb (bpp =? 4) then None else Some (8888, 71)
  else if endswith file_name "1555" && (bpp =? 4) then Some (1555, 74)
  else if endswith file_name "565" || ((bpp =? 2) || (bpp =? 3)) then
    Some (565, 73)
  else if negb (bpp =? 4) then None
  else Some (8565, 72).

(** [bpp = bpp_bits >> 3], refused unless 2, 3 or 4. *)
Definition bytes_per_pixel (bpp_bits : Z) : option Z :=
  let bpp := Z.shiftr bpp_bits 3 in
  if (bpp =? 2) || (bpp =? 3) || (bpp =? 4) then Some bpp else None.

(** [os.path.basename(file_path).split('.')[0]] *)
Definition stem (base_name : string) : string :=
  match split "." base_name with
  | h :: _ => h
  | [] => EmptyString
  end.

Definition rgb565 (r g b : Z) : Z :=
  Z.lor (Z.lor (Z.shiftl (Z.land r 248) 8) (Z.shiftl (Z.land g 252) 3))
        (Z.shiftr (Z.land b 248) 3).

Definition rgb1555 (r g b a : Z) : Z :=
  let v := Z.lor (Z.lor (Z.shiftl (Z.land r 248) 7) (Z.shiftl (Z.land g 248) 2))
                 (Z.shiftr (Z.land b 248) 3) in
  if a =? 255 then Z.lor v 32768 else v.

Definition pixel_565 (row_bytes : list byte) (x : Z) : option (list byte) :=
  b ← byte_at row_bytes (x * 3 + 0);
  g ← byte_at row_bytes (x * 3 + 1);
  r ← byte_at row_bytes (x * 3 + 2);
  pack_H_le (rgb565 r g b).

Definition pixel_1555 (row_bytes : list byte) (x : Z) : option (list byte) :=
  b ← byte_at row_bytes (x * 4 + 0);
  g ← byte_at row_bytes (x * 4 + 1);
  r ← byte_at row_bytes (x * 4 + 2);
  a ← byte_at row_bytes (x * 4 + 3);
  pack_H_le (rgb1555 r g b a).

Definition pixel_8565 (row_bytes : list byte) (x : Z) : option (list byte) :=
  b ← byte_at row_bytes (x * 4 + 0);
  g ← byte_at row_bytes (x * 4 + 1);
  r ← byte_at row_bytes (x * 4 + 2);
  a ← byte_at row_bytes (x * 4 + 3);
  h ← pack_H_le (rgb565 r g b);
  t ← pack_B a;
  Some (h ++ t).

(** The inner [pack_row]; its free variables are parameters here. *)
Definition pack_row (rgb_format bpp bmp_w : Z) (row_bytes : list byte)
  : option (list byte) :=
  if rgb_format =? 565 then
    if bpp =? 2 then Some (slice row_bytes 0 (bmp_w * 2))
    else @concat byte <$> mapM (pixel_565 row_bytes) (range bmp_w)
  else if rgb_format =? 1555 then
    @concat byte <$> mapM (pixel_1555 row_bytes) (range bmp_w)
  else if rgb_format =? 8888 then Some (slice row_bytes 0 (bmp_w * 4))
  else @concat byte <$> mapM (pixel_8565 row_bytes) (range bmp_w).

(** The sixteen values of a chunk header, as given to [struct.pack]. *)
Definition header_fields (img_type size height width : Z) : list Z :=
  [ img_type; 0;
    Z.land size 255; Z.land (Z.shiftr size 8) 255;
    Z.land (Z.shiftr size 16) 255;
    Z.land height 255;
    Z.lor (Z.land (Z.shiftr height 8) 15) (Z.shiftl (Z.land width 15) 4);
    Z.land (Z.shiftr width 4) 255;
    0; 0; 0; 0; 0; 0; 0; 0 ].

(** The 16-byte chunk header. *)
Definition chunk_header (img_type size height width : Z) : option (list byte) :=
  pack_Bs (header_fields img_type size height width).

(** [range(bmp_h) if top_down else range(bmp_h - 1, -1, -1)] *)
Definition y_range (top_down : bool) (bmp_h : Z) : list Z :=
  if top_down then range bmp_h else reverse (range bmp_h).

Definition bmp_magic : list byte := bytes_of_string "BM".

(** [bmp_2_rgb]: the blob written to [<file_path>.RGB], or [None] when
    the file is refused or an exception ends the worker. *)
Definition bmp_2_rgb (base_name : string) (in_data : list byte)
  : option (list byte) :=
  if (len in_data <? 54) || negb (bool_decide (slice in_data 0 2 = bmp_magic))
  then None
  else
    data_start_addr ← unpack_I_le (slice in_data 10 14);
    bmp_w ← unpack_I_le (slice in_data 18 22);
    bmp_h0 ← unpack_I_le (slice in_data 22 26);
    bpp_bits ← unpack_H_le (slice in_data 28 30);
    bpp ← bytes_per_pixel bpp_bits;
    '(rgb_format, img_type) ← select_format (stem base_name) bpp;
    let row_stride := ((bmp_w * bpp + 3) / 4) * 4 in
    bmp_h1 ← (if negb (Z.land bmp_h0 2147483648 =? 0)
              then unpack_i_le (slice in_data 22 26) else Some bmp_h0);
    let top_down := bmp_h1 <? 0 in
    let bmp_h := if top_down then - bmp_h1 else bmp_h1 in
    rows ← mapM (fun y =>
                   let off := data_start_addr + y * row_stride in
                   pack_row rgb_format bpp bmp_w
                            (slice in_data off (off + row_stride)))
                (y_range top_down bmp_h);
    let out_payload := concat rows in
    header ← chunk_header img_type (len out_payload) bmp_h bmp_w;
    Some (header ++ out_payload).

(** The image type the transcoder settles on for a stem and a bit depth,
    as [bmp_2_rgb] computes it. *)
Definition target_img_type (file_name : string) (bpp_bits : Z) : option Z :=
  bpp ← bytes_per_pixel bpp_bits;
  snd <$> select_format file_name bpp.

(** The selection table of the specification, first match wins: suffix
    [8888] wants 32 bits (71, refused otherwise); suffix [1555] with 32
    bits is 74; suffix [565] or 16 or 24 bits is 73; any other 32-bit
    input is 72; what remains is refused.  Written from the prose, to be
    compared with [target_img_type]. *)
Definition spec_img_type (file_name : string) (bpp_bits : Z) : option Z :=
  if endswith file_name "8888" then
    if bpp_bits =? 32 then Some 71 else None
  else if endswith file_name "1555" && (bpp_bits =? 32) then Some 74
  else if endswith file_name "565" || (bpp_bits =? 16) || (bpp_bits =? 24)
  then Some 73
  else if bpp_bits =? 32 then Some 72
  else None.

(** The bytes one pixel takes in the payload, by target format. *)
Definition out_bytes_per_pixel (rgb_format : Z) : Z :=
  if rgb_format =? 565 then 2
  else if rgb_format =? 1555 then 2
  else if rgb_format =? 8888 then 4
  else 3.

(** The 24-bit little-endian [payload_len] of a chunk header. *)
Definition payload_len_field (blob : list byte) : option Z :=
  b2 ← byte_at blob 2; b3 ← byte_at blob 3; b4 ← byte_at blob 4;
  Some (Z.lor (Z.lor b2 (Z.shiftl b3 8)) (Z.shiftl b4 16)).

End Bmp.

(* ===================================================================== *)
(** ** Chunk compressor: [compress_rgb] *)
(* ===================================================================== *)

Module Compressor.

(** The [mode] argument of [lz4.block.compress]. *)
Inductive lz4_mode := ModeDefault | ModeFast | ModeHighCompression.

(** What one turn of the loop over the [*.RGB] files does. *)
Inductive outcome :=
| Skipped                          (* [continue]: no [.COMP] sibling *)
| Failed                           (* an exception, logged *)
| Written (out_blob : list byte).  (* the [.COMP] sibling *)

(** [os.path.splitext(p)[0]] *)
Definition splitext_root (p : string) : string := (splitext p).1.

Section WithLz4.

(** [lz4.block.compress(data, mode=, compression=, store_size=)] of the
    lz4 package; [None] when it raises. *)
Variable lz4_block_compress :
  list byte -> lz4_mode -> Z -> bool -> option (list byte).

Definition declared_len (header : list byte) : option Z :=
  h2 ← byte_at header 2; h3 ← byte_at header 3; h4 ← byte_at header 4;
  Some (Z.lor (Z.lor h2 (Z.shiftl h3 8)) (Z.shiftl h4 16)).

(** The body of the loop for one blob read from an [.RGB] file. *)
Definition compress_chunk (blob : list byte) : outcome :=
  if len blob <? 16 then Skipped
  else
    let header := slice blob 0 16 in
    match byte_at header 1 with
    | None => Failed
    | Some h1 =>
        if h1 =? 1 then Skipped
        else
          match declared_len header with
          | None => Failed
          | Some payload_len0 =>
              let payload := drop 16 blob in
              let repair :=
                (payload_len0 <=? 0) || (len payload <? payload_len0) in
              let payload_len :=
                if repair then len payload else payload_len0 in
              let header1 :=
                if repair then
                  <[4%nat := z2b (Z.land (Z.shiftr payload_len 16) 255)]>
                    (<[3%nat := z2b (Z.land (Z.shiftr payload_len 8) 255)]>
                       (<[2%nat := z2b (Z.land payload_len 255)]> header))
                else header in
              match lz4_block_compress (slice payload 0 payload_len)
                                       ModeHighCompression 12 false with
              | None => Failed
              | Some comp => Written (<[1%nat := z2b 1]> header1 ++ comp)
              end
          end
    end.

(** [compress_rgb] over the [*.RGB] files (name, content) of the
    temporary directory: the [.COMP] files it leaves there. *)
Fixpoint compress_rgb (rgb_files : list (string * list byte))
  : list (string * list byte) :=
  match rgb_files with
  | [] => []
  | (rgb_path, blob) :: rest =>
      match compress_chunk blob with
      | Written out_blob =>
          (splitext_root rgb_path +:+ ".COMP", out_blob) :: compress_rgb rest
      | _ => compress_rgb rest
      end
  end.

End WithLz4.

End Compressor.

(* ===================================================================== *)
(** ** The descriptor [config.json] *)
(* ===================================================================== *)

Module Config.

(** An element of [imgArr] as [json.load] gives it. *)
Inductive jval :=
| JInt (n : Z)
| JStr (s : string)
| JList (l : list jval).

(** One entry of [config.json].  The keys the source reads without a
    default are [option]s where a descriptor may leave them out
    ([KeyError]). *)
Record layer := {
  drawType : Z;
  dataType : Z;
  alignType : Z;
  x : Z;
  y : Z;
  num : Z;
  interval : option Z;
  area_num : option (list Z);
  name : option string;
  imgArr : list jval
}.

(** [enumerate(l)] *)
Definition enumerate {A} (l : list A) : list (Z * A) :=
  zip (seqZ 0 (len l)) l.

Definition mem (v : Z) (vs : list Z) : bool := bool_decide (v ∈ vs).

End Config.

Import Config.

(* ===================================================================== *)
(** ** Layout validator: [check_clock] *)
(* ===================================================================== *)

Module Validator.

(** The lines [check_clock] logs. *)
Inductive log_entry :=
| DirectoryMissing
| ConfigMissing
| ConfigReadError
| CountMismatch (layer_name : option string)
| ImageMissing (img : string)
| TotalsDiffer (files images : Z).

#[export] Instance log_entry_eq_dec : EqDecision log_entry.
Proof. solve_decision. Defined.

(** What [check_clock] finds at [clock_path]. *)
Inductive source :=
| NoDirectory
| NoConfig
| UnreadableConfig
| Source (file_names : list string) (config : list layer).

(** [get_filename_list]: every file name below the directory, lowercased. *)
Definition get_filename_list (file_names : list string) : list string :=
  lower <$> file_names.

Record vstate := {
  log : list log_entry;
  err_count : Z;
  config_img_list : list string
}.

(** The test shared by both kinds of file reference. *)
Definition check_ref (my_list : list string) (st : vstate) (img : string)
  : vstate :=
  if negb (bool_decide (img ∈ my_list)) then
    {| log := log st ++ [ImageMissing img];
       err_count := err_count st + 1;
       config_img_list := config_img_list st |}
  else if negb (bool_decide (img ∈ config_img_list st)) then
    {| log := log st;
       err_count := err_count st;
       config_img_list := config_img_list st ++ [img] |}
  else st.

(** One turn of the loop over [enumerate(item['imgArr'])]. *)
Definition check_img (my_list : list string) (item : layer) (st : vstate)
           (idx : Z) (img : jval) : option vstate :=
  match img with
  | JList l =>
      match last l with
      | Some (JStr s) => Some (check_ref my_list st (lower s))
      | _ => None
      end
  | JInt _ => Some st
  | JStr s =>
      if (drawType item =? 55) && (idx =? 2) then Some st
      else Some (check_ref my_list st (lower s))
  end.

Fixpoint check_imgs (my_list : list string) (item : layer) (st : vstate)
         (imgs : list (Z * jval)) : option vstate :=
  match imgs with
  | [] => Some st
  | (idx, img) :: rest =>
      st' ← check_img my_list item st idx img;
      check_imgs my_list item st' rest
  end.

(** One turn of the loop over [config]. *)
Definition check_item (my_list : list string) (st : vstate) (item : layer)
  : option vstate :=
  st1 ← (if negb (len (imgArr item) =? num item) then
           nm ← name item;
           Some {| log := log st ++ [CountMismatch
                                      (match nm with
                                       | EmptyString => None
                                       | _ => Some nm
                                       end)];
                   err_count := err_count st + 1;
                   config_img_list := config_img_list st |}
         else Some st);
  check_imgs my_list item st1 (enumerate (imgArr item)).

Fixpoint check_items (my_list : list string) (st : vstate)
         (config : list layer) : option vstate :=
  match config with
  | [] => Some st
  | item :: rest =>
      st' ← check_item my_list st item;
      check_items my_list st' rest
  end.

(** What a call of [check_clock] leaves: the value it returns and the
    lines it logs. *)
Record validation := {
  returned : bool;
  logged : list log_entry
}.

(** [check_clock]; [None] when an exception leaves the function. *)
Definition check_clock (src : source) : option validation :=
  match src with
  | NoDirectory => Some {| returned := false; logged := [DirectoryMissing] |}
  | NoConfig => Some {| returned := false; logged := [ConfigMissing] |}
  | UnreadableConfig =>
      Some {| returned := false; logged := [ConfigReadError] |}
  | Source file_names config =>
      let my_list := get_filename_list file_names in
      st ← check_items my_list
             {| log := []; err_count := 0; config_img_list := [] |} config;
      let lg :=
        if negb (len my_list - 2 =? len (config_img_list st))
        then log st ++ [TotalsDiffer (len my_list - 2)
                                     (len (config_img_list st))]
        else log st in
      Some {| returned := if negb (err_count st =? 0) then false else true;
              logged := lg |}
  end.

(** *** The mismatches of the specification

    Written from the prose of the layout validator, to be compared with
    what [check_clock] logs: an integer is ignored; a string must name a
    file of the lowercased directory list, except the text slot of a
    [drawType] 55 layer; the third element of a 3-tuple must name such a
    file; and [len(imgArr)] must be [num]. *)

Definition spec_missing (my_list : list string) (s : string) : list log_entry :=
  if bool_decide (lower s ∈ my_list) then [] else [ImageMissing (lower s)].

Definition spec_img_mismatch (my_list : list string) (item : layer)
           (idx : Z) (img : jval) : list log_entry :=
  match img with
  | JInt _ => []
  | JStr s =>
      if (drawType item =? 55) && (idx =? 2) then []
      else spec_missing my_list s
  | JList [_; _; JStr s] => spec_missing my_list s
  | JList _ => []
  end.

Definition layer_label (item : layer) : option string :=
  match name item with
  | Some EmptyString | None => None
  | Some nm => Some nm
  end.

Definition spec_layer_mismatches (my_list : list string) (item : layer)
  : list log_entry :=
  (if len (imgArr item) =? num item then []
   else [CountMismatch (layer_label item)])
  ++ concat ((fun p => spec_img_mismatch my_list item p.1 p.2)
               <$> enumerate (imgArr item)).

Definition spec_mismatches (my_list : list string) (config : list layer)
  : list log_entry :=
  concat (spec_layer_mismatches my_list <$> config).

(** A descriptor of the data model: every list in [imgArr] is a 3-tuple
    [(i32, i32, filename)], and a layer whose count is off has the [name]
    key the log line reads. *)
Definition tuple_shaped (img : jval) : bool :=
  match img with
  | JList [JInt _; JInt _; JStr _] => true
  | JList _ => false
  | _ => true
  end.

Definition layer_shaped (item : layer) : bool :=
  forallb tuple_shaped (imgArr item)
  && ((len (imgArr item) =? num item) || bool_decide (is_Some (name item))).

(** [st'] is [st] with the mismatches [ms] logged and counted. *)
Definition records (st st' : vstate) (ms : list log_entry) : Prop :=
  log st' = log st ++ ms /\ err_count st' = err_count st + len ms.

End Validator.

(* ===================================================================== *)
(** ** Assembler and layer serializer: [gen_clock_res] *)
(* ===================================================================== *)

Module Packer.

Import Validator.

(** [g_clock_id_prefix_dict] *)
Definition g_clock_id_prefix_dict : gmap string Z :=
  list_to_map
    [ ("454_454"%string, 983040); ("400_400"%string, 917504);
      ("466_466"%string, 851968); ("390_390"%string, 786432);
      ("410_502"%string, 720896); ("320_384"%string, 655360);
      ("320_385"%string, 655360); ("368_448"%string, 589824);
      ("390_450"%string, 524288); ("360_360"%string, 458752) ].

(** A file of the list [image_pre_build] returns: its base name, its
    bytes, and what [Image.open(path).size] gives ([None]: it raises). *)
Record prepared_file := {
  base_name : string;
  file_bytes : list byte;
  image_size : option (Z * Z)
}.

(** The variables the loop over [file_list] updates. *)
Record regions := {
  clock_thumb_data : list byte;
  clock_thumb_length : Z;
  clock_img_data : list byte;
  clock_img_length : Z;
  clock_z_img_data : list byte;
  clock_z_img_length : Z;
  img_objs : gmap string (Z * Z)
}.

(** The 16 bytes put before a JPG or GIF. *)
Definition media_header (img_type : Z) (f : prepared_file)
  : option (list byte) :=
  '(width, height) ← image_size f;
  Bmp.chunk_header img_type (len (file_bytes f)) height width.

(** The name a file goes by and the bytes it contributes: the first two
    dot-separated parts of its base name, and its content, after a
    synthesized header for a JPG or a GIF. *)
Definition file_chunk (f : prepared_file) : option (string * list byte) :=
  let parts := split "." (base_name f) in
  img_name ← parts !! 0%nat;
  img_ext ← parts !! 1%nat;
  let file_name := join_dot img_name img_ext in
  prefix ← (if bool_decide (lower img_ext = "jpg"%string) then media_header 9 f
            else if bool_decide (lower img_ext = "gif"%string)
                 then media_header 3 f
                 else Some []);
  Some (file_name, prefix ++ file_bytes f).

(** One turn of the loop over [file_list]. *)
Definition add_file (thumbnail_path_override : bool) (r : regions)
           (f : prepared_file) : option regions :=
  '(file_name, in_data) ← file_chunk f;
  let file_size := len in_data in
  if negb thumbnail_path_override && contains "thumbnail" file_name then
    Some {| clock_thumb_data := in_data;
            clock_thumb_length := file_size;
            clock_img_data := clock_img_data r;
            clock_img_length := clock_img_length r;
            clock_z_img_data := clock_z_img_data r;
            clock_z_img_length := clock_z_img_length r;
            img_objs := img_objs r |}
  else if startswith file_name "z_" then
    Some {| clock_thumb_data := clock_thumb_data r;
            clock_thumb_length := clock_thumb_length r;
            clock_img_data := clock_img_data r;
            clock_img_length := clock_img_length r;
            clock_z_img_data := clock_z_img_data r ++ in_data;
            clock_z_img_length := clock_z_img_length r + file_size;
            img_objs := <[file_name := (clock_z_img_length r, file_size)]>
                          (img_objs r) |}
  else
    Some {| clock_thumb_data := clock_thumb_data r;
            clock_thumb_length := clock_thumb_length r;
            clock_img_data := clock_img_data r ++ in_data;
            clock_img_length := clock_img_length r + file_size;
            clock_z_img_data := clock_z_img_data r;
            clock_z_img_length := clock_z_img_length r;
            img_objs := <[file_name := (clock_img_length r, file_size)]>
                          (img_objs r) |}.

Fixpoint add_files (thumbnail_path_override : bool) (r : regions)
         (file_list : list prepared_file) : option regions :=
  match file_list with
  | [] => Some r
  | f :: rest =>
      r' ← add_file thumbnail_path_override r f;
      add_files thumbnail_path_override r' rest
  end.

(** The state before the loop.  The override is [None] when no path is
    given, [Some None] when the path does not exist and [Some (Some d)]
    when the file holds [d]. *)
Definition initial_regions (thumbnail_path_override : option (option (list byte)))
  : option regions :=
  thumb ← match thumbnail_path_override with
          | None => Some []
          | Some None => None
          | Some (Some d) => Some d
          end;
  Some {| clock_thumb_data := thumb;
          clock_thumb_length := len thumb;
          clock_img_data := [];
          clock_img_length := 0;
          clock_z_img_data := [];
          clock_z_img_length := 0;
          img_objs := ∅ |}.

Definition clock_thumb_start_addr : Z := 32.

(** The offset and length written for a file reference. *)
Definition image_ref (clock_z_img_start : Z) (objs : gmap string (Z * Z))
           (img : string) : option (list byte) :=
  if startswith img "z_" then
    entry ← objs !! img;
    a ← pack_i_be (clock_z_img_start + entry.1);
    b ← pack_i_be entry.2;
    Some (a ++ b)
  else
    entry ← objs !! img;
    a ← pack_i_be entry.1;
    b ← pack_i_be entry.2;
    Some (a ++ b).

(** One turn of the loop over [enumerate(layer['imgArr'])]. *)
Definition pack_img (clock_z_img_start : Z) (objs : gmap string (Z * Z))
           (l : layer) (idx : Z) (img : jval) : option (list byte) :=
  if mem (drawType l) [10; 15; 21] then
    match img with
    | JList (JInt e0 :: JInt e1 :: JStr e2 :: _) =>
        a ← pack_i_be e0;
        b ← pack_i_be e1;
        c ← image_ref clock_z_img_start objs e2;
        Some (a ++ b ++ c)
    | _ => None
    end
  else if (drawType l =? 55) && (idx =? 2) then
    match img with
    | JStr s => Some (pack_30s (bytes_of_string s))
    | _ => None
    end
  else if mem (dataType l) [64; 65; 66; 67] && mem idx [10; 11] then
    match img with
    | JInt n => pack_i_be n
    | _ => None
    end
  else if (drawType l =? 8) && mem idx [0; 1; 2] then
    match img with
    | JInt n => pack_i_be n
    | _ => None
    end
  else
    match img with
    | JInt n => pack_i_be n
    | JStr s => image_ref clock_z_img_start objs s
    | JList _ => None
    end.

(** One turn of the loop over [layer_list]. *)
Definition pack_layer (clock_z_img_start : Z) (objs : gmap string (Z * Z))
           (l : layer) : option (list byte) :=
  f1 ← pack_i_be (drawType l);
  f2 ← pack_i_be (dataType l);
  f3 ← (if mem (dataType l) [130; 59; 52]
        then v ← interval l; pack_i_be v else Some []);
  f4 ← (if mem (dataType l) [112]
        then vs ← area_num l; @concat byte <$> mapM pack_i_be vs
        else Some []);
  f5 ← pack_i_be (alignType l);
  f6 ← pack_i_be (x l);
  f7 ← pack_i_be (y l);
  f8 ← pack_i_be (num l);
  imgs ← mapM (fun p => pack_img clock_z_img_start objs l p.1 p.2)
              (enumerate (imgArr l));
  Some (f1 ++ f2 ++ f3 ++ f4 ++ f5 ++ f6 ++ f7 ++ f8 ++ concat imgs).

Definition pack_layers (clock_z_img_start : Z) (objs : gmap string (Z * Z))
           (layer_list : list layer) : option (list byte) :=
  @concat byte <$> mapM (pack_layer clock_z_img_start objs) layer_list.

Definition crc_str (is_idle : bool) : string :=
  if is_idle then "II@*24dG" else "Sb@*O2GG".

(** What the final [with open(out_path, 'wb+')] block writes. *)
Definition write_res (is_idle : bool) (clock_id : Z) (r : regions)
           (clock_layer_data : list byte) : option (list byte) :=
  h1 ← pack_I_be clock_id;
  h2 ← pack_I_be clock_thumb_start_addr;
  h3 ← pack_I_be (clock_thumb_length r);
  let start_addr := clock_thumb_start_addr + clock_thumb_length r in
  h4 ← pack_I_be start_addr;
  h5 ← pack_I_be (clock_img_length r);
  h6 ← pack_I_be (start_addr + clock_img_length r + clock_z_img_length r);
  Some (bytes_of_string (crc_str is_idle)
        ++ h1 ++ h2 ++ h3 ++ h4 ++ h5 ++ h6
        ++ clock_thumb_data r ++ clock_img_data r ++ clock_z_img_data r
        ++ clock_layer_data).

(** [gen_clock_res]: the id and the bytes of the [Clock<id>_res] file of a
    pack that ends well; [None] when it returns [False] or raises.  The
    descriptor is read twice from the same file, so the serializer sees the
    names as [config.json] spells them. *)
Definition gen_clock_res (src : source) (file_list : list prepared_file)
           (clock_id_base : Z) (clock_size : string) (idle_magic : bool)
           (thumbnail_path_override : option (option (list byte)))
  : option (Z * list byte) :=
  v ← check_clock src;
  if negb (returned v) then None
  else
    prefix ← g_clock_id_prefix_dict !! clock_size;
    let clock_id := Z.lor clock_id_base prefix in
    r0 ← initial_regions thumbnail_path_override;
    r ← add_files (bool_decide (is_Some thumbnail_path_override)) r0 file_list;
    match src with
    | Source _ layer_list =>
        let clock_z_img_start :=
          clock_thumb_start_addr + clock_thumb_length r + clock_img_length r in
        clock_layer_data ← pack_layers clock_z_img_start (img_objs r) layer_list;
        out ← write_res idle_magic clock_id r clock_layer_data;
        Some (clock_id, out)
    | _ => None
    end.

(** The check [cli_main] makes before it calls [gen_clock_res]. *)
Definition cli_pack (src : source) (file_list : list prepared_file)
           (clock_id_base : Z) (clock_size : string) (idle_magic : bool)
           (thumbnail_path_override : option (option (list byte)))
  : option (Z * list byte) :=
  if negb ((50000 <=? clock_id_base) && (clock_id_base <=? 65535)) then None
  else gen_clock_res src file_list clock_id_base clock_size idle_magic
                     thumbnail_path_override.

(** The lengths kept beside the regions are their lengths, and every entry
    of the table is the place, inside the region its name selects, of the
    bytes of one of the files [done]. *)
Definition consistent (done : list prepared_file) (r : regions) : Prop :=
  clock_thumb_length r = len (clock_thumb_data r) /\
  clock_img_length r = len (clock_img_data r) /\
  clock_z_img_length r = len (clock_z_img_data r) /\
  forall img off size,
    img_objs r !! img = Some (off, size) ->
    exists f in_data,
      f ∈ done /\ file_chunk f = Some (img, in_data) /\
      0 <= off /\ size = len in_data /\
      off + size <= len (if startswith img "z_" then clock_z_img_data r
                         else clock_img_data r) /\
      slice (if startswith img "z_" then clock_z_img_data r
             else clock_img_data r) off (off + size) = in_data.

End Packer.

(* ===================================================================== *)
(** ** Directory listings: [get_files] *)
(* ===================================================================== *)

Module Files.

(** [os.path.splitext(file_name)[1].strip('.')] of a base name: what
    follows the last dot, unless dots only come before it. *)
Definition file_extension (file_name : string) : string :=
  match reverse (split "." file_name) with
  | ext :: (_ :: _) as front =>
      if forallb (fun s => bool_decide (s = EmptyString)) front
      then EmptyString else ext
  | _ => EmptyString
  end.

(** [os.path.join(dirpath, file_name)] for a relative [file_name]. *)
Definition path_join (dirpath file_name : string) : string :=
  if bool_decide (dirpath = EmptyString) || endswith dirpath "/"
  then dirpath +:+ file_name
  else dirpath +:+ "/" +:+ file_name.

(** [get_files].  The argument is what [os.walk(src_path)] yields, the
    directory path and the file names of each directory in turn, or [None]
    when [src_path] is no directory.  The [else] of the inner loop returns
    after the first directory; with nothing to walk the function ends
    without a [return]. *)
Definition get_files (walk : option (list (string * list string)))
           (ext_list : list string) : option (list string) :=
  match walk with
  | None => None
  | Some [] => None
  | Some ((dirpath, filenames) :: _) =>
      let ext_list := lower <$> ext_list in
      Some (path_join dirpath
              <$> filter (fun file_name =>
                            lower (file_extension file_name) ∈ ext_list)
                         filenames)
  end.

End Files.

(* ===================================================================== *)
(** ** The command line: [cli_main] and what it calls *)
(* ===================================================================== *)

Module Cli.

Import Validator Packer.

(** [_extract_clock_id_from_src_folder], given the integers
    [int(s) for s in re.findall(r'\d+', base)] of the base name of the
    folder, from left to right (a run on which [int] raises is passed
    over): the first of them in 50000..65535; [None] is the
    [ValueError]. *)
Definition _extract_clock_id_from_src_folder (numbers : list Z) : option Z :=
  head (filter (fun v => 50000 <= v <= 65535) numbers).

(** The dictionary [allowed] of [_detect_clock_size_from_first_layer]. *)
Definition allowed : list ((Z * Z) * string) :=
  [ ((466, 466), "466_466"%string); ((360, 360), "360_360"%string);
    ((320, 385), "320_385"%string); ((368, 448), "368_448"%string);
    ((390, 450), "390_450"%string) ].

(** What the detection reads of the source folder: [config.json] as
    loaded ([None]: missing, unreadable or not a list) and, for a name, the
    size of the image of that name ([None]: no such path or not an
    image). *)
Record folder := {
  folder_config : option (list layer);
  folder_image_size : string -> option (Z * Z)
}.

(** [_detect_clock_size_from_first_layer]; [None] is any of its errors. *)
Definition _detect_clock_size_from_first_layer (d : folder) : option string :=
  config ← folder_config d;
  first ← head config;
  img0 ← head (imgArr first);
  img0 ← match img0 with
         | JList l => last l
         | _ => Some img0
         end;
  match img0 with
  | JStr s =>
      if bool_decide (s = EmptyString) then None
      else
        size ← folder_image_size d s;
        snd <$> head (filter (fun e => bool_decide (e.1 = size)) allowed)
  | _ => None
  end.

(** The options of the command line. *)
Record arguments := {
  arg_clock_id : option Z;
  arg_face_size : option string;
  arg_thumbnail : option (option (list byte));
  arg_no_lz4 : bool;
  arg_idle : bool
}.

(** What [cli_main] finds at [source-dir]: whether it is a directory, the
    integers of the digit runs of its base name, what the detection reads,
    what [check_clock] finds, and the list [image_pre_build] returns with
    and without compression. *)
Record source_dir := {
  is_dir : bool;
  dir_name_numbers : list Z;
  dir_folder : folder;
  dir_source : source;
  dir_file_list : bool -> list prepared_file
}.

(** [cli_main] after the parse: the id and bytes of the file written, or
    [None] for any exit with an error.  [--face-size] takes a key of
    [g_clock_id_prefix_dict] only. *)
Definition cli_main (args : arguments) (sd : source_dir)
  : option (Z * list byte) :=
  if match arg_face_size args with
     | Some s => negb (bool_decide (is_Some (g_clock_id_prefix_dict !! s)))
     | None => false
     end
  then None
  else if negb (is_dir sd) then None
  else
    clock_id_base ← match arg_clock_id args with
                    | Some v => Some v
                    | None => _extract_clock_id_from_src_folder
                                (dir_name_numbers sd)
                    end;
    if negb ((50000 <=? clock_id_base) && (clock_id_base <=? 65535))
    then None
    else
      clock_size ← match arg_face_size args with
                   | Some s => Some s
                   | None => _detect_clock_size_from_first_layer
                               (dir_folder sd)
                   end;
      let use_lz4 := negb (arg_no_lz4 args) in
      gen_clock_res (dir_source sd) (dir_file_list sd use_lz4)
                    clock_id_base clock_size (arg_idle args)
                    (arg_thumbnail args).

End Cli.

(* ===================================================================== *)
(** ** Notions the properties are stated with *)
(* ===================================================================== *)

Module Notions.

Import Validator Packer.

(** Big-endian value of a byte string. *)
Definition be_uint (bs : list byte) : Z := le_uint (reverse bs).

(** The 12-bit height and width a chunk header holds in bytes 5..7. *)
Definition height_field (blob : list byte) : option Z :=
  b5 ← byte_at blob 5; b6 ← byte_at blob 6;
  Some (b5 + 256 * Z.land b6 15).

Definition width_field (blob : list byte) : option Z :=
  b6 ← byte_at blob 6; b7 ← byte_at blob 7;
  Some (Z.shiftr b6 4 + 16 * b7).

(** The room a file takes in the main or the Z region: none for the file
    taken as thumbnail, the length of its bytes otherwise. *)
Definition stored_size (thumbnail_path_override : bool) (f : prepared_file)
  : Z :=
  match file_chunk f with
  | Some (file_name, in_data) =>
      if negb thumbnail_path_override && contains "thumbnail" file_name
      then 0 else len in_data
  | None => 0
  end.

(** The number of bytes the serializer writes for an element of [imgArr],
    by the branch the element takes. *)
Definition pack_img_size (l : layer) (idx : Z) (img : jval) : Z :=
  if mem (drawType l) [10; 15; 21] then 16
  else if (drawType l =? 55) && (idx =? 2) then 30
  else if mem (dataType l) [64; 65; 66; 67] && mem idx [10; 11] then 4
  else if (drawType l =? 8) && mem idx [0; 1; 2] then 4
  else match img with
       | JInt _ => 4
       | _ => 8
       end.

(** A descriptor with every file name spelled in lower case. *)
Definition lower_elem (v : jval) : jval :=
  match v with
  | JStr s => JStr (lower s)
  | _ => v
  end.

Definition lower_img (img : jval) : jval :=
  match img with
  | JStr s => JStr (lower s)
  | JList l => JList (lower_elem <$> l)
  | JInt n => JInt n
  end.

Definition lower_layer (item : layer) : layer :=
  {| drawType := drawType item; dataType := dataType item;
     alignType := alignType item; x := x item; y := y item;
     num := num item; interval := interval item;
     area_num := area_num item; name := name item;
     imgArr := lower_img <$> imgArr item |}.

(** A layer whose file names are ASCII. *)
Definition ascii_elem (v : jval) : bool :=
  match v with
  | JStr s => is_ascii s
  | _ => true
  end.

Definition ascii_img (img : jval) : bool :=
  match img with
  | JStr s => is_ascii s
  | JList l => forallb ascii_elem l
  | JInt _ => true
  end.

Definition ascii_layer (item : layer) : bool :=
  forallb ascii_img (imgArr item).

End Notions.

(* ===================================================================== *)
(** ** The names of the intermediate files *)
(* ===================================================================== *)

Module Pipeline.

(** The names of the files the steps of [image_pre_build] leave in
    [tmp_path] for a PNG of the source folder, as base names. *)

(** [process_convert_png_2_bmp]: the base name of the PNG, with [.BMPA]
    for an image with alpha or transparency and [.bmp] otherwise. *)
Definition bmp_name (with_alpha : bool) (png_base : string) : string :=
  png_base +:+ (if with_alpha then ".BMPA" else ".bmp").

(** [bmp_2_rgb]: [file_path + '.RGB']. *)
Definition rgb_name (bmp_base : string) : string := bmp_base +:+ ".RGB".

(** [compress_rgb]: [os.path.splitext(rgb_path)[0] + ".COMP"]. *)
Definition comp_name (rgb_base : string) : string :=
  (splitext rgb_base).1 +:+ ".COMP".

(** The file [image_pre_build] lists for the PNG: the [.COMP] file when
    compressing, the [.RGB] file otherwise. *)
Definition produced_name (is_compress with_alpha : bool) (png_base : string)
  : string :=
  let rgb := rgb_name (bmp_name with_alpha png_base) in
  if is_compress then comp_name rgb else rgb.

End Pipeline.

(* ===================================================================== *)
(** ** Sample inputs *)
(* ===================================================================== *)

Module Samples.

(** One 24-bit row of two pixels, bytes in BGR order. *)
Definition row_bgr : list byte := z2b <$> [1; 2; 3; 8; 16; 248].

(** The 54 bytes of a BMP file and info header: pixel data at 54, the
    width, the height and the bit depth given. *)
Definition bmp_header (w h bits : Z) : list byte :=
  z2b <$> ([66; 77; 0; 0; 0; 0; 0; 0; 0; 0; 54; 0; 0; 0; 40; 0; 0; 0]
           ++ [w; w / 256; w / 65536; w / 16777216]
           ++ [h; h / 256; h / 65536; h / 16777216]
           ++ [1; 0; bits; 0]
           ++ replicate 24 0).

(** A 1x1 image with alpha, as the PNG step leaves it. *)
Definition bmpa_1x1 : list byte := bmp_header 1 1 32 ++ (z2b <$> [1; 2; 3; 4]).

(** A 4096 x 2049 image without alpha: 24 bits per pixel, all black. *)
Definition big_bmp : list byte :=
  bmp_header 4096 2049 24 ++ replicate (Z.to_nat 25178112) Byte.x00.

(** A stand-in for the lz4 binding where the model is run on a sample: it
    stores the data as they are. *)
Definition lz4_store (data : list byte) (mode : Compressor.lz4_mode)
           (compression : Z) (store_size : bool) : option (list byte) :=
  Some data.

(** A raw chunk: four payload bytes, two declared. *)
Definition raw_chunk : list byte :=
  z2b <$> [73; 0; 2; 0; 0; 1; 16; 0; 0; 0; 0; 0; 0; 0; 0; 0; 10; 20; 30; 40].

(** The same chunk with the compressed flag set and the true length. *)
Definition flagged_chunk : list byte :=
  z2b <$> [73; 1; 4; 0; 0; 1; 16; 0; 0; 0; 0; 0; 0; 0; 0; 0; 10; 20; 30; 40].

(** A layer with the geometry left at zero. *)
Definition plain_layer (draw_type data_type count : Z) (imgs : list jval)
  : layer :=
  {| drawType := draw_type; dataType := data_type; alignType := 0;
     x := 0; y := 0; num := count;
     interval := None; area_num := None; name := Some "layer"%string;
     imgArr := imgs |}.



(** A watch face of 360 x 360: a background, a digit and a needle kept in
    the Z region, each a tiny JPG. *)
Definition jpg_file (base : string) (content : list Z) : Packer.prepared_file :=
  {| Packer.base_name := base;
     Packer.file_bytes := z2b <$> content;
     Packer.image_size := Some (360, 360) |}.

Definition face_files : list Packer.prepared_file :=
  [ jpg_file "bg.jpg" [1; 2; 3];
    jpg_file "digit0.jpg" [4; 5];
    jpg_file "z_needle.jpg" [6; 7; 8; 9] ].

Definition face_names : list string :=
  ["config.json"; "bg.jpg"; "digit0.jpg"; "z_needle.jpg"]%string.

Definition face_config : list layer :=
  [ plain_layer 0 0 1 [JStr "bg.jpg"];
    plain_layer 1 0 2 [JStr "digit0.jpg"; JStr "z_needle.jpg"] ].

Definition face_src : Validator.source :=
  Validator.Source face_names face_config.

(** The regions and the chunk table the loop over [face_files] builds. *)
Definition face_regions : Packer.regions :=
  default
    {| Packer.clock_thumb_data := []; Packer.clock_thumb_length := 0;
       Packer.clock_img_data := []; Packer.clock_img_length := 0;
       Packer.clock_z_img_data := []; Packer.clock_z_img_length := 0;
       Packer.img_objs := ∅ |}
    (Packer.initial_regions None
       ≫= fun r0 => Packer.add_files false r0 face_files).

(** The same watch face with the background spelled [BG.jpg] in
    [config.json]. *)
Definition face_config_upper : list layer :=
  [ plain_layer 0 0 1 [JStr "BG.jpg"];
    plain_layer 1 0 2 [JStr "digit0.jpg"; JStr "z_needle.jpg"] ].

Definition face_src_upper : Validator.source :=
  Validator.Source face_names face_config_upper.

(** A directory whose thumbnail is spelled [Thumbnail.jpg]. *)
Definition thumb_files_upper : list Packer.prepared_file :=
  [ jpg_file "bg.jpg" [1; 2; 3]; jpg_file "Thumbnail.jpg" [4; 5] ].

Definition thumb_files_lower : list Packer.prepared_file :=
  [ jpg_file "bg.jpg" [1; 2; 3]; jpg_file "thumbnail.jpg" [4; 5] ].

End Samples.

Import Samples.

(* ===================================================================== *)
(** ** More sample inputs *)
(* ===================================================================== *)

Module MoreSamples.

Import Samples.

(** One 32-bit row of two pixels, bytes in BGRA order. *)
Definition row_bgra : list byte := z2b <$> [8; 16; 248; 255; 1; 2; 3; 4].

(** A top-down 2 x 2 image of 24 bits per pixel (height -2), rows padded
    to 8 bytes, and the blob the transcoder writes for it. *)
Definition td_bmp : list byte :=
  bmp_header 2 4294967294 24
  ++ (z2b <$> [1; 2; 3; 4; 5; 6; 0; 0; 255; 255; 255; 8; 16; 248; 0; 0]).

Definition td_blob : list byte :=
  z2b <$> [73; 0; 8; 0; 0; 2; 32; 0; 0; 0; 0; 0; 0; 0; 0; 0;
           0; 0; 32; 0; 255; 255; 129; 248].

(** What the compressor, with the stand-in, writes for [raw_chunk]. *)
Definition raw_chunk_comp : list byte :=
  z2b <$> [73; 1; 2; 0; 0; 1; 16; 0; 0; 0; 0; 0; 0; 0; 0; 0; 10; 20].

(** A layer without a [name] key whose count is off. *)
Definition nameless_layer : layer :=
  {| drawType := 0; dataType := 0; alignType := 0; x := 0; y := 0; num := 2;
     interval := None; area_num := None; name := None;
     imgArr := [JInt 1] |}.

(** A layer that animates ([dataType] 52) and has no [interval]. *)
Definition animated_layer : layer := plain_layer 0 52 1 [JStr "bg.jpg"].

(** The file [gen_clock_res] writes for the watch face of the samples. *)
Definition face_out : list byte :=
  z2b <$> [83; 98; 64; 42; 79; 50; 71; 71; 0; 7; 195; 81; 0; 0; 0; 32; 0; 0;
           0; 0; 0; 0; 0; 32; 0; 0; 0; 37; 0; 0; 0; 89; 9; 0; 3; 0; 0; 104;
           129; 22; 0; 0; 0; 0; 0; 0; 0; 0; 1; 2; 3; 9; 0; 2; 0; 0; 104;
           129; 22; 0; 0; 0; 0; 0; 0; 0; 0; 4; 5; 9; 0; 4; 0; 0; 104; 129;
           22; 0; 0; 0; 0; 0; 0; 0; 0; 6; 7; 8; 9; 0; 0; 0; 0; 0; 0; 0; 0;
           0; 0; 0; 0; 0; 0; 0; 0; 0; 0; 0; 0; 0; 0; 0; 1; 0; 0; 0; 0; 0; 0;
           0; 19; 0; 0; 0; 1; 0; 0; 0; 0; 0; 0; 0; 0; 0; 0; 0; 0; 0; 0; 0;
           0; 0; 0; 0; 2; 0; 0; 0; 19; 0; 0; 0; 18; 0; 0; 0; 69; 0; 0; 0;
           20].

(** A source folder named [face_v2_Clock50001], with images of 360 x 360,
    and a command line without options. *)
Definition face_folder : Cli.folder :=
  {| Cli.folder_config := Some face_config;
     Cli.folder_image_size := fun _ => Some (360, 360) |}.

Definition face_dir : Cli.source_dir :=
  {| Cli.is_dir := true;
     Cli.dir_name_numbers := [2; 50001];
     Cli.dir_folder := face_folder;
     Cli.dir_source := face_src;
     Cli.dir_file_list := fun _ => face_files |}.

Definition no_options : Cli.arguments :=
  {| Cli.arg_clock_id := None; Cli.arg_face_size := None;
     Cli.arg_thumbnail := None; Cli.arg_no_lz4 := false;
     Cli.arg_idle := false |}.

End MoreSamples.

(* ===================================================================== *)
(** * Properties *)
(* ===================================================================== *)

(** ** Bytes, slices and bit masks *)

Module BytesFacts.

Lemma b2z_range (b : byte) : 0 <= b2z b < 256.
Proof. unfold b2z. pose proof (Byte.to_N_bounded b). lia. Qed.

Lemma b2z_z2b (z : Z) : b2z (z2b z) = z mod 256.
Proof.
  unfold b2z, z2b.
  assert (Hr : 0 <= z mod 256 < 256) by (apply Z.mod_pos_bound; lia).
  destruct (Byte.of_N (Z.to_N (z mod 256))) as [b|] eqn:E; simpl.
  - apply Byte.to_of_N in E. rewrite E. lia.
  - apply Byte.of_N_None_iff in E. lia.
Qed.

Lemma z2b_b2z (b : byte) : z2b (b2z b) = b.
Proof.
  unfold z2b. rewrite Z.mod_small by apply b2z_range.
  unfold b2z. rewrite N2Z.id, Byte.of_to_N. reflexivity.
Qed.

Lemma b2z_z2b_small (z : Z) : 0 <= z < 256 -> b2z (z2b z) = z.
Proof. intros. rewrite b2z_z2b. apply Z.mod_small. assumption. Qed.

Lemma len_nonneg {A} (l : list A) : 0 <= len l.
Proof. unfold len. lia. Qed.

Lemma len_app {A} (l k : list A) : len (l ++ k) = len l + len k.
Proof. unfold len. rewrite length_app. lia. Qed.

Lemma byte_at_Some (l : list byte) (i v : Z) :
  byte_at l i = Some v ->
  0 <= i < len l /\ exists b, l !! Z.to_nat i = Some b /\ v = b2z b.
Proof.
  unfold byte_at, len. destruct (i <? 0) eqn:E; [discriminate|].
  apply Z.ltb_ge in E.
  destruct (l !! Z.to_nat i) as [b|] eqn:L; simpl; [|discriminate].
  intros [= <-]. apply lookup_lt_Some in L. split; [lia|]. eauto.
Qed.

Lemma byte_at_is_Some (l : list byte) (i : Z) :
  0 <= i < len l -> is_Some (byte_at l i).
Proof.
  unfold byte_at, len. intros H.
  destruct (i <? 0) eqn:E; [apply Z.ltb_lt in E; lia|].
  destruct (lookup_lt_is_Some_2 l (Z.to_nat i)) as [b ->]; [lia|].
  simpl. eauto.
Qed.

Lemma byte_at_range (l : list byte) (i v : Z) :
  byte_at l i = Some v -> 0 <= v < 256.
Proof.
  intros H. apply byte_at_Some in H as (_ & b & _ & ->). apply b2z_range.
Qed.

Lemma len_slice {A} (l : list A) (lo hi : Z) :
  0 <= lo <= hi -> hi <= len l -> len (slice l lo hi) = hi - lo.
Proof.
  unfold slice, len. intros H1 H2.
  rewrite length_drop, length_take. lia.
Qed.

Lemma slice_as_take {A} (l : list A) (lo n : Z) :
  0 <= lo -> 0 <= n ->
  slice l lo (lo + n) = take (Z.to_nat n) (drop (Z.to_nat lo) l).
Proof.
  intros. unfold slice. rewrite take_drop_commute. f_equal. f_equal. lia.
Qed.

(** A cell of a concatenation of blocks of one size. *)
Lemma take_drop_concat {A} (n : nat) (k : list (list A)) (i : nat) (c : list A) :
  Forall (fun c => length c = n) k -> k !! i = Some c ->
  take n (drop (i * n) (concat k)) = c.
Proof.
  intros Hk. revert i. induction Hk as [|a k Ha Hk IH]; intros i Hi.
  - discriminate.
  - destruct i as [|i]; simpl in *.
    + injection Hi as ->. apply take_app_length'. congruence.
    + rewrite drop_app_add' by congruence. apply IH, Hi.
Qed.

Lemma length_concat_uniform {A} (n : nat) (k : list (list A)) :
  Forall (fun c => length c = n) k -> length (concat k) = (length k * n)%nat.
Proof.
  induction 1 as [|a k Ha Hk IH]; simpl; [reflexivity|].
  rewrite length_app, IH, Ha. reflexivity.
Qed.

Lemma land_bound (a m k : Z) :
  0 <= k -> 0 <= m < 2 ^ k -> 0 <= Z.land a m < 2 ^ k.
Proof.
  intros Hk Hm.
  assert (H0 : 0 <= Z.land a m) by (apply Z.land_nonneg; lia).
  split; [assumption|].
  apply (Z.bounded_iff_bits_nonneg k); [assumption..|].
  intros l Hl. rewrite Z.land_spec.
  assert (Z.testbit m l = false) as ->.
  { apply (proj1 (Z.bounded_iff_bits_nonneg k m Hk (proj1 Hm))); lia. }
  apply andb_false_r.
Qed.

Lemma lor_bound (a b k : Z) :
  0 <= k -> 0 <= a < 2 ^ k -> 0 <= b < 2 ^ k -> 0 <= Z.lor a b < 2 ^ k.
Proof.
  intros Hk Ha Hb.
  assert (H0 : 0 <= Z.lor a b) by (apply Z.lor_nonneg; lia).
  split; [assumption|].
  apply (Z.bounded_iff_bits_nonneg k); [assumption..|].
  intros l Hl. rewrite Z.lor_spec.
  rewrite (proj1 (Z.bounded_iff_bits_nonneg k a Hk (proj1 Ha))) by lia.
  rewrite (proj1 (Z.bounded_iff_bits_nonneg k b Hk (proj1 Hb))) by lia.
  reflexivity.
Qed.

Lemma le_uint_pair (v : Z) :
  0 <= v <= 65535 -> le_uint [z2b v; z2b (v / 256)] = v.
Proof.
  intros Hv. unfold le_uint. simpl. rewrite !b2z_z2b.
  Z.div_mod_to_equations. lia.
Qed.

Ltac ones_bits :=
  repeat first
    [ rewrite Z.ones_spec_low by lia
    | rewrite Z.ones_spec_high by lia
    | rewrite (Z.testbit_neg_r _ (_ - _)) by lia
    | rewrite Z.shiftr_spec by lia ];
  rewrite ?andb_true_r, ?andb_false_r, ?orb_false_r, ?orb_false_l.

(** The three masked bytes put together are the low 24 bits. *)
Lemma le24_masks (s : Z) :
  Z.lor (Z.lor (Z.land s 255) (Z.shiftl (Z.land (Z.shiftr s 8) 255) 8))
        (Z.shiftl (Z.land (Z.shiftr s 16) 255) 16)
  = s mod 16777216.
Proof.
  change 16777216 with (2 ^ 24). change 255 with (Z.ones 8).
  apply Z.bits_inj'. intros n Hn.
  rewrite !Z.lor_spec, !Z.shiftl_spec, !Z.land_spec by lia.
  destruct (Z.lt_ge_cases n 8); [|destruct (Z.lt_ge_cases n 16);
    [|destruct (Z.lt_ge_cases n 24)]].
  - rewrite Z.mod_pow2_bits_low by lia. ones_bits. reflexivity.
  - rewrite Z.mod_pow2_bits_low by lia. ones_bits. f_equal. lia.
  - rewrite Z.mod_pow2_bits_low by lia. ones_bits. f_equal. lia.
  - rewrite Z.mod_pow2_bits_high by lia. ones_bits. reflexivity.
Qed.

End BytesFacts.

Import BytesFacts.

(** ** Pixel transcoder *)

Module TranscoderFacts.

Import Bmp.

Lemma rgb565_bound (r g b : Z) : 0 <= rgb565 r g b <= 65535.
Proof.
  unfold rgb565.
  pose proof (land_bound r 248 8 ltac:(lia) ltac:(lia)) as Hr.
  pose proof (land_bound g 252 8 ltac:(lia) ltac:(lia)) as Hg.
  pose proof (land_bound b 248 8 ltac:(lia) ltac:(lia)) as Hb.
  rewrite !Z.shiftl_mul_pow2, Z.shiftr_div_pow2 by lia.
  change (2 ^ 8) with 256 in *. change (2 ^ 3) with 8.
  enough (0 <= Z.lor (Z.lor (Z.land r 248 * 256) (Z.land g 252 * 8))
                     (Z.land b 248 / 8) < 2 ^ 16) by lia.
  apply lor_bound; [lia| |].
  - apply lor_bound; change (2 ^ 16) with 65536; lia.
  - change (2 ^ 16) with 65536. Z.div_mod_to_equations. lia.
Qed.

Lemma pack_H_le_Some (v : Z) (out : list byte) :
  pack_H_le v = Some out -> 0 <= v <= 65535 /\ out = [z2b v; z2b (v / 256)].
Proof.
  unfold pack_H_le.
  destruct (0 <=? v) eqn:E1; destruct (v <=? 65535) eqn:E2; simpl;
    try discriminate.
  intros [= <-]. apply Z.leb_le in E1, E2. auto.
Qed.

Lemma pack_H_le_total (v : Z) :
  0 <= v <= 65535 -> pack_H_le v = Some [z2b v; z2b (v / 256)].
Proof.
  intros [H1 H2]. unfold pack_H_le.
  apply Z.leb_le in H1, H2. rewrite H1, H2. reflexivity.
Qed.

(** What one turn of the 24-bit RGB565 loop appends. *)
Lemma pixel_565_Some (row_bytes : list byte) (x : Z) (c : list byte) :
  pixel_565 row_bytes x = Some c ->
  exists b g r,
    byte_at row_bytes (x * 3) = Some b /\
    byte_at row_bytes (x * 3 + 1) = Some g /\
    byte_at row_bytes (x * 3 + 2) = Some r /\
    c = [z2b (rgb565 r g b); z2b (rgb565 r g b / 256)].
Proof.
  unfold pixel_565. rewrite Z.add_0_r.
  destruct (byte_at row_bytes (x * 3)) as [b|]; simpl; [|discriminate].
  destruct (byte_at row_bytes (x * 3 + 1)) as [g|]; simpl; [|discriminate].
  destruct (byte_at row_bytes (x * 3 + 2)) as [r|]; simpl; [|discriminate].
  intros H. apply pack_H_le_Some in H as [_ ->]. eauto 10.
Qed.

Lemma pixel_565_total (row_bytes : list byte) (x : Z) :
  0 <= x -> x * 3 + 2 < len row_bytes -> is_Some (pixel_565 row_bytes x).
Proof.
  intros H0 H1. unfold pixel_565. rewrite Z.add_0_r.
  destruct (byte_at_is_Some row_bytes (x * 3)) as [b ->]; [lia|].
  destruct (byte_at_is_Some row_bytes (x * 3 + 1)) as [g ->]; [lia|].
  destruct (byte_at_is_Some row_bytes (x * 3 + 2)) as [r ->]; [lia|].
  simpl. rewrite pack_H_le_total by apply rgb565_bound. eauto.
Qed.

Lemma lookup_range (n x : Z) :
  0 <= x < n -> range n !! Z.to_nat x = Some x.
Proof.
  intros H. unfold range. rewrite lookup_seqZ_lt by lia. f_equal. lia.
Qed.

Lemma elem_of_range (n x : Z) : x ∈ range n -> 0 <= x < n.
Proof. unfold range. rewrite elem_of_seqZ. lia. Qed.

(** ** C4 *)

(** C4.  RGB565 rows.  For a 24-bit row ([bpp = 3]) the row is packed as
    soon as it holds three bytes per pixel, and for every pixel [x] the two
    bytes emitted at [2x] are the little-endian u16
    [((R & 0xF8) << 8) | ((G & 0xFC) << 3) | ((B & 0xF8) >> 3)], with
    [B], [G], [R] the row bytes at [3x], [3x+1], [3x+2].  For a 16-bit row
    ([bpp = 2]) the output is the slice [row_bytes[:bmp_w * 2]]. *)
Theorem rgb565_row_transcoding (bmp_w : Z) (row_bytes : list byte) :
  (3 * bmp_w <= len row_bytes -> is_Some (pack_row 565 3 bmp_w row_bytes)) /\
  (forall out x,
      pack_row 565 3 bmp_w row_bytes = Some out -> 0 <= x < bmp_w ->
      exists b g r,
        byte_at row_bytes (x * 3) = Some b /\
        byte_at row_bytes (x * 3 + 1) = Some g /\
        byte_at row_bytes (x * 3 + 2) = Some r /\
        unpack_H_le (slice out (2 * x) (2 * x + 2)) =
          Some (Z.lor (Z.lor (Z.shiftl (Z.land r 248) 8)
                             (Z.shiftl (Z.land g 252) 3))
                      (Z.shiftr (Z.land b 248) 3))) /\
  pack_row 565 2 bmp_w row_bytes = Some (take (Z.to_nat (bmp_w * 2)) row_bytes).
Proof.
  split; [|split].
  - intros Hlen. unfold pack_row. simpl.
    apply fmap_is_Some, mapM_is_Some, Forall_forall.
    intros x Hx%elem_of_range. apply pixel_565_total; lia.
  - intros out x Hout Hx. unfold pack_row in Hout. simpl in Hout.
    destruct (mapM (pixel_565 row_bytes) (range bmp_w)) as [cells|] eqn:Hm;
      simpl in Hout; [|discriminate].
    injection Hout as <-.
    apply mapM_Some_1 in Hm.
    destruct (Forall2_lookup_l _ _ _ (Z.to_nat x) x Hm (lookup_range _ _ Hx))
      as (c & Hc & Hpx).
    apply pixel_565_Some in Hpx as (b & g & r & Hb & Hg & Hr & ->).
    exists b, g, r. repeat split; try assumption.
    assert (Hall : Forall (fun c : list byte => length c = 2%nat) cells).
    { apply Forall_forall. intros c Hc'.
      apply list_elem_of_lookup in Hc' as [i Hi].
      destruct (Forall2_lookup_r _ _ _ i c Hm Hi) as (x' & _ & Hx').
      apply pixel_565_Some in Hx' as (? & ? & ? & _ & _ & _ & ->).
      reflexivity. }
    rewrite (slice_as_take _ (2 * x) 2) by lia.
    replace (Z.to_nat (2 * x)) with (Z.to_nat x * 2)%nat by lia.
    change (Z.to_nat 2) with 2%nat.
    rewrite (take_drop_concat 2 cells _ _ Hall Hc).
    unfold unpack_H_le. simpl.
    f_equal. apply le_uint_pair, rgb565_bound.
  - reflexivity.
Qed.

Lemma rgb565_row_transcoding_witness :
  is_Some (pack_row 565 3 2 row_bgr) /\
  exists b g r,
    byte_at row_bgr 3 = Some b /\ byte_at row_bgr 4 = Some g /\
    byte_at row_bgr 5 = Some r /\
    unpack_H_le (slice (z2b <$> [0; 0; 129; 248]) 2 4) =
      Some (Z.lor (Z.lor (Z.shiftl (Z.land r 248) 8)
                         (Z.shiftl (Z.land g 252) 3))
                  (Z.shiftr (Z.land b 248) 3)).
Proof.
  destruct (rgb565_row_transcoding 2 row_bgr) as (H1 & H2 & _).
  split.
  - apply H1. unfold len. simpl. lia.
  - apply (H2 (z2b <$> [0; 0; 129; 248]) 1); [reflexivity | lia].
Defined.

(** ** C5 *)

Lemma pack_B_Some (v : Z) (out : list byte) :
  pack_B v = Some out -> 0 <= v <= 255 /\ out = [z2b v].
Proof.
  unfold pack_B.
  destruct (0 <=? v) eqn:E1; destruct (v <=? 255) eqn:E2; simpl;
    try discriminate.
  intros [= <-]. apply Z.leb_le in E1, E2. auto.
Qed.

Lemma pack_B_total (v : Z) : 0 <= v <= 255 -> pack_B v = Some [z2b v].
Proof.
  intros [H1 H2]. unfold pack_B.
  apply Z.leb_le in H1, H2. rewrite H1, H2. reflexivity.
Qed.

Lemma pack_Bs_Some (vs : list Z) (out : list byte) :
  pack_Bs vs = Some out -> out = z2b <$> vs.
Proof.
  unfold pack_Bs. revert out.
  induction vs as [|v vs IH]; intros out; simpl.
  - intros [= <-]. reflexivity.
  - destruct (pack_B v) as [c|] eqn:Hc; simpl; [|discriminate].
    destruct (mapM pack_B vs) as [cs|]; simpl in *; [|discriminate].
    intros [= <-]. apply pack_B_Some in Hc as [_ ->].
    simpl. f_equal. apply IH. reflexivity.
Qed.

Lemma pack_Bs_total (vs : list Z) :
  Forall (fun v => 0 <= v <= 255) vs -> pack_Bs vs = Some (z2b <$> vs).
Proof.
  unfold pack_Bs. induction 1 as [|v vs Hv Hvs IH]; simpl; [reflexivity|].
  rewrite pack_B_total by assumption. simpl.
  destruct (mapM pack_B vs) as [cs|]; simpl in *; [|discriminate].
  injection IH as ->. reflexivity.
Qed.

Lemma chunk_header_Some (img_type size height width : Z) (hdr : list byte) :
  chunk_header img_type size height width = Some hdr ->
  hdr = z2b <$> header_fields img_type size height width.
Proof. apply pack_Bs_Some. Qed.

Lemma mix_byte_bound (height width : Z) :
  0 <= Z.lor (Z.land (Z.shiftr height 8) 15) (Z.shiftl (Z.land width 15) 4)
    <= 255.
Proof.
  pose proof (land_bound (Z.shiftr height 8) 15 4 ltac:(lia) ltac:(lia)) as H1.
  pose proof (land_bound width 15 4 ltac:(lia) ltac:(lia)) as H2.
  rewrite Z.shiftl_mul_pow2 by lia.
  change (2 ^ 4) with 16 in *.
  enough (0 <= Z.lor (Z.land (Z.shiftr height 8) 15) (Z.land width 15 * 16)
          < 2 ^ 8) by lia.
  apply lor_bound; change (2 ^ 8) with 256; lia.
Qed.

Lemma chunk_header_total (img_type size height width : Z) :
  0 <= img_type <= 255 ->
  chunk_header img_type size height width =
    Some (z2b <$> header_fields img_type size height width).
Proof.
  intros Ht. apply pack_Bs_total. unfold header_fields.
  pose proof (fun a => land_bound a 255 8 ltac:(lia) ltac:(lia)) as Hm.
  change (2 ^ 8) with 256 in Hm.
  pose proof (mix_byte_bound height width).
  repeat (apply Forall_cons; split;
          [first [lia | specialize (Hm size); lia
                 | specialize (Hm (Z.shiftr size 8)); lia
                 | specialize (Hm (Z.shiftr size 16)); lia
                 | specialize (Hm height); lia
                 | specialize (Hm (Z.shiftr width 4)); lia]|]).
  apply Forall_nil. exact I.
Qed.

(** The shape of every blob [bmp_2_rgb] writes. *)
Lemma bmp_2_rgb_shape (base_name : string) (in_data blob : list byte) :
  bmp_2_rgb base_name in_data = Some blob ->
  exists bpp_bits bpp rgb_format img_type bmp_h bmp_w out_payload,
    unpack_H_le (slice in_data 28 30) = Some bpp_bits /\
    bytes_per_pixel bpp_bits = Some bpp /\
    select_format (stem base_name) bpp = Some (rgb_format, img_type) /\
    blob = (z2b <$> header_fields img_type (len out_payload) bmp_h bmp_w)
             ++ out_payload.
Proof.
  unfold bmp_2_rgb.
  destruct (_ || _); [discriminate|].
  destruct (unpack_I_le (slice in_data 10 14)) as [start|]; simpl; [|discriminate].
  destruct (unpack_I_le (slice in_data 18 22)) as [w|]; simpl; [|discriminate].
  destruct (unpack_I_le (slice in_data 22 26)) as [h0|]; simpl; [|discriminate].
  destruct (unpack_H_le (slice in_data 28 30)) as [bits|]; simpl; [|discriminate].
  destruct (bytes_per_pixel bits) as [bpp|] eqn:Hbpp; simpl; [|discriminate].
  destruct (select_format (stem base_name) bpp) as [[fmt ty]|] eqn:Hsel;
    simpl; [|discriminate].
  destruct (if negb _ then _ else _) as [h1|]; simpl; [|discriminate].
  destruct (mapM _ _) as [rows|]; simpl; [|discriminate].
  destruct (chunk_header _ _ _ _) as [hdr|] eqn:Hh; simpl; [|discriminate].
  intros [= <-]. apply chunk_header_Some in Hh as ->.
  eauto 12.
Qed.

Lemma target_img_type_spec (file_name : string) (bpp_bits : Z) :
  bpp_bits = 16 \/ bpp_bits = 24 \/ bpp_bits = 32 ->
  target_img_type file_name bpp_bits = spec_img_type file_name bpp_bits.
Proof.
  unfold target_img_type, spec_img_type, select_format.
  intros [-> | [-> | ->]]; simpl;
    destruct (endswith file_name "8888"), (endswith file_name "1555"),
             (endswith file_name "565"); reflexivity.
Qed.

(** A depth other than 16..39 bits is refused before the suffix is read. *)
Lemma unsupported_depth_refused (file_name : string) (bpp_bits : Z) :
  ~ (16 <= bpp_bits < 40) -> target_img_type file_name bpp_bits = None.
Proof.
  intros H. unfold target_img_type, bytes_per_pixel.
  rewrite Z.shiftr_div_pow2 by lia. change (2 ^ 3) with 8.
  destruct (bpp_bits / 8 =? 2) eqn:E2; [apply Z.eqb_eq in E2; exfalso;
    Z.div_mod_to_equations; lia|].
  destruct (bpp_bits / 8 =? 3) eqn:E3; [apply Z.eqb_eq in E3; exfalso;
    Z.div_mod_to_equations; lia|].
  destruct (bpp_bits / 8 =? 4) eqn:E4; [apply Z.eqb_eq in E4; exfalso;
    Z.div_mod_to_equations; lia|].
  reflexivity.
Qed.

(** C5.  Target format selection.  For a BMP whose depth field is 16, 24
    or 32 bits, the image type [bmp_2_rgb] settles on is the one of the
    first-match table (8888 with 32 bits: 71, refused otherwise; 1555 with
    32 bits: 74; 565 or 16/24 bits: 73; other 32-bit input: 72): where
    the table refuses, no blob is written, and every blob written starts
    with the image type of the table. *)
Theorem target_format_selection
        (base_name : string) (in_data : list byte) (bpp_bits : Z) :
  unpack_H_le (slice in_data 28 30) = Some bpp_bits ->
  bpp_bits = 16 \/ bpp_bits = 24 \/ bpp_bits = 32 ->
  target_img_type (stem base_name) bpp_bits
    = spec_img_type (stem base_name) bpp_bits /\
  match spec_img_type (stem base_name) bpp_bits with
  | Some t =>
      forall blob, bmp_2_rgb base_name in_data = Some blob ->
                   byte_at blob 0 = Some t
  | None => bmp_2_rgb base_name in_data = None
  end.
Proof.
  intros Hbits Hdom.
  pose proof (target_img_type_spec (stem base_name) bpp_bits Hdom) as Heq.
  split; [exact Heq|].
  assert (Hblob : forall blob, bmp_2_rgb base_name in_data = Some blob ->
            exists t, target_img_type (stem base_name) bpp_bits = Some t /\
                      byte_at blob 0 = Some t).
  { intros blob Hb.
    apply bmp_2_rgb_shape in Hb
      as (bits & bpp & fmt & ty & h & w & pl & Hbits' & Hbpp & Hsel & ->).
    rewrite Hbits in Hbits'. injection Hbits' as <-.
    exists ty. unfold target_img_type. rewrite Hbpp. simpl. rewrite Hsel.
    split; [reflexivity|].
    unfold byte_at. simpl. f_equal. apply b2z_z2b_small.
    unfold select_format in Hsel.
    repeat match type of Hsel with
           | (if ?c then _ else _) = _ => destruct c
           end; try discriminate; injection Hsel as _ <-; lia. }
  rewrite <- Heq.
  destruct (target_img_type (stem base_name) bpp_bits) as [t|] eqn:Ht.
  - intros blob Hb. destruct (Hblob blob Hb) as (t' & [= <-] & Hb0). exact Hb0.
  - destruct (bmp_2_rgb base_name in_data) as [blob|] eqn:Hb; [|reflexivity].
    destruct (Hblob blob eq_refl) as (t' & [=] & _).
Qed.

Lemma target_format_selection_witness :
  target_img_type "a" 32 = spec_img_type "a" 32 /\
  forall blob, bmp_2_rgb "a.png.BMPA" bmpa_1x1 = Some blob ->
               byte_at blob 0 = Some 72.
Proof.
  apply (target_format_selection "a.png.BMPA" bmpa_1x1 32).
  - reflexivity.
  - right; right; reflexivity.
Defined.

(** ** C9 *)

Lemma payload_len_field_header (img_type size height width : Z)
      (out_payload : list byte) :
  payload_len_field
    ((z2b <$> header_fields img_type size height width) ++ out_payload)
  = Some (size mod 16777216).
Proof.
  unfold payload_len_field, byte_at, header_fields. simpl.
  pose proof (fun a => land_bound a 255 8 ltac:(lia) ltac:(lia)) as Hm.
  change (2 ^ 8) with 256 in Hm.
  rewrite !b2z_z2b_small by apply Hm.
  f_equal. apply le24_masks.
Qed.

Lemma bmp_2_rgb_payload_len
      (base_name : string) (in_data blob : list byte) :
  bmp_2_rgb base_name in_data = Some blob ->
  16 <= len blob /\
  payload_len_field blob = Some ((len blob - 16) mod 16777216).
Proof.
  intros Hb.
  apply bmp_2_rgb_shape in Hb
    as (bits & bpp & fmt & ty & h & w & pl & _ & _ & _ & ->).
  rewrite payload_len_field_header, len_app.
  pose proof (len_nonneg pl).
  replace (len (z2b <$> header_fields ty (len pl) h w)) with 16
    by reflexivity.
  split; [lia|]. do 2 f_equal. lia.
Qed.

(** C9, as the code has it.  [bmp_2_rgb] makes no check of the payload
    size: whenever it writes a blob, the blob is the 16-byte header and the
    payload, and the 24-bit [payload_len] of the header is the payload
    length modulo 2^24, whatever that length is. *)
Theorem payload_len_low_24_bits
        (base_name : string) (in_data blob : list byte) :
  bmp_2_rgb base_name in_data = Some blob ->
  16 <= len blob /\
  payload_len_field blob = Some ((len blob - 16) mod 16777216).
Proof. apply bmp_2_rgb_payload_len. Qed.

Lemma payload_len_low_24_bits_witness :
  16 <= len (z2b <$> [72; 0; 3; 0; 0; 1; 16; 0; 0; 0; 0; 0; 0; 0; 0; 0;
                      0; 0; 4]) /\
  payload_len_field (z2b <$> [72; 0; 3; 0; 0; 1; 16; 0; 0; 0; 0; 0; 0; 0; 0; 0;
                              0; 0; 4])
  = Some ((len (z2b <$> [72; 0; 3; 0; 0; 1; 16; 0; 0; 0; 0; 0; 0; 0; 0; 0;
                         0; 0; 4]) - 16) mod 16777216).
Proof.
  apply (payload_len_low_24_bits "a.png.BMPA" bmpa_1x1). reflexivity.
Defined.

(** *** The transcoder ends well on every well-formed bottom-up BMP *)

Lemma rgb1555_bound (r g b a : Z) : 0 <= rgb1555 r g b a <= 65535.
Proof.
  unfold rgb1555.
  pose proof (land_bound r 248 8 ltac:(lia) ltac:(lia)) as Hr.
  pose proof (land_bound g 248 8 ltac:(lia) ltac:(lia)) as Hg.
  pose proof (land_bound b 248 8 ltac:(lia) ltac:(lia)) as Hb.
  rewrite !Z.shiftl_mul_pow2, Z.shiftr_div_pow2 by lia.
  change (2 ^ 8) with 256 in *. change (2 ^ 7) with 128.
  change (2 ^ 2) with 4. change (2 ^ 3) with 8.
  assert (Hv : 0 <= Z.lor (Z.lor (Z.land r 248 * 128) (Z.land g 248 * 4))
                          (Z.land b 248 / 8) < 2 ^ 16).
  { apply lor_bound; [lia| |].
    - apply lor_bound; change (2 ^ 16) with 65536; lia.
    - change (2 ^ 16) with 65536. Z.div_mod_to_equations. lia. }
  destruct (a =? 255).
  - enough (0 <= Z.lor (Z.lor (Z.lor (Z.land r 248 * 128) (Z.land g 248 * 4))
                              (Z.land b 248 / 8)) 32768 < 2 ^ 16) by lia.
    apply lor_bound; [lia|exact Hv|]. change (2 ^ 16) with 65536. lia.
  - change (2 ^ 16) with 65536 in Hv. lia.
Qed.

Lemma pixel_565_cell (row_bytes : list byte) (x : Z) :
  0 <= x -> x * 3 + 2 < len row_bytes ->
  exists c, pixel_565 row_bytes x = Some c /\ length c = 2%nat.
Proof.
  intros H0 H1. destruct (pixel_565_total row_bytes x H0 H1) as [c Hc].
  exists c. split; [exact Hc|].
  apply pixel_565_Some in Hc as (? & ? & ? & _ & _ & _ & ->). reflexivity.
Qed.

Lemma pixel_1555_cell (row_bytes : list byte) (x : Z) :
  0 <= x -> x * 4 + 3 < len row_bytes ->
  exists c, pixel_1555 row_bytes x = Some c /\ length c = 2%nat.
Proof.
  intros H0 H1. unfold pixel_1555.
  destruct (byte_at_is_Some row_bytes (x * 4 + 0)) as [b ->]; [lia|].
  destruct (byte_at_is_Some row_bytes (x * 4 + 1)) as [g ->]; [lia|].
  destruct (byte_at_is_Some row_bytes (x * 4 + 2)) as [r ->]; [lia|].
  destruct (byte_at_is_Some row_bytes (x * 4 + 3)) as [a ->]; [lia|].
  simpl. rewrite pack_H_le_total by apply rgb1555_bound. eauto.
Qed.

Lemma pixel_8565_cell (row_bytes : list byte) (x : Z) :
  0 <= x -> x * 4 + 3 < len row_bytes ->
  exists c, pixel_8565 row_bytes x = Some c /\ length c = 3%nat.
Proof.
  intros H0 H1. unfold pixel_8565.
  destruct (byte_at_is_Some row_bytes (x * 4 + 0)) as [b ->]; [lia|].
  destruct (byte_at_is_Some row_bytes (x * 4 + 1)) as [g ->]; [lia|].
  destruct (byte_at_is_Some row_bytes (x * 4 + 2)) as [r ->]; [lia|].
  destruct (byte_at_is_Some row_bytes (x * 4 + 3)) as [a Ha]; [lia|].
  rewrite Ha. simpl. rewrite pack_H_le_total by apply rgb565_bound. simpl.
  apply byte_at_range in Ha. rewrite pack_B_total by lia. simpl. eauto.
Qed.

(** A loop whose every turn appends [n] bytes. *)
Lemma mapM_cells {A} (f : A -> option (list byte)) (l : list A) (n : nat) :
  (forall a, a ∈ l -> exists c, f a = Some c /\ length c = n) ->
  exists cells, mapM f l = Some cells /\
                length (concat cells) = (length l * n)%nat.
Proof.
  induction l as [|a l IH]; intros H; simpl.
  - exists []. split; reflexivity.
  - destruct (H a) as (c & Hc & Hn); [left|].
    destruct IH as (cells & Hcells & Hlen).
    { intros a' Ha'. apply H. right. exact Ha'. }
    rewrite Hc. simpl. rewrite Hcells. simpl.
    exists (c :: cells). split; [reflexivity|].
    simpl. rewrite length_app, Hlen, Hn. reflexivity.
Qed.

Lemma length_range (n : Z) : length (range n) = Z.to_nat n.
Proof. apply length_seqZ. Qed.

Lemma pack_row_total (rgb_format bpp bmp_w : Z) (row_bytes : list byte) :
  0 <= bmp_w ->
  (if rgb_format =? 565 then bpp = 2 \/ bpp = 3 \/ bpp = 4 else bpp = 4) ->
  bmp_w * bpp <= len row_bytes ->
  exists out, pack_row rgb_format bpp bmp_w row_bytes = Some out /\
              len out = bmp_w * out_bytes_per_pixel rgb_format.
Proof.
  intros Hw Hbpp Hlen. unfold pack_row, out_bytes_per_pixel.
  destruct (rgb_format =? 565).
  { destruct (bpp =? 2) eqn:E2.
    - apply Z.eqb_eq in E2. subst bpp. eexists. split; [reflexivity|].
      rewrite len_slice; lia.
    - apply Z.eqb_neq in E2.
      destruct (mapM_cells (pixel_565 row_bytes) (range bmp_w) 2)
        as (cells & -> & Hc).
      { intros x Hx%elem_of_range. apply pixel_565_cell; lia. }
      simpl. eexists. split; [reflexivity|].
      unfold len. rewrite Hc, length_range. lia. }
  subst bpp.
  destruct (rgb_format =? 1555).
  { destruct (mapM_cells (pixel_1555 row_bytes) (range bmp_w) 2)
      as (cells & -> & Hc).
    { intros x Hx%elem_of_range. apply pixel_1555_cell; lia. }
    simpl. eexists. split; [reflexivity|].
    unfold len. rewrite Hc, length_range. lia. }
  destruct (rgb_format =? 8888).
  { eexists. split; [reflexivity|]. rewrite len_slice; lia. }
  destruct (mapM_cells (pixel_8565 row_bytes) (range bmp_w) 3)
    as (cells & -> & Hc).
  { intros x Hx%elem_of_range. apply pixel_8565_cell; lia. }
  simpl. eexists. split; [reflexivity|].
  unfold len. rewrite Hc, length_range. lia.
Qed.

Lemma select_format_depth (file_name : string) (bpp_bits bpp fmt ty : Z) :
  bytes_per_pixel bpp_bits = Some bpp ->
  select_format file_name bpp = Some (fmt, ty) ->
  (if fmt =? 565 then bpp = 2 \/ bpp = 3 \/ bpp = 4 else bpp = 4) /\
  0 <= ty <= 255.
Proof.
  unfold bytes_per_pixel, select_format. intros Hb Hs.
  assert (Hbpp : bpp = 2 \/ bpp = 3 \/ bpp = 4).
  { destruct (Z.shiftr bpp_bits 3 =? 2) eqn:E2;
      [apply Z.eqb_eq in E2; simpl in Hb; injection Hb as <-; lia|].
    destruct (Z.shiftr bpp_bits 3 =? 3) eqn:E3;
      [apply Z.eqb_eq in E3; simpl in Hb; injection Hb as <-; lia|].
    destruct (Z.shiftr bpp_bits 3 =? 4) eqn:E4;
      [apply Z.eqb_eq in E4; simpl in Hb; injection Hb as <-; lia|].
    discriminate. }
  destruct (endswith file_name "8888").
  { destruct (bpp =? 4) eqn:E; simpl in Hs; [|discriminate].
    apply Z.eqb_eq in E. injection Hs as <- <-. simpl. lia. }
  destruct (endswith file_name "1555" && (bpp =? 4)) eqn:E1.
  { apply andb_true_iff in E1 as [_ E%Z.eqb_eq].
    injection Hs as <- <-. simpl. lia. }
  destruct (endswith file_name "565" || ((bpp =? 2) || (bpp =? 3))).
  { injection Hs as <- <-. simpl. lia. }
  destruct (bpp =? 4) eqn:E; simpl in Hs; [|discriminate].
  apply Z.eqb_eq in E. injection Hs as <- <-. simpl. lia.
Qed.

Lemma land_sign_clear (h : Z) :
  0 <= h < 2147483648 -> Z.land h 2147483648 = 0.
Proof.
  intros Hh. apply Z.bits_inj'. intros n Hn.
  rewrite Z.land_spec, Z.bits_0.
  change 2147483648 with (2 ^ 31) in *.
  rewrite Z.pow2_bits_eqb by lia.
  destruct (Z.eqb_spec 31 n) as [<-|]; [|apply andb_false_r].
  rewrite (proj1 (Z.bounded_iff_bits_nonneg 31 h ltac:(lia) ltac:(lia)));
    [reflexivity|lia|lia].
Qed.

(** A bottom-up BMP that holds all its rows is transcoded, and the blob
    is the header and [bmp_h] rows of [bmp_w] pixels. *)
Lemma bmp_2_rgb_total (base_name : string) (in_data : list byte)
      (data_start_addr bmp_w bmp_h bpp_bits bpp rgb_format img_type : Z) :
  54 <= len in_data ->
  slice in_data 0 2 = bmp_magic ->
  unpack_I_le (slice in_data 10 14) = Some data_start_addr ->
  unpack_I_le (slice in_data 18 22) = Some bmp_w ->
  unpack_I_le (slice in_data 22 26) = Some bmp_h ->
  unpack_H_le (slice in_data 28 30) = Some bpp_bits ->
  bytes_per_pixel bpp_bits = Some bpp ->
  select_format (stem base_name) bpp = Some (rgb_format, img_type) ->
  0 <= data_start_addr -> 0 <= bmp_w -> 0 <= bmp_h < 2147483648 ->
  data_start_addr + bmp_h * ((bmp_w * bpp + 3) / 4 * 4) <= len in_data ->
  exists blob,
    bmp_2_rgb base_name in_data = Some blob /\
    len blob = 16 + bmp_h * (bmp_w * out_bytes_per_pixel rgb_format).
Proof.
  intros Hlen Hmagic Hstart Hw Hh Hbits Hbpp Hsel H0s H0w H0h Hrows.
  destruct (select_format_depth _ _ _ _ _ Hbpp Hsel) as [Hdepth Hty].
  unfold bmp_2_rgb.
  assert ((len in_data <? 54) = false) as -> by (apply Z.ltb_ge; lia).
  rewrite Hmagic, bool_decide_eq_true_2 by reflexivity.
  cbn [orb negb].
  rewrite Hstart, Hw, Hh, Hbits. cbn [mbind option_bind].
  rewrite Hbpp. cbn [mbind option_bind]. rewrite Hsel. cbn [mbind option_bind].
  rewrite land_sign_clear by lia. cbn [Z.eqb negb mbind option_bind].
  assert ((bmp_h <? 0) = false) as -> by (apply Z.ltb_ge; lia).
  cbn [y_range].
  set (row_stride := (bmp_w * bpp + 3) / 4 * 4) in *.
  assert (Hstride : bmp_w * bpp <= row_stride).
  { unfold row_stride. Z.div_mod_to_equations. lia. }
  assert (Hbpp0 : 0 <= bpp).
  { destruct (rgb_format =? 565); lia. }
  destruct (mapM_cells
              (fun y => pack_row rgb_format bpp bmp_w
                          (slice in_data (data_start_addr + y * row_stride)
                                 (data_start_addr + y * row_stride + row_stride)))
              (reverse (range bmp_h))
              (Z.to_nat (bmp_w * out_bytes_per_pixel rgb_format)))
    as (rows & Hrows_eq & Hrows_len).
  { intros y Hy. rewrite elem_of_reverse in Hy. apply elem_of_range in Hy.
    destruct (pack_row_total rgb_format bpp bmp_w
                (slice in_data (data_start_addr + y * row_stride)
                       (data_start_addr + y * row_stride + row_stride)))
      as (out & Hout & Hlo); [lia|exact Hdepth| |].
    - rewrite len_slice; nia.
    - exists out. split; [exact Hout|]. unfold len in Hlo. lia. }
  rewrite Hrows_eq. cbn [mbind option_bind].
  rewrite chunk_header_total by exact Hty. cbn [mbind option_bind].
  eexists. split; [reflexivity|].
  rewrite len_app. unfold len at 1. rewrite length_fmap.
  unfold len. rewrite Hrows_len, length_reverse, length_range.
  assert (0 <= out_bytes_per_pixel rgb_format).
  { unfold out_bytes_per_pixel.
    repeat match goal with |- context [if ?c then _ else _] => destruct c end;
      lia. }
  unfold header_fields. simpl length. nia.
Qed.

Lemma big_rows_transcoded (rest : list byte) :
  len rest = 25178112 ->
  exists blob,
    bmp_2_rgb "big.png.bmp" (bmp_header 4096 2049 24 ++ rest) = Some blob /\
    len blob - 16 = 16785408 /\
    16777215 < len blob - 16 /\
    payload_len_field blob = Some 8192.
Proof.
  intros Hrest.
  assert (Hlen : len (bmp_header 4096 2049 24 ++ rest) = 54 + 25178112).
  { rewrite len_app, Hrest. reflexivity. }
  destruct (bmp_2_rgb_total "big.png.bmp" (bmp_header 4096 2049 24 ++ rest)
                            54 4096 2049 24 3 565 73)
    as (blob & Hblob & Hl).
  - rewrite Hlen. lia.
  - reflexivity.
  - reflexivity.
  - reflexivity.
  - reflexivity.
  - reflexivity.
  - reflexivity.
  - reflexivity.
  - lia.
  - lia.
  - lia.
  - rewrite Hlen. reflexivity.
  - exists blob. split; [exact Hblob|].
    pose proof (bmp_2_rgb_payload_len _ _ _ Hblob) as [_ Hf].
    change (out_bytes_per_pixel 565) with 2 in Hl.
    rewrite Hf. replace (len blob - 16) with 16785408 by lia.
    repeat split; lia || reflexivity.
Qed.

(** C9, refuted as stated.  A 4096 x 2049 image of 24 bits per pixel gives
    a payload of 16785408 bytes, more than 2^24 - 1; [bmp_2_rgb] writes the
    blob all the same, with 8192 in the 24-bit length field. *)
Lemma oversize_payload_written :
  exists blob,
    bmp_2_rgb "big.png.bmp" big_bmp = Some blob /\
    len blob - 16 = 16785408 /\
    16777215 < len blob - 16 /\
    payload_len_field blob = Some 8192.
Proof.
  apply big_rows_transcoded.
  unfold len. rewrite length_replicate. apply Z2Nat.id. lia.
Qed.

End TranscoderFacts.

(** ** Chunk compressor *)

Module CompressorFacts.

Import Compressor.

Lemma split16 (blob : list byte) :
  16 <= len blob ->
  exists b0 b1 b2 b3 b4 b5 b6 b7 b8 b9 b10 b11 b12 b13 b14 b15 rest,
    blob = b0 :: b1 :: b2 :: b3 :: b4 :: b5 :: b6 :: b7 :: b8 :: b9 :: b10
              :: b11 :: b12 :: b13 :: b14 :: b15 :: rest.
Proof.
  unfold len. intros H.
  do 16 (destruct blob as [|? blob]; [simpl in H; lia|]).
  eauto 20.
Qed.

Section WithLz4.

Variable lz4_block_compress :
  list byte -> lz4_mode -> Z -> bool -> option (list byte).

Local Abbreviation compress_chunk := (compress_chunk lz4_block_compress).

Lemma short_blob_skipped (blob : list byte) :
  len blob < 16 -> compress_chunk blob = Skipped.
Proof.
  intros H. unfold Compressor.compress_chunk.
  apply Z.ltb_lt in H. rewrite H. reflexivity.
Qed.

Lemma flagged_blob_skipped (blob : list byte) :
  byte_at blob 1 = Some 1 -> compress_chunk blob = Skipped.
Proof.
  intros H. unfold Compressor.compress_chunk.
  destruct (len blob <? 16) eqn:E; [reflexivity|].
  apply Z.ltb_ge in E.
  destruct (split16 blob E)
    as (b0&b1&b2&b3&b4&b5&b6&b7&b8&b9&b10&b11&b12&b13&b14&b15&rest&->).
  unfold byte_at in *. simpl in *. injection H as ->. reflexivity.
Qed.

(** What the loop body does with a blob that is not skipped. *)
Lemma compress_chunk_raw (blob : list byte) (declared : Z) :
  16 <= len blob ->
  byte_at blob 1 <> Some 1 ->
  declared_len blob = Some declared ->
  let payload := drop 16 blob in
  let repair := (declared <=? 0) || (len payload <? declared) in
  let payload_len := if repair then len payload else declared in
  let header :=
    take 1 blob ++ [z2b 1]
      ++ (if repair
          then [z2b (Z.land payload_len 255);
                z2b (Z.land (Z.shiftr payload_len 8) 255);
                z2b (Z.land (Z.shiftr payload_len 16) 255)]
          else slice blob 2 5)
      ++ slice blob 5 16 in
  compress_chunk blob =
    match lz4_block_compress (take (Z.to_nat payload_len) payload)
                             ModeHighCompression 12 false with
    | Some comp => Written (header ++ comp)
    | None => Failed
    end.
Proof.
  intros Hlen Hflag Hdecl. unfold Compressor.compress_chunk.
  assert ((len blob <? 16) = false) as -> by (apply Z.ltb_ge; lia).
  destruct (split16 blob Hlen)
    as (b0&b1&b2&b3&b4&b5&b6&b7&b8&b9&b10&b11&b12&b13&b14&b15&rest&->).
  unfold declared_len, byte_at, slice in *. simpl in *.
  rewrite ?drop_0.
  destruct (b2z b1 =? 1) eqn:E1.
  { apply Z.eqb_eq in E1. rewrite E1 in Hflag. congruence. }
  injection Hdecl as <-.
  set (declared := Z.lor (Z.lor (b2z b2) (Z.shiftl (b2z b3) 8))
                         (Z.shiftl (b2z b4) 16)).
  destruct ((declared <=? 0) || (len rest <? declared)); simpl;
    destruct (lz4_block_compress _ _ _ _); reflexivity.
Qed.

(** C6, as the code has it.  A blob shorter than a header, or whose
    header byte 1 is 1, is skipped: nothing is written for it.  For any
    other blob the declared 24-bit length is replaced by the payload
    length when it is zero or larger than the payload, and the low 24 bits
    of that length go back into header bytes 2..4; the output is the
    16-byte header with byte 1 set to 1, bytes 0 and 5..15 as they were and
    bytes 2..4 untouched unless repaired, followed by the LZ4 block
    compression (high compression, level 12, no stored size) of the first
    [payload_len] bytes of the payload. *)
Theorem compress_chunk_outcome (blob : list byte) :
  (len blob < 16 \/ byte_at blob 1 = Some 1 -> compress_chunk blob = Skipped)
  /\
  (forall declared,
      16 <= len blob ->
      byte_at blob 1 <> Some 1 ->
      declared_len blob = Some declared ->
      let payload := drop 16 blob in
      let repair := (declared <=? 0) || (len payload <? declared) in
      let payload_len := if repair then len payload else declared in
      match lz4_block_compress (take (Z.to_nat payload_len) payload)
                               ModeHighCompression 12 false with
      | None => compress_chunk blob = Failed
      | Some comp =>
          exists header,
            compress_chunk blob = Written (header ++ comp) /\
            len header = 16 /\
            header !! 0%nat = blob !! 0%nat /\
            byte_at header 1 = Some 1 /\
            (if repair
             then declared_len header = Some (len payload mod 16777216)
             else slice header 2 5 = slice blob 2 5) /\
            slice header 5 16 = slice blob 5 16
      end).
Proof.
  split.
  - intros [H|H]; [apply short_blob_skipped | apply flagged_blob_skipped];
      exact H.
  - intros declared Hlen Hflag Hdecl payload repair payload_len.
    pose proof (compress_chunk_raw blob declared Hlen Hflag Hdecl) as Heq.
    cbv zeta in Heq. fold payload repair payload_len in Heq.
    destruct (lz4_block_compress _ _ _ _) as [comp|]; [|exact Heq].
    eexists. split; [exact Heq|].
    destruct (split16 blob Hlen)
      as (b0&b1&b2&b3&b4&b5&b6&b7&b8&b9&b10&b11&b12&b13&b14&b15&rest&->).
    destruct repair; repeat split; try reflexivity.
    unfold declared_len, byte_at. simpl.
    pose proof (fun a => land_bound a 255 8 ltac:(lia) ltac:(lia)) as Hm.
    change (2 ^ 8) with 256 in Hm.
    rewrite !b2z_z2b_small by apply Hm.
    f_equal. apply le24_masks.
Qed.

(** C10.  A raw chunk whose declared length is positive and smaller than
    the payload is not repaired: header bytes 2..15 are copied as they
    are, only the first [payload_len] bytes of the payload are given to the
    compressor, and the bytes after them, of which there is at least one,
    appear nowhere in the output. *)
Theorem short_declared_len_drops_tail (blob : list byte) (payload_len : Z) :
  16 <= len blob ->
  byte_at blob 1 <> Some 1 ->
  declared_len blob = Some payload_len ->
  0 < payload_len < len (drop 16 blob) ->
  compress_chunk blob =
    match lz4_block_compress (take (Z.to_nat payload_len) (drop 16 blob))
                             ModeHighCompression 12 false with
    | Some comp =>
        Written (take 1 blob ++ [z2b 1] ++ slice blob 2 16 ++ comp)
    | None => Failed
    end
  /\ drop (Z.to_nat payload_len) (drop 16 blob) <> [].
Proof.
  intros Hlen Hflag Hdecl Hshort.
  pose proof (compress_chunk_raw blob payload_len Hlen Hflag Hdecl) as Heq.
  cbv zeta in Heq.
  assert ((payload_len <=? 0) || (len (drop 16 blob) <? payload_len) = false)
    as Hr.
  { apply orb_false_iff. split; [apply Z.leb_gt | apply Z.ltb_ge]; lia. }
  rewrite Hr in Heq. split.
  - rewrite Heq. destruct (lz4_block_compress _ _ _ _); [|reflexivity].
    f_equal.
    destruct (split16 blob Hlen)
      as (b0&b1&b2&b3&b4&b5&b6&b7&b8&b9&b10&b11&b12&b13&b14&b15&rest&->).
    reflexivity.
  - intros Hnil. apply (f_equal length) in Hnil.
    rewrite length_drop in Hnil. unfold len in Hshort. simpl in Hnil. lia.
Qed.

End WithLz4.

Lemma compress_chunk_outcome_witness :
  exists header,
    Compressor.compress_chunk lz4_store raw_chunk
      = Written (header ++ (z2b <$> [10; 20])) /\
    len header = 16 /\
    header !! 0%nat = raw_chunk !! 0%nat /\
    byte_at header 1 = Some 1 /\
    slice header 2 5 = slice raw_chunk 2 5 /\
    slice header 5 16 = slice raw_chunk 5 16.
Proof.
  destruct (compress_chunk_outcome lz4_store raw_chunk) as [_ H].
  apply (H 2).
  - unfold len. simpl. lia.
  - discriminate.
  - reflexivity.
Defined.

(** C6, refuted as stated.  A chunk whose header byte 1 is 1 does not pass
    through: the loop goes on to the next file and no [.COMP] is written,
    so the list [image_pre_build] takes from the [.COMP] files has no entry
    for it. *)
Lemma flagged_chunk_not_passed_through :
  Compressor.compress_chunk lz4_store flagged_chunk = Skipped /\
  Compressor.compress_chunk lz4_store flagged_chunk <> Written flagged_chunk /\
  compress_rgb lz4_store [("a.png.bmp.RGB"%string, flagged_chunk)] = [].
Proof. split; [reflexivity|]. split; [discriminate | reflexivity]. Qed.

Lemma short_declared_len_drops_tail_witness :
  Compressor.compress_chunk lz4_store raw_chunk
    = Written (z2b <$> [73; 1; 2; 0; 0; 1; 16; 0; 0; 0; 0; 0; 0; 0; 0; 0;
                        10; 20])
  /\ drop 2 (drop 16 raw_chunk) <> [].
Proof.
  apply (short_declared_len_drops_tail lz4_store raw_chunk 2).
  - unfold len. simpl. lia.
  - discriminate.
  - reflexivity.
  - unfold len. simpl. lia.
Defined.

End CompressorFacts.


(** ** Layout validator *)

Module ValidatorFacts.

Import Validator.

Lemma records_refl (st : vstate) : records st st [].
Proof. split; [symmetry; apply app_nil_r | unfold len; simpl; lia]. Qed.

Lemma records_trans (st1 st2 st3 : vstate) (ms ms' : list log_entry) :
  records st1 st2 ms -> records st2 st3 ms' -> records st1 st3 (ms ++ ms').
Proof.
  intros [H1 H2] [H3 H4]. split.
  - rewrite H3, H1. symmetry. apply app_assoc.
  - rewrite H4, H2, len_app. lia.
Qed.

Lemma check_ref_records (my_list : list string) (st : vstate) (s : string) :
  records st (check_ref my_list st (lower s)) (spec_missing my_list s).
Proof.
  unfold check_ref, spec_missing.
  destruct (bool_decide (lower s ∈ my_list)); simpl.
  - destruct (negb (bool_decide (lower s ∈ config_img_list st))); simpl;
      apply records_refl || (split; simpl; [symmetry; apply app_nil_r|]);
      unfold len; simpl; lia.
  - split; simpl; [reflexivity | unfold len; simpl; lia].
Qed.

Lemma check_img_records (my_list : list string) (item : layer) (st : vstate)
      (idx : Z) (img : jval) :
  tuple_shaped img = true ->
  exists st', check_img my_list item st idx img = Some st' /\
              records st st' (spec_img_mismatch my_list item idx img).
Proof.
  intros Hshape. destruct img as [n|s|l]; simpl.
  - eexists. split; [reflexivity | apply records_refl].
  - destruct ((drawType item =? 55) && (idx =? 2)).
    + eexists. split; [reflexivity | apply records_refl].
    + eexists. split; [reflexivity | apply check_ref_records].
  - destruct l as [|[a| |] [|[b| |] [|[|s|] [|]]]]; try discriminate.
    simpl. eexists. split; [reflexivity | apply check_ref_records].
Qed.

Lemma check_imgs_records (my_list : list string) (item : layer)
      (imgs : list (Z * jval)) (st : vstate) :
  Forall (fun p => tuple_shaped p.2 = true) imgs ->
  exists st', check_imgs my_list item st imgs = Some st' /\
              records st st'
                (concat ((fun p => spec_img_mismatch my_list item p.1 p.2)
                           <$> imgs)).
Proof.
  intros Himgs. revert st.
  induction Himgs as [|[idx img] imgs Hp _ IH]; intros st; simpl.
  - eexists. split; [reflexivity | apply records_refl].
  - destruct (check_img_records my_list item st idx img Hp) as (st1 & -> & H1).
    simpl. destruct (IH st1) as (st2 & -> & H2).
    eexists. split; [reflexivity|]. eapply records_trans; eassumption.
Qed.

Lemma enumerate_shaped (imgs : list jval) :
  forallb tuple_shaped imgs = true ->
  Forall (fun p : Z * jval => tuple_shaped p.2 = true) (enumerate imgs).
Proof.
  intros H. rewrite forallb_forall in H.
  apply Forall_forall. intros [idx img] Hin.
  apply elem_of_zip_r in Hin. apply H, list_elem_of_In. exact Hin.
Qed.

Lemma check_item_records (my_list : list string) (item : layer) (st : vstate) :
  layer_shaped item = true ->
  exists st', check_item my_list st item = Some st' /\
              records st st' (spec_layer_mismatches my_list item).
Proof.
  unfold layer_shaped, check_item, spec_layer_mismatches.
  intros [Himgs Hname]%andb_true_iff.
  destruct (len (imgArr item) =? num item) eqn:E; simpl.
  - destruct (check_imgs_records my_list item (enumerate (imgArr item)) st
                (enumerate_shaped _ Himgs)) as (st' & -> & H).
    eexists. split; [reflexivity | exact H].
  - apply bool_decide_eq_true in Hname. destruct Hname as [nm Hnm].
    rewrite Hnm. simpl.
    match goal with
    | |- context [check_imgs _ _ ?s _] =>
        destruct (check_imgs_records my_list item (enumerate (imgArr item)) s
                    (enumerate_shaped _ Himgs)) as (st' & -> & H)
    end.
    eexists. split; [reflexivity|].
    refine (records_trans _ _ _ [CountMismatch (layer_label item)] _ _ H).
    unfold layer_label. rewrite Hnm.
    split; simpl; [destruct nm; reflexivity | unfold len; simpl; lia].
Qed.

Lemma check_items_records (my_list : list string) (config : list layer)
      (st : vstate) :
  Forall (fun item => layer_shaped item = true) config ->
  exists st', check_items my_list st config = Some st' /\
              records st st' (spec_mismatches my_list config).
Proof.
  intros Hc. revert st.
  induction Hc as [|item config Hi _ IH]; intros st; simpl.
  - eexists. split; [reflexivity | apply records_refl].
  - destruct (check_item_records my_list item st Hi) as (st1 & -> & H1).
    simpl. destruct (IH st1) as (st2 & -> & H2).
    eexists. split; [reflexivity|].
    unfold spec_mismatches. simpl. eapply records_trans; eassumption.
Qed.



(** ** C7 *)




End ValidatorFacts.


(** ** Assembler and layer serializer *)

Module PackerFacts.

Import Validator Packer.

(** [be32] is the big-endian encoding of an unsigned 32-bit value. *)
Lemma be32_decodes (v : Z) :
  0 <= v <= 4294967295 -> le_uint (reverse (be32 v)) = v.
Proof.
  intros Hv. unfold be32, le_uint. simpl. rewrite !b2z_z2b.
  Z.div_mod_to_equations. lia.
Qed.

Lemma pack_I_be_Some (v : Z) (out : list byte) :
  pack_I_be v = Some out -> 0 <= v <= 4294967295 /\ out = be32 v.
Proof.
  unfold pack_I_be.
  destruct (0 <=? v) eqn:E1; destruct (v <=? 4294967295) eqn:E2; simpl;
    try discriminate.
  intros [= <-]. apply Z.leb_le in E1, E2. auto.
Qed.

(** *** The clock id *)

Lemma prefix_table_values (clock_size : string) (prefix : Z) :
  g_clock_id_prefix_dict !! clock_size = Some prefix ->
  prefix ∈ [983040; 917504; 851968; 786432; 720896; 655360; 589824;
            524288; 458752].
Proof.
  unfold g_clock_id_prefix_dict. intros H.
  apply elem_of_list_to_map_2 in H.
  repeat (apply elem_of_cons in H as [[= _ <-]|H]; [set_solver|]).
  apply elem_of_nil in H. contradiction.
Qed.

Lemma land_low_high (a b k : Z) :
  0 <= k -> 0 <= a < 2 ^ k -> Z.land a (b * 2 ^ k) = 0.
Proof.
  intros Hk Ha. apply Z.bits_inj'. intros n Hn.
  rewrite Z.land_spec, Z.bits_0.
  destruct (Z.lt_ge_cases n k).
  - rewrite Z.mul_pow2_bits_low by lia. apply andb_false_r.
  - rewrite (proj1 (Z.bounded_iff_bits_nonneg k a Hk (proj1 Ha))) by lia.
    reflexivity.
Qed.

(** The low half of the clock id is the base, the high half the prefix. *)
Lemma clock_id_halves (clock_id_base : Z) (clock_size : string) (prefix : Z) :
  g_clock_id_prefix_dict !! clock_size = Some prefix ->
  0 <= clock_id_base <= 65535 ->
  Z.land (Z.lor clock_id_base prefix) 65535 = clock_id_base /\
  Z.land (Z.lor clock_id_base prefix) 4294901760 = prefix /\
  0 <= Z.lor clock_id_base prefix <= 4294967295.
Proof.
  intros Hp Hb. apply prefix_table_values in Hp.
  assert (Hlow : Z.land clock_id_base 65535 = clock_id_base).
  { change 65535 with (Z.ones 16). rewrite Z.land_ones by lia.
    apply Z.mod_small. change (2 ^ 16) with 65536. lia. }
  assert (Hhigh : Z.land clock_id_base 4294901760 = 0).
  { change 4294901760 with (65535 * 2 ^ 16). apply land_low_high; [lia|].
    change (2 ^ 16) with 65536. lia. }
  rewrite !Z.land_lor_distr_l, Hlow, Hhigh.
  assert (Hor : 0 <= Z.lor clock_id_base prefix < 2 ^ 32).
  { apply lor_bound; [lia| |].
    - change (2 ^ 32) with 4294967296. lia.
    - change (2 ^ 32) with 4294967296.
      repeat (apply elem_of_cons in Hp as [->|Hp]; [lia|]).
      apply elem_of_nil in Hp. contradiction. }
  change (2 ^ 32) with 4294967296 in Hor.
  repeat (apply elem_of_cons in Hp as [->|Hp];
          [rewrite Z.lor_0_r; repeat split; try reflexivity; lia|]).
  apply elem_of_nil in Hp. contradiction.
Qed.

(** *** The regions and the chunk table *)

Lemma slice_app_l {A} (l k : list A) (lo hi : Z) :
  hi <= len l -> slice (l ++ k) lo hi = slice l lo hi.
Proof.
  unfold slice, len. intros H. rewrite take_app_le by lia. reflexivity.
Qed.

Lemma slice_app_r {A} (l k : list A) :
  slice (l ++ k) (len l) (len l + len k) = k.
Proof.
  unfold slice, len. rewrite <- Nat2Z.inj_add, !Nat2Z.id, <- length_app.
  rewrite firstn_all. apply drop_app_length.
Qed.

Lemma initial_regions_consistent
      (thumbnail_path_override : option (option (list byte))) (r : regions) :
  initial_regions thumbnail_path_override = Some r -> consistent [] r.
Proof.
  unfold initial_regions.
  destruct thumbnail_path_override as [[d|]|]; simpl; try discriminate;
    intros [= <-]; (split; [reflexivity|]); (split; [reflexivity|]);
    (split; [reflexivity|]); simpl; intros img off size Hl;
    rewrite lookup_empty in Hl; discriminate.
Qed.

Lemma add_file_consistent (o : bool) (done : list prepared_file)
      (r r' : regions) (f : prepared_file) :
  consistent done r -> add_file o r f = Some r' -> consistent (done ++ [f]) r'.
Proof.
  intros (Ht & Hm & Hz & Hobjs). unfold add_file.
  destruct (file_chunk f) as [[file_name in_data]|] eqn:Hf; simpl;
    [|discriminate].
  assert (Hold : forall img off size,
             img_objs r !! img = Some (off, size) ->
             exists f0 d,
               f0 ∈ done ++ [f] /\ file_chunk f0 = Some (img, d) /\
               0 <= off /\ size = len d /\
               off + size <= len (if startswith img "z_"
                                  then clock_z_img_data r
                                  else clock_img_data r) /\
               slice (if startswith img "z_" then clock_z_img_data r
                      else clock_img_data r) off (off + size) = d).
  { intros img off size Hl.
    destruct (Hobjs img off size Hl)
      as (f0 & d & Hin & Hc & H0 & Hs & Hle & Hsl).
    exists f0, d. repeat split; try assumption.
    apply elem_of_app. left. exact Hin. }
  destruct (negb o && contains "thumbnail" file_name).
  { intros [= <-]. split; [reflexivity|]. split; [exact Hm|].
    split; [exact Hz|]. exact Hold. }
  destruct (startswith file_name "z_") eqn:Ez; intros [= <-];
    (split; [exact Ht|]); simpl; rewrite ?len_app;
    (split; [lia|]); (split; [lia|]);
    intros img off size; rewrite lookup_insert;
    (case_decide as Hk;
     [ subst img; intros [= <- <-]; exists f, in_data; rewrite Ez;
       repeat split;
       [ apply elem_of_app; right; apply list_elem_of_singleton; reflexivity
       | exact Hf
       | rewrite ?Hm, ?Hz; apply len_nonneg
       | rewrite ?Hm, ?Hz, len_app; lia
       | rewrite ?Hm, ?Hz; apply slice_app_r ]
     | ]);
    intros Hl;
    destruct (Hold img off size Hl) as (f0 & d & ? & ? & ? & ? & Hle & Hsl);
    exists f0, d; repeat split; try assumption;
    destruct (startswith img "z_"); try assumption;
    first [ rewrite len_app; pose proof (len_nonneg in_data); lia
          | rewrite slice_app_l by exact Hle; exact Hsl ].
Qed.

Lemma add_files_consistent (o : bool) (file_list done : list prepared_file)
      (r r' : regions) :
  consistent done r -> add_files o r file_list = Some r' ->
  consistent (done ++ file_list) r'.
Proof.
  revert done r. induction file_list as [|f file_list IH]; intros done r Hr;
    simpl.
  - intros [= <-]. rewrite app_nil_r. exact Hr.
  - destruct (add_file o r f) as [r1|] eqn:E; simpl; [|discriminate].
    intros Hrest. rewrite cons_middle, app_assoc.
    eapply IH; [|exact Hrest]. eapply add_file_consistent; eassumption.
Qed.

(** *** A pack that ends well *)

Lemma gen_clock_res_Some
      (src : source) (file_list : list prepared_file)
      (clock_id_base : Z) (clock_size : string) (idle_magic : bool)
      (thumbnail_path_override : option (option (list byte)))
      (clock_id : Z) (out : list byte) :
  gen_clock_res src file_list clock_id_base clock_size idle_magic
                thumbnail_path_override = Some (clock_id, out) ->
  exists file_names layer_list prefix r0 r clock_layer_data,
    src = Source file_names layer_list /\
    g_clock_id_prefix_dict !! clock_size = Some prefix /\
    clock_id = Z.lor clock_id_base prefix /\
    initial_regions thumbnail_path_override = Some r0 /\
    add_files (bool_decide (is_Some thumbnail_path_override)) r0 file_list
      = Some r /\
    pack_layers (32 + clock_thumb_length r + clock_img_length r)
                (img_objs r) layer_list = Some clock_layer_data /\
    write_res idle_magic clock_id r clock_layer_data = Some out.
Proof.
  unfold gen_clock_res.
  destruct (check_clock src) as [v|]; simpl; [|discriminate].
  destruct (negb (returned v)); [discriminate|].
  destruct (g_clock_id_prefix_dict !! clock_size) as [prefix|] eqn:Hp; simpl;
    [|discriminate].
  destruct (initial_regions thumbnail_path_override) as [r0|] eqn:Hr0; simpl;
    [|discriminate].
  destruct (add_files _ r0 file_list) as [r|] eqn:Hr; simpl; [|discriminate].
  destruct src as [| | |file_names layer_list]; try discriminate.
  destruct (pack_layers _ _ layer_list) as [data|] eqn:Hl; simpl;
    [|discriminate].
  destruct (write_res _ _ _ _) as [o|] eqn:Hw; simpl; [|discriminate].
  intros [= <- <-].
  exists file_names, layer_list, prefix, r0, r, data.
  repeat split; try reflexivity; assumption.
Qed.

Lemma write_res_Some (is_idle : bool) (clock_id : Z) (r : regions)
      (clock_layer_data out : list byte) :
  write_res is_idle clock_id r clock_layer_data = Some out ->
  0 <= clock_id <= 4294967295 /\
  0 <= clock_thumb_length r <= 4294967295 /\
  0 <= 32 + clock_thumb_length r <= 4294967295 /\
  0 <= clock_img_length r <= 4294967295 /\
  0 <= 32 + clock_thumb_length r + clock_img_length r + clock_z_img_length r
    <= 4294967295 /\
  out = bytes_of_string (crc_str is_idle)
        ++ be32 clock_id ++ be32 32 ++ be32 (clock_thumb_length r)
        ++ be32 (32 + clock_thumb_length r) ++ be32 (clock_img_length r)
        ++ be32 (32 + clock_thumb_length r + clock_img_length r
                 + clock_z_img_length r)
        ++ clock_thumb_data r ++ clock_img_data r ++ clock_z_img_data r
        ++ clock_layer_data.
Proof.
  unfold write_res, clock_thumb_start_addr.
  destruct (pack_I_be clock_id) as [h1|] eqn:E1; simpl; [|discriminate].
  destruct (pack_I_be (clock_thumb_length r)) as [h3|] eqn:E3; simpl;
    [|discriminate].
  destruct (pack_I_be (32 + clock_thumb_length r)) as [h4|] eqn:E4; simpl;
    [|discriminate].
  destruct (pack_I_be (clock_img_length r)) as [h5|] eqn:E5; simpl;
    [|discriminate].
  destruct (pack_I_be (32 + clock_thumb_length r + clock_img_length r
                       + clock_z_img_length r)) as [h6|] eqn:E6; simpl;
    [|discriminate].
  intros [= <-].
  apply pack_I_be_Some in E1 as [? ->], E3 as [? ->], E4 as [? ->],
        E5 as [? ->], E6 as [? ->].
  repeat split; first [lia | reflexivity].
Qed.

(** ** C1 *)

(** C1.  The layout of the file.  A pack that ends well writes the 8
    bytes of the magic string ([II@*24dG] with the idle option, [Sb@*O2GG]
    without), then six big-endian u32 fields: the clock id, which is the
    base id OR'ed with the prefix the table has for the resolution; 32; the
    thumbnail length; 32 plus the thumbnail length; the main length; and
    the sum of the last two and the Z length.  Then come the thumbnail
    bytes, the main region, the Z region and the layer block, which is
    what the serializer gives for the layers of the descriptor, one record
    after the other, with the chunk table of the regions and the start of
    the Z region.  For a base id in 50000..65535, which is what the caller
    is to give, the low 16 bits of the clock id are the base id and its
    high 16 bits are the prefix. *)
Theorem res_blob_layout
        (src : source) (file_list : list prepared_file)
        (clock_id_base : Z) (clock_size : string) (idle_magic : bool)
        (thumbnail_path_override : option (option (list byte)))
        (clock_id : Z) (out : list byte) :
  gen_clock_res src file_list clock_id_base clock_size idle_magic
                thumbnail_path_override = Some (clock_id, out) ->
  exists file_names layer_list prefix r layer_records,
    src = Source file_names layer_list /\
    g_clock_id_prefix_dict !! clock_size = Some prefix /\
    clock_id = Z.lor clock_id_base prefix /\
    (initial_regions thumbnail_path_override
       ≫= fun r0 => add_files (bool_decide (is_Some thumbnail_path_override))
                              r0 file_list) = Some r /\
    let thumb_length := len (clock_thumb_data r) in
    let main_start := 32 + thumb_length in
    let main_length := len (clock_img_data r) in
    let z_length := len (clock_z_img_data r) in
    let layer_block_start := main_start + main_length + z_length in
    Forall2 (fun l record =>
               pack_layer (main_start + main_length) (img_objs r) l
               = Some record) layer_list layer_records /\
    out = bytes_of_string (if idle_magic then "II@*24dG" else "Sb@*O2GG")
          ++ be32 clock_id ++ be32 32 ++ be32 thumb_length
          ++ be32 main_start ++ be32 main_length ++ be32 layer_block_start
          ++ clock_thumb_data r ++ clock_img_data r ++ clock_z_img_data r
          ++ concat layer_records /\
    Forall (fun v => 0 <= v <= 4294967295)
           [clock_id; thumb_length; main_start; main_length;
            layer_block_start] /\
    (50000 <= clock_id_base <= 65535 ->
     Z.land clock_id 4294901760 = prefix /\
     Z.land clock_id 65535 = clock_id_base /\
     50000 <= Z.land clock_id 65535 <= 65535).
Proof.
  intros Hpack.
  apply gen_clock_res_Some in Hpack
    as (names & layers & prefix & r0 & r & data & -> & Hp & -> & Hr0 & Hr
        & Hl & Hw).
  pose proof (add_files_consistent _ _ _ _ _
                (initial_regions_consistent _ _ Hr0) Hr) as (Ht & Hm & Hz & _).
  apply write_res_Some in Hw as (H1 & H2 & H3 & H4 & H5 & ->).
  unfold pack_layers in Hl. apply fmap_Some in Hl as (records & Hrec & ->).
  apply mapM_Some_1 in Hrec.
  exists names, layers, prefix, r, records.
  split; [reflexivity|]. split; [exact Hp|]. split; [reflexivity|].
  split; [rewrite Hr0; exact Hr|].
  cbv zeta. rewrite <- Ht, <- Hm, <- Hz.
  split; [exact Hrec|].
  split; [destruct idle_magic; reflexivity|].
  split; [repeat constructor; lia|].
  intros Hbase.
  destruct (clock_id_halves clock_id_base clock_size prefix Hp ltac:(lia))
    as (Hlow & Hhigh & _).
  rewrite Hlow. repeat split; try assumption; lia.
Qed.

Lemma res_blob_layout_witness :
  exists prefix r layer_records,
    g_clock_id_prefix_dict !! "360_360"%string = Some prefix /\
    (initial_regions None ≫= fun r0 => add_files false r0 face_files)
      = Some r /\
    Forall2 (fun l record =>
               pack_layer (32 + len (clock_thumb_data r)
                           + len (clock_img_data r)) (img_objs r) l
               = Some record) face_config layer_records /\
    z2b <$> [83; 98; 64; 42; 79; 50; 71; 71; 0; 7; 195; 81; 0; 0; 0; 32; 0; 0;
             0; 0; 0; 0; 0; 32; 0; 0; 0; 37; 0; 0; 0; 89; 9; 0; 3; 0; 0; 104;
             129; 22; 0; 0; 0; 0; 0; 0; 0; 0; 1; 2; 3; 9; 0; 2; 0; 0; 104;
             129; 22; 0; 0; 0; 0; 0; 0; 0; 0; 4; 5; 9; 0; 4; 0; 0; 104; 129;
             22; 0; 0; 0; 0; 0; 0; 0; 0; 6; 7; 8; 9; 0; 0; 0; 0; 0; 0; 0; 0;
             0; 0; 0; 0; 0; 0; 0; 0; 0; 0; 0; 0; 0; 0; 0; 1; 0; 0; 0; 0; 0; 0;
             0; 19; 0; 0; 0; 1; 0; 0; 0; 0; 0; 0; 0; 0; 0; 0; 0; 0; 0; 0; 0;
             0; 0; 0; 0; 2; 0; 0; 0; 19; 0; 0; 0; 18; 0; 0; 0; 69; 0; 0; 0;
             20]
    = bytes_of_string "Sb@*O2GG"
      ++ be32 508753 ++ be32 32 ++ be32 (len (clock_thumb_data r))
      ++ be32 (32 + len (clock_thumb_data r)) ++ be32 (len (clock_img_data r))
      ++ be32 (32 + len (clock_thumb_data r) + len (clock_img_data r)
               + len (clock_z_img_data r))
      ++ clock_thumb_data r ++ clock_img_data r ++ clock_z_img_data r
      ++ concat layer_records /\
    Z.land 508753 4294901760 = prefix /\
    Z.land 508753 65535 = 50001 /\
    50000 <= Z.land 508753 65535 <= 65535.
Proof.
  destruct (res_blob_layout face_src face_files 50001 "360_360" false None
              508753
              (z2b <$> [83; 98; 64; 42; 79; 50; 71; 71; 0; 7; 195; 81; 0; 0;
                        0; 32; 0; 0; 0; 0; 0; 0; 0; 32; 0; 0; 0; 37; 0; 0; 0;
                        89; 9; 0; 3; 0; 0; 104; 129; 22; 0; 0; 0; 0; 0; 0; 0;
                        0; 1; 2; 3; 9; 0; 2; 0; 0; 104; 129; 22; 0; 0; 0; 0;
                        0; 0; 0; 0; 4; 5; 9; 0; 4; 0; 0; 104; 129; 22; 0; 0;
                        0; 0; 0; 0; 0; 0; 6; 7; 8; 9; 0; 0; 0; 0; 0; 0; 0; 0;
                        0; 0; 0; 0; 0; 0; 0; 0; 0; 0; 0; 0; 0; 0; 0; 1; 0; 0;
                        0; 0; 0; 0; 0; 19; 0; 0; 0; 1; 0; 0; 0; 0; 0; 0; 0; 0;
                        0; 0; 0; 0; 0; 0; 0; 0; 0; 0; 0; 2; 0; 0; 0; 19; 0; 0;
                        0; 18; 0; 0; 0; 69; 0; 0; 0; 20]))
    as (names & layers & prefix & r & records & Hsrc & Hp & _ & Hr & Hrest).
  - vm_compute. reflexivity.
  - cbv zeta in Hrest. destruct Hrest as (Hrec & Hout & _ & Hhalves).
    injection Hsrc as _ <-.
    exists prefix, r, records.
    split; [exact Hp|]. split; [exact Hr|]. split; [exact Hrec|].
    split; [exact Hout|].
    apply Hhalves. lia.
Defined.

(** What [cli_main] adds: a base id outside 50000..65535 never reaches the
    packer. *)
Lemma cli_pack_Some
      (src : source) (file_list : list prepared_file)
      (clock_id_base : Z) (clock_size : string) (idle_magic : bool)
      (thumbnail_path_override : option (option (list byte)))
      (res : Z * list byte) :
  cli_pack src file_list clock_id_base clock_size idle_magic
           thumbnail_path_override = Some res ->
  50000 <= clock_id_base <= 65535 /\
  gen_clock_res src file_list clock_id_base clock_size idle_magic
                thumbnail_path_override = Some res.
Proof.
  unfold cli_pack.
  destruct (50000 <=? clock_id_base) eqn:E1;
    destruct (clock_id_base <=? 65535) eqn:E2; simpl; try discriminate.
  apply Z.leb_le in E1, E2. intros ->. split; [lia | reflexivity].
Qed.

(** ** C2 *)


Lemma face_regions_built :
  (initial_regions None ≫= fun r0 => add_files false r0 face_files)
  = Some face_regions.
Proof. vm_compute. reflexivity. Qed.



(** ** C8 *)

Lemma pack_30s_length (bs : list byte) : length (pack_30s bs) = 30%nat.
Proof.
  unfold pack_30s. rewrite length_app, length_take, length_replicate. lia.
Qed.

Lemma pack_30s_lookup (bs : list byte) (i : nat) :
  (i < 30)%nat -> pack_30s bs !! i = Some (default Byte.x00 (bs !! i)).
Proof.
  intros Hi. unfold pack_30s.
  destruct (decide (i < length bs)%nat) as [Hlt|Hge].
  - rewrite lookup_app_l by (rewrite length_take; lia).
    rewrite lookup_take_lt by lia.
    destruct (lookup_lt_is_Some_2 bs i Hlt) as [b ->]. reflexivity.
  - rewrite lookup_app_r by (rewrite length_take; lia).
    rewrite (lookup_ge_None_2 bs i) by lia. simpl.
    apply lookup_replicate_2. rewrite length_take. lia.
Qed.

(** C8.  The text slot.  In a layer of [drawType] 55 the string at index 2
    is written as 30 bytes and nothing else: byte [i] is byte [i] of the
    UTF-8 string where it has one and zero where it has none, whatever the
    chunk table holds; [HELLO] gives its five bytes and 25 zero bytes. *)
Theorem text_slot_is_30_bytes
        (clock_z_img_start : Z) (objs : gmap string (Z * Z)) (l : layer)
        (s : string) :
  drawType l = 55 ->
  exists out,
    pack_img clock_z_img_start objs l 2 (JStr s) = Some out /\
    length out = 30%nat /\
    (forall i, (i < 30)%nat ->
               out !! i = Some (default Byte.x00 (bytes_of_string s !! i))) /\
    (s = "HELLO"%string ->
     out = bytes_of_string "HELLO" ++ replicate 25 Byte.x00).
Proof.
  intros Hd. exists (pack_30s (bytes_of_string s)).
  split; [|split; [|split]].
  - unfold pack_img. rewrite Hd. reflexivity.
  - apply pack_30s_length.
  - apply pack_30s_lookup.
  - intros ->. reflexivity.
Qed.

Lemma text_slot_is_30_bytes_witness :
  exists out,
    pack_img 69 (img_objs face_regions)
             (plain_layer 55 0 3 [JStr "bg.jpg"; JInt 10; JStr "HELLO"]) 2
             (JStr "HELLO") = Some out /\
    length out = 30%nat /\
    (forall i, (i < 30)%nat ->
               out !! i
               = Some (default Byte.x00 (bytes_of_string "HELLO" !! i))) /\
    ("HELLO"%string = "HELLO"%string ->
     out = bytes_of_string "HELLO" ++ replicate 25 Byte.x00).
Proof.
  apply (text_slot_is_30_bytes 69 (img_objs face_regions)
           (plain_layer 55 0 3 [JStr "bg.jpg"; JInt 10; JStr "HELLO"])
           "HELLO").
  reflexivity.
Defined.

(** ** C3 *)

(** A name the chunk table does not hold, spelled as it is in
    [config.json], ends the pack ([KeyError]). *)
Lemma image_ref_unknown (clock_z_img_start : Z) (objs : gmap string (Z * Z))
      (img : string) :
  objs !! img = None -> image_ref clock_z_img_start objs img = None.
Proof.
  intros H. unfold image_ref. rewrite H.
  destruct (startswith img "z_"); reflexivity.
Qed.

(** C3, on the code.  The letter case matters in the pack.  With
    [bg.jpg] on disk and [BG.jpg] in [config.json] the validator is
    content, the chunk table has no entry for [BG.jpg] and the pack ends
    without a file, where the same watch face spelled alike is packed; and
    a file named [Thumbnail.jpg] is not taken as the thumbnail but put in
    the main region, where [thumbnail.jpg] is the thumbnail and stays out
    of the main region. *)
Theorem letter_case_matters_in_pack :
  returned <$> check_clock face_src_upper = Some true /\
  img_objs face_regions !! "BG.jpg"%string = None /\
  img_objs face_regions !! "bg.jpg"%string = Some (0, 19) /\
  gen_clock_res face_src_upper face_files 50001 "360_360" false None = None /\
  is_Some (gen_clock_res face_src face_files 50001 "360_360" false None) /\
  (fun r => (len (clock_thumb_data r), len (clock_img_data r)))
    <$> (initial_regions None
           ≫= fun r0 => add_files false r0 thumb_files_upper)
  = Some (0, 37) /\
  (fun r => (len (clock_thumb_data r), len (clock_img_data r)))
    <$> (initial_regions None
           ≫= fun r0 => add_files false r0 thumb_files_lower)
  = Some (18, 19).
Proof.
  split; [vm_compute; reflexivity|].
  split; [vm_compute; reflexivity|].
  split; [vm_compute; reflexivity|].
  split; [vm_compute; reflexivity|].
  split; [vm_compute; eauto|].
  split; vm_compute; reflexivity.
Qed.

End PackerFacts.


(* ===================================================================== *)
(** * Further properties *)
(* ===================================================================== *)

(** ** More on the pixel transcoder *)

Module TranscoderMore.

Import Bmp TranscoderFacts.

(** The cell of pixel [x] in a row built by a loop over [range(bmp_w)]
    whose turns all append [n] bytes. *)
Lemma mapM_range_cell (f : Z -> option (list byte)) (w : Z) (n : nat)
      (cells : list (list byte)) (x : Z) :
  mapM f (range w) = Some cells ->
  (forall x c, f x = Some c -> length c = n) ->
  0 <= x < w ->
  exists c, f x = Some c /\
            slice (concat cells) (Z.of_nat n * x) (Z.of_nat n * x + Z.of_nat n)
            = c.
Proof.
  intros Hm Hn Hx. apply mapM_Some_1 in Hm.
  destruct (Forall2_lookup_l _ _ _ (Z.to_nat x) x Hm (lookup_range _ _ Hx))
    as (c & Hc & Hfx).
  exists c. split; [exact Hfx|].
  assert (Hall : Forall (fun c : list byte => length c = n) cells).
  { apply Forall_forall. intros c' Hc'.
    apply list_elem_of_lookup in Hc' as [i Hi].
    destruct (Forall2_lookup_r _ _ _ i c' Hm Hi) as (x' & _ & Hx').
    exact (Hn _ _ Hx'). }
  rewrite slice_as_take by lia.
  replace (Z.to_nat (Z.of_nat n * x)) with (Z.to_nat x * n)%nat by lia.
  rewrite Nat2Z.id. exact (take_drop_concat n cells _ _ Hall Hc).
Qed.

Lemma pixel_1555_Some (row_bytes : list byte) (x : Z) (c : list byte) :
  pixel_1555 row_bytes x = Some c ->
  exists b g r a,
    byte_at row_bytes (x * 4) = Some b /\
    byte_at row_bytes (x * 4 + 1) = Some g /\
    byte_at row_bytes (x * 4 + 2) = Some r /\
    byte_at row_bytes (x * 4 + 3) = Some a /\
    c = [z2b (rgb1555 r g b a); z2b (rgb1555 r g b a / 256)].
Proof.
  unfold pixel_1555. rewrite Z.add_0_r.
  destruct (byte_at row_bytes (x * 4)) as [b|]; simpl; [|discriminate].
  destruct (byte_at row_bytes (x * 4 + 1)) as [g|]; simpl; [|discriminate].
  destruct (byte_at row_bytes (x * 4 + 2)) as [r|]; simpl; [|discriminate].
  destruct (byte_at row_bytes (x * 4 + 3)) as [a|]; simpl; [|discriminate].
  intros H. apply pack_H_le_Some in H as [_ ->]. eauto 10.
Qed.

Lemma pixel_8565_Some (row_bytes : list byte) (x : Z) (c : list byte) :
  pixel_8565 row_bytes x = Some c ->
  exists b g r a,
    byte_at row_bytes (x * 4) = Some b /\
    byte_at row_bytes (x * 4 + 1) = Some g /\
    byte_at row_bytes (x * 4 + 2) = Some r /\
    byte_at row_bytes (x * 4 + 3) = Some a /\
    c = [z2b (rgb565 r g b); z2b (rgb565 r g b / 256); z2b a].
Proof.
  unfold pixel_8565. rewrite Z.add_0_r.
  destruct (byte_at row_bytes (x * 4)) as [b|]; simpl; [|discriminate].
  destruct (byte_at row_bytes (x * 4 + 1)) as [g|]; simpl; [|discriminate].
  destruct (byte_at row_bytes (x * 4 + 2)) as [r|]; simpl; [|discriminate].
  destruct (byte_at row_bytes (x * 4 + 3)) as [a|]; simpl; [|discriminate].
  destruct (pack_H_le (rgb565 r g b)) as [h|] eqn:Hh; simpl; [|discriminate].
  destruct (pack_B a) as [t|] eqn:Ht; simpl; [|discriminate].
  intros [= <-]. apply pack_H_le_Some in Hh as [_ ->].
  apply pack_B_Some in Ht as [_ ->]. eauto 10.
Qed.

(** The colour bits of an ARGB1555 value stay below bit 15. *)
Lemma rgb1555_colour_bound (r g b : Z) :
  0 <= Z.lor (Z.lor (Z.shiftl (Z.land r 248) 7) (Z.shiftl (Z.land g 248) 2))
             (Z.shiftr (Z.land b 248) 3) < 2 ^ 15.
Proof.
  pose proof (land_bound r 248 8 ltac:(lia) ltac:(lia)) as Hr.
  pose proof (land_bound g 248 8 ltac:(lia) ltac:(lia)) as Hg.
  pose proof (land_bound b 248 8 ltac:(lia) ltac:(lia)) as Hb.
  rewrite !Z.shiftl_mul_pow2, Z.shiftr_div_pow2 by lia.
  change (2 ^ 8) with 256 in *. change (2 ^ 7) with 128.
  change (2 ^ 2) with 4. change (2 ^ 3) with 8.
  apply lor_bound; [lia| |].
  - apply lor_bound; change (2 ^ 15) with 32768; lia.
  - change (2 ^ 15) with 32768. Z.div_mod_to_equations. lia.
Qed.

(** ARGB1555 rows.  A row of four bytes per pixel is packed, and for every
    pixel [x] the two bytes emitted at [2x] are the little-endian u16 whose
    low 15 bits are [((R & 0xF8) << 7) | ((G & 0xF8) << 2) | ((B & 0xF8) >> 3)]
    and whose bit 15 is set exactly when the alpha byte is 255; [B], [G],
    [R], [A] are the row bytes at [4x .. 4x+3]. *)
Theorem argb1555_row_transcoding (bmp_w : Z) (row_bytes : list byte) :
  (4 * bmp_w <= len row_bytes -> is_Some (pack_row 1555 4 bmp_w row_bytes)) /\
  (forall out x,
      pack_row 1555 4 bmp_w row_bytes = Some out -> 0 <= x < bmp_w ->
      exists b g r a v,
        byte_at row_bytes (x * 4) = Some b /\
        byte_at row_bytes (x * 4 + 1) = Some g /\
        byte_at row_bytes (x * 4 + 2) = Some r /\
        byte_at row_bytes (x * 4 + 3) = Some a /\
        unpack_H_le (slice out (2 * x) (2 * x + 2)) = Some v /\
        Z.land v 32767 =
          Z.lor (Z.lor (Z.shiftl (Z.land r 248) 7)
                       (Z.shiftl (Z.land g 248) 2))
                (Z.shiftr (Z.land b 248) 3) /\
        Z.testbit v 15 = (a =? 255)).
Proof.
  split.
  - intros Hlen. unfold pack_row. simpl.
    apply fmap_is_Some, mapM_is_Some, Forall_forall.
    intros x Hx%elem_of_range.
    destruct (pixel_1555_cell row_bytes x) as (c & Hc & _); [lia..|].
    exists c. exact Hc.
  - intros out x Hout Hx. unfold pack_row in Hout. simpl in Hout.
    destruct (mapM (pixel_1555 row_bytes) (range bmp_w)) as [cells|] eqn:Hm;
      simpl in Hout; [|discriminate].
    injection Hout as <-.
    destruct (mapM_range_cell _ _ 2 _ x Hm) as (c & Hc & Hsl); [|lia|].
    { intros x' c' H'.
      apply pixel_1555_Some in H' as (? & ? & ? & ? & _ & _ & _ & _ & ->).
      reflexivity. }
    apply pixel_1555_Some in Hc as (b & g & r & a & Hb & Hg & Hr & Ha & ->).
    exists b, g, r, a, (rgb1555 r g b a).
    repeat (split; [assumption|]).
    change (Z.of_nat 2) with 2 in Hsl. rewrite Hsl.
    split; [|split].
    + unfold unpack_H_le. simpl. f_equal.
      apply le_uint_pair, rgb1555_bound.
    + pose proof (rgb1555_colour_bound r g b) as Hc.
      unfold rgb1555. change 32767 with (Z.ones 15).
      destruct (a =? 255).
      * rewrite Z.land_lor_distr_l.
        change (Z.land 32768 (Z.ones 15)) with 0. rewrite Z.lor_0_r.
        rewrite Z.land_ones by lia. apply Z.mod_small. exact Hc.
      * rewrite Z.land_ones by lia. apply Z.mod_small. exact Hc.
    + pose proof (rgb1555_colour_bound r g b) as Hc.
      assert (Hlow : Z.testbit
                (Z.lor (Z.lor (Z.shiftl (Z.land r 248) 7)
                              (Z.shiftl (Z.land g 248) 2))
                       (Z.shiftr (Z.land b 248) 3)) 15 = false).
      { apply (proj1 (Z.bounded_iff_bits_nonneg 15 _ ltac:(lia) (proj1 Hc)));
          [exact (proj2 Hc) | lia]. }
      unfold rgb1555. destruct (a =? 255).
      * rewrite Z.lor_spec, Hlow. reflexivity.
      * exact Hlow.
Qed.

(** ARGB8565 rows.  A row of four bytes per pixel is packed, and for every
    pixel [x] three bytes are emitted at [3x]: the little-endian u16
    [((R & 0xF8) << 8) | ((G & 0xFC) << 3) | ((B & 0xF8) >> 3)] and then the
    alpha byte as it is. *)
Theorem argb8565_row_transcoding (bmp_w : Z) (row_bytes : list byte) :
  (4 * bmp_w <= len row_bytes -> is_Some (pack_row 8565 4 bmp_w row_bytes)) /\
  (forall out x,
      pack_row 8565 4 bmp_w row_bytes = Some out -> 0 <= x < bmp_w ->
      exists b g r a,
        byte_at row_bytes (x * 4) = Some b /\
        byte_at row_bytes (x * 4 + 1) = Some g /\
        byte_at row_bytes (x * 4 + 2) = Some r /\
        byte_at row_bytes (x * 4 + 3) = Some a /\
        unpack_H_le (slice out (3 * x) (3 * x + 2)) =
          Some (Z.lor (Z.lor (Z.shiftl (Z.land r 248) 8)
                             (Z.shiftl (Z.land g 252) 3))
                      (Z.shiftr (Z.land b 248) 3)) /\
        byte_at out (3 * x + 2) = Some a).
Proof.
  split.
  - intros Hlen. unfold pack_row. simpl.
    apply fmap_is_Some, mapM_is_Some, Forall_forall.
    intros x Hx%elem_of_range.
    destruct (pixel_8565_cell row_bytes x) as (c & Hc & _); [lia..|].
    exists c. exact Hc.
  - intros out x Hout Hx. unfold pack_row in Hout. simpl in Hout.
    destruct (mapM (pixel_8565 row_bytes) (range bmp_w)) as [cells|] eqn:Hm;
      simpl in Hout; [|discriminate].
    injection Hout as <-.
    destruct (mapM_range_cell _ _ 3 _ x Hm) as (c & Hc & Hsl); [|lia|].
    { intros x' c' H'.
      apply pixel_8565_Some in H' as (? & ? & ? & ? & _ & _ & _ & _ & ->).
      reflexivity. }
    apply pixel_8565_Some in Hc as (b & g & r & a & Hb & Hg & Hr & Ha & ->).
    exists b, g, r, a. repeat (split; [assumption|]).
    change (Z.of_nat 3) with 3 in Hsl.
    rewrite slice_as_take in Hsl by lia.
    set (tail := drop (Z.to_nat (3 * x)) (concat cells)) in *.
    destruct tail as [|c0 [|c1 [|c2 tail']]] eqn:Et; try discriminate.
    simpl in Hsl. injection Hsl as -> -> ->.
    split.
    + rewrite (slice_as_take _ (3 * x) 2) by lia. fold tail. rewrite Et.
      unfold unpack_H_le. simpl. f_equal. apply le_uint_pair, rgb565_bound.
    + unfold byte_at.
      assert ((3 * x + 2 <? 0) = false) as -> by (apply Z.ltb_ge; lia).
      replace (Z.to_nat (3 * x + 2)) with (Z.to_nat (3 * x) + 2)%nat by lia.
      rewrite <- lookup_drop. fold tail. rewrite Et. simpl.
      f_equal. apply b2z_z2b_small. apply (byte_at_range _ _ _ Ha).
Qed.

(** *** The whole blob *)

Lemma unpack_I_le_range (bs : list byte) (v : Z) :
  unpack_I_le bs = Some v -> 0 <= v <= 4294967295.
Proof.
  unfold unpack_I_le.
  destruct (len bs =? 4) eqn:E; [|discriminate].
  intros [= <-]. apply Z.eqb_eq in E. unfold len in E.
  destruct bs as [|a [|b [|c [|d [|e bs]]]]]; simpl in E; try lia.
  unfold le_uint. simpl.
  pose proof (b2z_range a). pose proof (b2z_range b).
  pose proof (b2z_range c). pose proof (b2z_range d). lia.
Qed.

Lemma land_sign_set (h : Z) :
  2147483648 <= h <= 4294967295 -> Z.land h 2147483648 <> 0.
Proof.
  intros Hh Hz.
  assert (Ht : Z.testbit (Z.land h 2147483648) 31 = true).
  { rewrite Z.land_spec. change 2147483648 with (2 ^ 31).
    rewrite Z.pow2_bits_true by lia. rewrite andb_true_r.
    apply Z.testbit_true; [lia|]. change (2 ^ 31) with 2147483648.
    Z.div_mod_to_equations. lia. }
  rewrite Hz, Z.bits_0 in Ht. discriminate.
Qed.

(** What [bmp_2_rgb] writes, in terms of the fields of the BMP header. *)
Lemma bmp_2_rgb_inv (base_name : string) (in_data blob : list byte)
      (data_start_addr bmp_w bmp_h0 bpp_bits bpp rgb_format img_type : Z) :
  unpack_I_le (slice in_data 10 14) = Some data_start_addr ->
  unpack_I_le (slice in_data 18 22) = Some bmp_w ->
  unpack_I_le (slice in_data 22 26) = Some bmp_h0 ->
  unpack_H_le (slice in_data 28 30) = Some bpp_bits ->
  bytes_per_pixel bpp_bits = Some bpp ->
  select_format (stem base_name) bpp = Some (rgb_format, img_type) ->
  bmp_2_rgb base_name in_data = Some blob ->
  let top_down := 2147483648 <=? bmp_h0 in
  let bmp_h := if top_down then 4294967296 - bmp_h0 else bmp_h0 in
  let row_stride := (bmp_w * bpp + 3) / 4 * 4 in
  exists rows,
    mapM (fun y => pack_row rgb_format bpp bmp_w
                     (slice in_data (data_start_addr + y * row_stride)
                            (data_start_addr + y * row_stride + row_stride)))
         (y_range top_down bmp_h) = Some rows /\
    blob = (z2b <$> header_fields img_type (len (concat rows)) bmp_h bmp_w)
             ++ concat rows.
Proof.
  intros Hstart Hw Hh Hbits Hbpp Hsel. unfold bmp_2_rgb.
  destruct (_ || _); [discriminate|].
  rewrite Hstart, Hw, Hh, Hbits. cbn [mbind option_bind].
  rewrite Hbpp. cbn [mbind option_bind]. rewrite Hsel. cbn [mbind option_bind].
  pose proof (unpack_I_le_range _ _ Hh) as Hr.
  cbv zeta.
  destruct (2147483648 <=? bmp_h0) eqn:Etd.
  - apply Z.leb_le in Etd.
    destruct (Z.eqb_spec (Z.land bmp_h0 2147483648) 0) as [Hz|_];
      [exfalso; revert Hz; apply land_sign_set; lia|].
    cbn [negb]. unfold unpack_i_le. rewrite Hh. cbn [mbind option_bind].
    assert ((2147483648 <=? bmp_h0) = true) as -> by (apply Z.leb_le; lia).
    cbn [mbind option_bind].
    assert ((bmp_h0 - 4294967296 <? 0) = true) as ->
        by (apply Z.ltb_lt; lia).
    replace (- (bmp_h0 - 4294967296)) with (4294967296 - bmp_h0) by lia.
    destruct (mapM _ _) as [rows|]; cbn [mbind option_bind]; [|discriminate].
    destruct (chunk_header _ _ _ _) as [hdr|] eqn:Hhdr;
      cbn [mbind option_bind]; [|discriminate].
    intros [= <-]. apply chunk_header_Some in Hhdr as ->.
    exists rows. split; reflexivity.
  - apply Z.leb_gt in Etd.
    rewrite land_sign_clear by lia. cbn [Z.eqb negb mbind option_bind].
    assert ((bmp_h0 <? 0) = false) as -> by (apply Z.ltb_ge; lia).
    destruct (mapM _ _) as [rows|]; cbn [mbind option_bind]; [|discriminate].
    destruct (chunk_header _ _ _ _) as [hdr|] eqn:Hhdr;
      cbn [mbind option_bind]; [|discriminate].
    intros [= <-]. apply chunk_header_Some in Hhdr as ->.
    exists rows. split; reflexivity.
Qed.

Lemma lookup_y_range (top_down : bool) (bmp_h k : Z) :
  0 <= k < bmp_h ->
  y_range top_down bmp_h !! Z.to_nat k
  = Some (if top_down then k else bmp_h - 1 - k).
Proof.
  intros Hk. unfold y_range. destruct top_down.
  - apply lookup_range. exact Hk.
  - rewrite reverse_lookup by (rewrite length_range; lia).
    rewrite length_range.
    replace (Z.to_nat bmp_h - S (Z.to_nat k))%nat
      with (Z.to_nat (bmp_h - 1 - k)) by lia.
    apply lookup_range. lia.
Qed.

Lemma length_y_range (top_down : bool) (bmp_h : Z) :
  length (y_range top_down bmp_h) = Z.to_nat bmp_h.
Proof.
  unfold y_range. destruct top_down; rewrite ?length_reverse;
    apply length_range.
Qed.

(** Rows come out top-down.  Whatever the direction of the BMP, the payload
    of a blob that is written is the concatenation of [bmp_h] packed rows,
    and row [k] of the payload is the packed row of the file that holds
    line [k] of the picture from the top: row [k] of a top-down file
    (negative height), row [bmp_h - 1 - k] of a bottom-up one. *)
Theorem rows_emitted_top_down
        (base_name : string) (in_data blob : list byte)
        (data_start_addr bmp_w bmp_h0 bpp_bits bpp rgb_format img_type k : Z) :
  unpack_I_le (slice in_data 10 14) = Some data_start_addr ->
  unpack_I_le (slice in_data 18 22) = Some bmp_w ->
  unpack_I_le (slice in_data 22 26) = Some bmp_h0 ->
  unpack_H_le (slice in_data 28 30) = Some bpp_bits ->
  bytes_per_pixel bpp_bits = Some bpp ->
  select_format (stem base_name) bpp = Some (rgb_format, img_type) ->
  bmp_2_rgb base_name in_data = Some blob ->
  let top_down := 2147483648 <=? bmp_h0 in
  let bmp_h := if top_down then 4294967296 - bmp_h0 else bmp_h0 in
  let row_stride := (bmp_w * bpp + 3) / 4 * 4 in
  let file_row := if top_down then k else bmp_h - 1 - k in
  let off := data_start_addr + file_row * row_stride in
  0 <= k < bmp_h ->
  exists rows out,
    drop 16 blob = concat rows /\
    len rows = bmp_h /\
    rows !! Z.to_nat k = Some out /\
    pack_row rgb_format bpp bmp_w (slice in_data off (off + row_stride))
      = Some out.
Proof.
  intros Hstart Hw Hh Hbits Hbpp Hsel Hblob top_down bmp_h row_stride
         file_row off Hk.
  destruct (bmp_2_rgb_inv _ _ _ _ _ _ _ _ _ _ Hstart Hw Hh Hbits Hbpp Hsel
                          Hblob) as (rows & Hrows & ->).
  fold top_down bmp_h row_stride in Hrows.
  apply mapM_Some_1 in Hrows.
  destruct (Forall2_lookup_l _ _ _ (Z.to_nat k) _ Hrows
              (lookup_y_range top_down bmp_h k Hk)) as (out & Hout & Hrow).
  exists rows, out. split; [reflexivity|]. split.
  - unfold len. rewrite <- (Forall2_length _ _ _ Hrows), length_y_range. lia.
  - split; [exact Hout | exact Hrow].
Qed.

(** A BMP that holds all its rows is transcoded, in either direction, and
    the blob is 16 bytes and [bmp_h] rows of [bmp_w] pixels of the target
    format. *)
Theorem complete_bmp_is_transcoded
        (base_name : string) (in_data : list byte)
        (data_start_addr bmp_w bmp_h0 bpp_bits bpp rgb_format img_type : Z) :
  54 <= len in_data ->
  slice in_data 0 2 = bmp_magic ->
  unpack_I_le (slice in_data 10 14) = Some data_start_addr ->
  unpack_I_le (slice in_data 18 22) = Some bmp_w ->
  unpack_I_le (slice in_data 22 26) = Some bmp_h0 ->
  unpack_H_le (slice in_data 28 30) = Some bpp_bits ->
  bytes_per_pixel bpp_bits = Some bpp ->
  select_format (stem base_name) bpp = Some (rgb_format, img_type) ->
  let bmp_h :=
    if 2147483648 <=? bmp_h0 then 4294967296 - bmp_h0 else bmp_h0 in
  data_start_addr + bmp_h * ((bmp_w * bpp + 3) / 4 * 4) <= len in_data ->
  exists blob,
    bmp_2_rgb base_name in_data = Some blob /\
    len blob = 16 + bmp_h * (bmp_w * out_bytes_per_pixel rgb_format).
Proof.
  intros Hlen Hmagic Hstart Hw Hh Hbits Hbpp Hsel bmp_h Hrows.
  destruct (select_format_depth _ _ _ _ _ Hbpp Hsel) as [Hdepth Hty].
  pose proof (unpack_I_le_range _ _ Hstart) as H0s.
  pose proof (unpack_I_le_range _ _ Hw) as H0w.
  pose proof (unpack_I_le_range _ _ Hh) as H0h.
  set (top_down := 2147483648 <=? bmp_h0) in *.
  set (row_stride := (bmp_w * bpp + 3) / 4 * 4) in *.
  assert (Hh0 : 0 <= bmp_h).
  { unfold bmp_h, top_down. destruct (Z.leb_spec 2147483648 bmp_h0); lia. }
  assert (Hstride : bmp_w * bpp <= row_stride).
  { unfold row_stride. Z.div_mod_to_equations. lia. }
  assert (Hbpp0 : 0 <= bpp).
  { destruct (rgb_format =? 565); lia. }
  destruct (mapM_cells
              (fun y => pack_row rgb_format bpp bmp_w
                          (slice in_data (data_start_addr + y * row_stride)
                                 (data_start_addr + y * row_stride + row_stride)))
              (y_range top_down bmp_h)
              (Z.to_nat (bmp_w * out_bytes_per_pixel rgb_format)))
    as (rows & Hrows_eq & Hrows_len).
  { intros y Hy.
    assert (0 <= y < bmp_h) as Hy'.
    { unfold y_range in Hy. destruct top_down;
        [|rewrite elem_of_reverse in Hy]; apply elem_of_range in Hy; exact Hy. }
    destruct (pack_row_total rgb_format bpp bmp_w
                (slice in_data (data_start_addr + y * row_stride)
                       (data_start_addr + y * row_stride + row_stride)))
      as (out & Hout & Hlo); [lia|exact Hdepth| |].
    - rewrite len_slice; nia.
    - exists out. split; [exact Hout|]. unfold len in Hlo. lia. }
  unfold bmp_2_rgb.
  assert ((len in_data <? 54) = false) as -> by (apply Z.ltb_ge; lia).
  rewrite Hmagic, bool_decide_eq_true_2 by reflexivity.
  cbn [orb negb].
  rewrite Hstart, Hw, Hh, Hbits. cbn [mbind option_bind].
  rewrite Hbpp. cbn [mbind option_bind]. rewrite Hsel. cbn [mbind option_bind].
  cbv zeta. fold row_stride.
  assert (Hend : forall hdr_h,
             (header ← chunk_header img_type (len (concat rows)) hdr_h bmp_w;
              Some (header ++ concat rows))
             = Some ((z2b <$> header_fields img_type (len (concat rows))
                                            hdr_h bmp_w) ++ concat rows)).
  { intros hdr_h. rewrite chunk_header_total by exact Hty. reflexivity. }
  assert (Hsize : forall hdr_h,
             len ((z2b <$> header_fields img_type (len (concat rows))
                                         hdr_h bmp_w) ++ concat rows)
             = 16 + bmp_h * (bmp_w * out_bytes_per_pixel rgb_format)).
  { intros hdr_h. rewrite len_app. unfold len at 1. rewrite length_fmap.
    unfold len. rewrite Hrows_len, length_y_range.
    assert (0 <= out_bytes_per_pixel rgb_format).
    { unfold out_bytes_per_pixel.
      repeat match goal with |- context [if ?c then _ else _] => destruct c end;
        lia. }
    unfold header_fields. simpl length. nia. }
  unfold top_down in *. destruct (Z.leb_spec 2147483648 bmp_h0) as [Etd|Etd].
  - destruct (Z.eqb_spec (Z.land bmp_h0 2147483648) 0) as [Hz|_];
      [exfalso; revert Hz; apply land_sign_set; lia|].
    cbn [negb]. unfold unpack_i_le. rewrite Hh. cbn [mbind option_bind].
    assert ((2147483648 <=? bmp_h0) = true) as -> by (apply Z.leb_le; lia).
    cbn [mbind option_bind].
    assert ((bmp_h0 - 4294967296 <? 0) = true) as ->
        by (apply Z.ltb_lt; lia).
    replace (- (bmp_h0 - 4294967296)) with bmp_h by (unfold bmp_h; lia).
    rewrite Hrows_eq. cbn [mbind option_bind]. rewrite Hend.
    eexists. split; [reflexivity | apply Hsize].
  - rewrite land_sign_clear by lia. cbn [Z.eqb negb mbind option_bind].
    assert ((bmp_h0 <? 0) = false) as -> by (apply Z.ltb_ge; lia).
    fold bmp_h. rewrite Hrows_eq. cbn [mbind option_bind]. rewrite Hend.
    eexists. split; [reflexivity | apply Hsize].
Qed.

(** *** The header of a chunk *)

Lemma mix_byte_value (height width : Z) :
  Z.lor (Z.land (Z.shiftr height 8) 15) (Z.shiftl (Z.land width 15) 4)
  = (height / 256) mod 16 + 16 * (width mod 16).
Proof.
  change 15 with (Z.ones 4).
  rewrite !Z.land_ones, Z.shiftr_div_pow2, Z.shiftl_mul_pow2 by lia.
  change (2 ^ 8) with 256. change (2 ^ 4) with 16.
  rewrite <- Z.add_nocarry_lor; [lia|].
  change (width mod 16 * 16) with (width mod 16 * 2 ^ 4).
  apply PackerFacts.land_low_high; [lia|].
  change (2 ^ 4) with 16. apply Z.mod_pos_bound. lia.
Qed.

(** Bytes 0, 1 and 5..15 of a header made from [header_fields]. *)
Lemma header_fields_decode (img_type size height width : Z)
      (out_payload : list byte) :
  0 <= img_type <= 255 ->
  let blob := (z2b <$> header_fields img_type size height width)
                ++ out_payload in
  byte_at blob 0 = Some img_type /\
  byte_at blob 1 = Some 0 /\
  Notions.height_field blob = Some (height mod 4096) /\
  Notions.width_field blob = Some (width mod 4096) /\
  slice blob 8 16 = replicate 8 Byte.x00.
Proof.
  intros Hty blob. unfold blob, header_fields.
  unfold Notions.height_field, Notions.width_field, byte_at. simpl.
  rewrite mix_byte_value.
  change 255 with (Z.ones 8). rewrite !Z.land_ones by lia.
  rewrite !Z.shiftr_div_pow2 by lia.
  change (2 ^ 8) with 256. change (2 ^ 4) with 16.
  assert (Hmix : 0 <= (height / 256) mod 16 + 16 * (width mod 16) < 256).
  { pose proof (Z.mod_pos_bound (height / 256) 16 ltac:(lia)).
    pose proof (Z.mod_pos_bound width 16 ltac:(lia)). lia. }
  rewrite (b2z_z2b_small img_type) by lia.
  rewrite (b2z_z2b_small (height mod 256))
    by (apply Z.mod_pos_bound; lia).
  rewrite (b2z_z2b_small _ Hmix).
  rewrite (b2z_z2b_small ((width / 16) mod 256))
    by (apply Z.mod_pos_bound; lia).
  split; [reflexivity|]. split; [reflexivity|].
  split; [|split; [|reflexivity]].
  - f_equal. change 15 with (Z.ones 4). rewrite Z.land_ones by lia.
    change (2 ^ 4) with 16. Z.div_mod_to_equations. lia.
  - f_equal. rewrite ?Z.shiftr_div_pow2 by lia. change (2 ^ 4) with 16.
    Z.div_mod_to_equations. lia.
Qed.

(** The header of a transcoded image.  Byte 0 of a blob [bmp_2_rgb]
    writes is one of 71, 72, 73, 74, byte 1 (the compressed flag) is 0,
    bytes 5..7 hold the height and the width of the picture modulo 4096
    (12 bits each), and bytes 8..15 are zero. *)
Theorem blob_header_describes_image
        (base_name : string) (in_data blob : list byte)
        (data_start_addr bmp_w bmp_h0 bpp_bits bpp rgb_format img_type : Z) :
  unpack_I_le (slice in_data 10 14) = Some data_start_addr ->
  unpack_I_le (slice in_data 18 22) = Some bmp_w ->
  unpack_I_le (slice in_data 22 26) = Some bmp_h0 ->
  unpack_H_le (slice in_data 28 30) = Some bpp_bits ->
  bytes_per_pixel bpp_bits = Some bpp ->
  select_format (stem base_name) bpp = Some (rgb_format, img_type) ->
  bmp_2_rgb base_name in_data = Some blob ->
  let bmp_h :=
    if 2147483648 <=? bmp_h0 then 4294967296 - bmp_h0 else bmp_h0 in
  byte_at blob 0 = Some img_type /\
  img_type ∈ [71; 72; 73; 74] /\
  byte_at blob 1 = Some 0 /\
  Notions.height_field blob = Some (bmp_h mod 4096) /\
  Notions.width_field blob = Some (bmp_w mod 4096) /\
  slice blob 8 16 = replicate 8 Byte.x00.
Proof.
  intros Hstart Hw Hh Hbits Hbpp Hsel Hblob bmp_h.
  destruct (bmp_2_rgb_inv _ _ _ _ _ _ _ _ _ _ Hstart Hw Hh Hbits Hbpp Hsel
                          Hblob) as (rows & _ & ->).
  destruct (select_format_depth _ _ _ _ _ Hbpp Hsel) as [_ Hty].
  destruct (header_fields_decode img_type (len (concat rows)) bmp_h bmp_w
              (concat rows) Hty) as (H0 & H1 & H5 & H6 & H8).
  repeat (split; [assumption|]).
  split; [|repeat (split; [assumption|]); assumption].
  clear - Hsel. unfold select_format in Hsel.
  repeat match type of Hsel with
         | (if ?c then _ else _) = _ => destruct c
         end; try discriminate; injection Hsel as _ <-; set_solver.
Qed.

(** Depths from 16 to 39 bits, and no other, get past the depth test. *)
Lemma bytes_per_pixel_is_Some (bpp_bits : Z) :
  is_Some (Bmp.bytes_per_pixel bpp_bits) <-> 16 <= bpp_bits < 40.
Proof.
  unfold Bmp.bytes_per_pixel.
  rewrite Z.shiftr_div_pow2 by lia. change (2 ^ 3) with 8.
  destruct (bpp_bits / 8 =? 2) eqn:E2; simpl.
  { apply Z.eqb_eq in E2. split; [intros _|eauto].
    Z.div_mod_to_equations. lia. }
  destruct (bpp_bits / 8 =? 3) eqn:E3; simpl.
  { apply Z.eqb_eq in E3. split; [intros _|eauto].
    Z.div_mod_to_equations. lia. }
  destruct (bpp_bits / 8 =? 4) eqn:E4; simpl.
  { apply Z.eqb_eq in E4. split; [intros _|eauto].
    Z.div_mod_to_equations. lia. }
  apply Z.eqb_neq in E2, E3, E4.
  split; [intros [? [=]]|]. intros H. exfalso.
  Z.div_mod_to_equations. lia.
Qed.

(** What [bmp_2_rgb] refuses.  No blob is written for a file shorter than
    the 54 bytes of the headers, for a file that does not start with [BM],
    or for a bit depth outside 16..39 (the depth is taken in whole bytes,
    and only 2, 3 or 4 bytes are known). *)
Theorem bmp_2_rgb_refusals (base_name : string) (in_data : list byte) :
  (len in_data < 54 \/ slice in_data 0 2 <> bmp_magic ->
   bmp_2_rgb base_name in_data = None) /\
  (forall bpp_bits,
      unpack_H_le (slice in_data 28 30) = Some bpp_bits ->
      ~ 16 <= bpp_bits < 40 ->
      bmp_2_rgb base_name in_data = None).
Proof.
  split.
  - intros H. unfold bmp_2_rgb.
    destruct H as [H|H].
    + apply Z.ltb_lt in H. rewrite H. reflexivity.
    + rewrite (bool_decide_eq_false_2 _ H), orb_true_r. reflexivity.
  - intros bpp_bits Hbits Hdepth.
    destruct (bmp_2_rgb base_name in_data) as [blob|] eqn:Hb; [|reflexivity].
    exfalso. apply Hdepth.
    apply bmp_2_rgb_shape in Hb
      as (bits & bpp & fmt & ty & h & w & pl & Hbits' & Hbpp & _).
    rewrite Hbits in Hbits'. injection Hbits' as <-.
    apply bytes_per_pixel_is_Some. eauto.
Qed.


End TranscoderMore.

(** ** More on the chunk compressor *)

Module CompressorMore.

Import Compressor CompressorFacts.

Section WithLz4.

Variable lz4_block_compress :
  list byte -> lz4_mode -> Z -> bool -> option (list byte).

Local Abbreviation compress_chunk := (compress_chunk lz4_block_compress).

Lemma compress_chunk_Written_inv (blob out : list byte) :
  compress_chunk blob = Written out ->
  16 <= len blob /\ byte_at blob 1 <> Some 1 /\
  exists declared, declared_len blob = Some declared.
Proof.
  intros H.
  destruct (Z.lt_ge_cases (len blob) 16) as [Hs|Hl].
  { rewrite short_blob_skipped in H by exact Hs. discriminate. }
  split; [exact Hl|]. split.
  - intros Hf. rewrite flagged_blob_skipped in H by exact Hf. discriminate.
  - destruct (split16 blob Hl)
      as (b0&b1&b2&b3&b4&b5&b6&b7&b8&b9&b10&b11&b12&b13&b14&b15&rest&->).
    eexists. reflexivity.
Qed.

(** A second pass leaves a compressed chunk alone.  What the compressor
    writes for a chunk has header byte 1 set, so the compressor, given its
    own output, skips it; the image type in byte 0 is carried over. *)
Theorem compressed_output_is_skipped (blob out : list byte) :
  compress_chunk blob = Written out ->
  compress_chunk out = Skipped /\
  byte_at out 1 = Some 1 /\
  byte_at out 0 = byte_at blob 0.
Proof.
  intros H.
  destruct (compress_chunk_Written_inv blob out H) as (Hl & Hf & d & Hd).
  pose proof (compress_chunk_raw lz4_block_compress blob d Hl Hf Hd) as Heq.
  cbv zeta in Heq. rewrite H in Heq.
  destruct (lz4_block_compress _ _ _ _) as [comp|]; [|discriminate].
  injection Heq as ->.
  destruct (split16 blob Hl)
    as (b0&b1&b2&b3&b4&b5&b6&b7&b8&b9&b10&b11&b12&b13&b14&b15&rest&->).
  assert (H1 : forall tl, byte_at (b0 :: z2b 1 :: tl) 1 = Some 1)
    by reflexivity.
  split; [apply flagged_blob_skipped|]; repeat split; apply H1 || reflexivity.
Qed.

(** The length field tells how much was compressed.  For a payload under
    2^24 bytes, the bytes after the header of the output are the LZ4 block
    of a prefix of the payload, and the 24-bit length of the output header
    is the length of that prefix: the whole payload when the declared
    length was zero or too large, the declared length otherwise. *)
Theorem declared_length_is_compressed_length
        (blob out : list byte) (declared : Z) :
  compress_chunk blob = Written out ->
  declared_len blob = Some declared ->
  len (drop 16 blob) < 16777216 ->
  let payload := drop 16 blob in
  let n := if (declared <=? 0) || (len payload <? declared)
           then len payload else declared in
  lz4_block_compress (take (Z.to_nat n) payload) ModeHighCompression 12 false
    = Some (drop 16 out) /\
  declared_len out = Some n /\
  len (take (Z.to_nat n) payload) = n.
Proof.
  intros H Hd Hsmall payload n.
  destruct (compress_chunk_Written_inv blob out H) as (Hl & Hf & _).
  pose proof (compress_chunk_raw lz4_block_compress blob declared Hl Hf Hd)
    as Heq.
  cbv zeta in Heq. fold payload n in Heq. rewrite H in Heq.
  destruct (lz4_block_compress _ _ _ _) as [comp|] eqn:Hc; [|discriminate].
  injection Heq as ->.
  destruct (split16 blob Hl)
    as (b0&b1&b2&b3&b4&b5&b6&b7&b8&b9&b10&b11&b12&b13&b14&b15&rest&->).
  change payload with rest in *. unfold n in *. clear n payload.
  pose proof (len_nonneg rest) as Hrest.
  change (len rest < 16777216) in Hsmall.
  destruct ((declared <=? 0) || (len rest <? declared)) eqn:Er.
  - split; [reflexivity|]. split.
    + unfold declared_len, byte_at. simpl.
      pose proof (fun a => land_bound a 255 8 ltac:(lia) ltac:(lia)) as Hm.
      change (2 ^ 8) with 256 in Hm.
      rewrite !b2z_z2b_small by apply Hm.
      f_equal. rewrite le24_masks. apply Z.mod_small. lia.
    + unfold len. rewrite length_take. unfold len in *. lia.
  - apply orb_false_iff in Er as [E1%Z.leb_gt E2%Z.ltb_ge].
    split; [reflexivity|]. split.
    + exact Hd.
    + unfold len. rewrite length_take. unfold len in *. lia.
Qed.

End WithLz4.

End CompressorMore.

(** ** More on the layout validator *)

Module ValidatorMore.

Import Validator ValidatorFacts Notions.

Lemma lower_ascii_idemp (a : ascii) :
  lower_ascii (lower_ascii a) = lower_ascii a.
Proof. destruct a as [[] [] [] [] [] [] [] []]; reflexivity. Qed.

Lemma lower_idemp (s : string) : lower (lower s) = lower s.
Proof.
  induction s as [|a s IH]; simpl; [reflexivity|].
  rewrite lower_ascii_idemp, IH. reflexivity.
Qed.

Lemma check_img_lower (my_list : list string) (item item' : layer)
      (st : vstate) (idx : Z) (img : jval) :
  drawType item' = drawType item ->
  check_img my_list item' st idx (lower_img img)
  = check_img my_list item st idx img.
Proof.
  intros Hd. destruct img as [n|s|l]; simpl.
  - reflexivity.
  - rewrite Hd, lower_idemp. reflexivity.
  - rewrite fmap_last. destruct (last l) as [[n|s|l']|]; simpl;
      rewrite ?lower_idemp; reflexivity.
Qed.

Lemma check_imgs_lower (my_list : list string) (item item' : layer)
      (idxs : list Z) (imgs : list jval) (st : vstate) :
  drawType item' = drawType item ->
  check_imgs my_list item' st (zip idxs (lower_img <$> imgs))
  = check_imgs my_list item st (zip idxs imgs).
Proof.
  intros Hd. revert idxs st.
  induction imgs as [|img imgs IH]; intros [|idx idxs] st; simpl;
    try reflexivity.
  rewrite (check_img_lower _ _ _ _ _ _ Hd).
  destruct (check_img my_list item st idx img); simpl; [apply IH|reflexivity].
Qed.

Lemma check_item_lower (my_list : list string) (st : vstate) (item : layer) :
  check_item my_list st (lower_layer item) = check_item my_list st item.
Proof.
  unfold check_item, enumerate, len. simpl. rewrite length_fmap.
  destruct (negb _); simpl.
  - destruct (name item); simpl;
      [apply check_imgs_lower|]; reflexivity.
  - apply check_imgs_lower. reflexivity.
Qed.

Lemma check_items_lower (my_list : list string) (config : list layer)
      (st : vstate) :
  check_items my_list st (lower_layer <$> config)
  = check_items my_list st config.
Proof.
  revert st. induction config as [|item config IH]; intros st; simpl;
    [reflexivity|].
  rewrite check_item_lower.
  destruct (check_item my_list st item); simpl; [apply IH|reflexivity].
Qed.

(** Past the test for [config.json], the validator does not see the case
    of the letters [A] to [Z].  Take two directories that both hold
    [config.json] under that spelling, so that [check_clock] loads the
    descriptor in both, and let all names, in the listings and in the
    descriptors, be ASCII.  If the listings agree in lower case and the
    descriptors agree once their file names are put in lower case, the two
    calls give the same answer and the same log. *)
Theorem check_clock_ignores_letter_case
        (file_names file_names' : list string) (config config' : list layer) :
  "config.json"%string ∈ file_names ->
  "config.json"%string ∈ file_names' ->
  Forall (fun n => is_ascii n = true) (file_names ++ file_names') ->
  Forall (fun item => ascii_layer item = true) (config ++ config') ->
  lower <$> file_names = lower <$> file_names' ->
  lower_layer <$> config = lower_layer <$> config' ->
  check_clock (Source file_names config)
  = check_clock (Source file_names' config').
Proof.
  intros _ _ _ _ Hn Hc. unfold check_clock, get_filename_list.
  rewrite <- Hn.
  rewrite <- (check_items_lower _ config), <- (check_items_lower _ config').
  rewrite Hc. reflexivity.
Qed.

Lemma check_items_app (my_list : list string) (pre post : list layer)
      (st : vstate) :
  check_items my_list st (pre ++ post)
  = check_items my_list st pre ≫= fun st' => check_items my_list st' post.
Proof.
  revert st. induction pre as [|item pre IH]; intros st; simpl;
    [reflexivity|].
  destruct (check_item my_list st item); simpl; [apply IH|reflexivity].
Qed.

(** A count that is off in a layer without a [name] key ends the
    validation with an exception, whatever else the descriptor holds: the
    log line for the mismatch reads [item['name']]. *)
Theorem count_mismatch_without_name_raises
        (file_names : list string) (pre post : list layer) (item : layer) :
  Forall (fun i => layer_shaped i = true) pre ->
  name item = None ->
  len (imgArr item) <> num item ->
  check_clock (Source file_names (pre ++ item :: post)) = None.
Proof.
  intros Hpre Hname Hnum. unfold check_clock.
  rewrite check_items_app.
  destruct (check_items_records (get_filename_list file_names) pre
              {| log := []; err_count := 0; config_img_list := [] |} Hpre)
    as (st & -> & _).
  simpl. unfold check_item. rewrite Hname.
  apply Z.eqb_neq in Hnum. rewrite Hnum. reflexivity.
Qed.

End ValidatorMore.

(** ** More on the assembler and the layer serializer *)

Module PackerMore.

Import Validator Packer ValidatorFacts PackerFacts Notions.

Lemma be_uint_be32 (v : Z) : 0 <= v <= 4294967295 -> be_uint (be32 v) = v.
Proof. apply be32_decodes. Qed.

Lemma slice_app_mid {A} (a b c : list A) (off size : Z) :
  0 <= off -> 0 <= size -> off + size <= len b ->
  slice (a ++ b ++ c) (len a + off) (len a + off + size)
  = slice b off (off + size).
Proof.
  intros H0 H1 H2. unfold slice, len in *.
  replace (Z.to_nat (Z.of_nat (length a) + off + size))
    with (length a + Z.to_nat (off + size))%nat by lia.
  replace (Z.to_nat (Z.of_nat (length a) + off))
    with (length a + Z.to_nat off)%nat by lia.
  rewrite take_app_add, drop_app_add, take_app_le by lia. reflexivity.
Qed.

Lemma slice_app_whole {A} (a b c : list A) :
  slice (a ++ b ++ c) (len a) (len a + len b) = b.
Proof.
  pose proof (len_nonneg b).
  replace (len a + len b) with (len a + 0 + len b) by lia.
  replace (len a) with (len a + 0) at 1 by lia.
  rewrite (slice_app_mid a b c 0 (len b)) by lia.
  unfold slice, len. rewrite Z.add_0_l, Nat2Z.id.
  change (Z.to_nat 0) with 0%nat. rewrite drop_0. apply firstn_all.
Qed.

Lemma header_len (is_idle : bool) (v1 v2 v3 v4 v5 v6 : Z) :
  len (bytes_of_string (crc_str is_idle)
       ++ be32 v1 ++ be32 v2 ++ be32 v3 ++ be32 v4 ++ be32 v5 ++ be32 v6) = 32.
Proof. destruct is_idle; reflexivity. Qed.

(** The header locates the regions.  In the file of a pack that ends
    well, the six big-endian u32 fields at offsets 8..31 read back as the
    clock id, 32 and the region descriptors, and a reader that goes by
    them alone finds the thumbnail at [thumb_start], the main region at
    [main_start], the Z region right after it up to [layer_block_start],
    and the layer block from there to the end of the file. *)
Theorem header_locates_regions
        (src : source) (file_list : list prepared_file)
        (clock_id_base : Z) (clock_size : string) (idle_magic : bool)
        (thumbnail_path_override : option (option (list byte)))
        (clock_id : Z) (out : list byte) :
  gen_clock_res src file_list clock_id_base clock_size idle_magic
                thumbnail_path_override = Some (clock_id, out) ->
  exists r layer_list clock_layer_data,
    (initial_regions thumbnail_path_override
       ≫= fun r0 => add_files (bool_decide (is_Some thumbnail_path_override))
                              r0 file_list) = Some r /\
    (exists file_names, src = Source file_names layer_list) /\
    let thumb_start := be_uint (slice out 12 16) in
    let thumb_length := be_uint (slice out 16 20) in
    let main_start := be_uint (slice out 20 24) in
    let main_length := be_uint (slice out 24 28) in
    let layer_block_start := be_uint (slice out 28 32) in
    be_uint (slice out 8 12) = clock_id /\
    thumb_start = 32 /\
    main_start = thumb_start + thumb_length /\
    slice out thumb_start (thumb_start + thumb_length) = clock_thumb_data r /\
    slice out main_start (main_start + main_length) = clock_img_data r /\
    slice out (main_start + main_length) layer_block_start
      = clock_z_img_data r /\
    drop (Z.to_nat layer_block_start) out = clock_layer_data /\
    pack_layers (main_start + main_length) (img_objs r) layer_list
      = Some clock_layer_data.
Proof.
  intros Hpack.
  apply gen_clock_res_Some in Hpack
    as (names & layers & prefix & r0 & r & data & -> & Hp & -> & Hr0 & Hr
        & Hl & Hw).
  pose proof (add_files_consistent _ _ _ _ _
                (initial_regions_consistent _ _ Hr0) Hr) as (Ht & Hm & Hz & _).
  apply write_res_Some in Hw as (H1 & H2 & H3 & H4 & H5 & ->).
  exists r, layers, data.
  split; [rewrite Hr0; exact Hr|]. split; [eauto|].
  set (cid := Z.lor clock_id_base prefix) in *.
  set (tl := clock_thumb_length r) in *.
  set (ml := clock_img_length r) in *.
  set (zl := clock_z_img_length r) in *.
  pose proof (len_nonneg (clock_thumb_data r)).
  pose proof (len_nonneg (clock_img_data r)).
  pose proof (len_nonneg (clock_z_img_data r)).
  assert (F8 : slice (bytes_of_string (crc_str idle_magic)
                      ++ be32 cid ++ be32 32 ++ be32 tl ++ be32 (32 + tl)
                      ++ be32 ml ++ be32 (32 + tl + ml + zl)
                      ++ clock_thumb_data r ++ clock_img_data r
                      ++ clock_z_img_data r ++ data) 8 12 = be32 cid)
    by (destruct idle_magic; reflexivity).
  assert (F12 : slice (bytes_of_string (crc_str idle_magic)
                      ++ be32 cid ++ be32 32 ++ be32 tl ++ be32 (32 + tl)
                      ++ be32 ml ++ be32 (32 + tl + ml + zl)
                      ++ clock_thumb_data r ++ clock_img_data r
                      ++ clock_z_img_data r ++ data) 12 16 = be32 32)
    by (destruct idle_magic; reflexivity).
  assert (F16 : slice (bytes_of_string (crc_str idle_magic)
                      ++ be32 cid ++ be32 32 ++ be32 tl ++ be32 (32 + tl)
                      ++ be32 ml ++ be32 (32 + tl + ml + zl)
                      ++ clock_thumb_data r ++ clock_img_data r
                      ++ clock_z_img_data r ++ data) 16 20 = be32 tl)
    by (destruct idle_magic; reflexivity).
  assert (F20 : slice (bytes_of_string (crc_str idle_magic)
                      ++ be32 cid ++ be32 32 ++ be32 tl ++ be32 (32 + tl)
                      ++ be32 ml ++ be32 (32 + tl + ml + zl)
                      ++ clock_thumb_data r ++ clock_img_data r
                      ++ clock_z_img_data r ++ data) 20 24 = be32 (32 + tl))
    by (destruct idle_magic; reflexivity).
  assert (F24 : slice (bytes_of_string (crc_str idle_magic)
                      ++ be32 cid ++ be32 32 ++ be32 tl ++ be32 (32 + tl)
                      ++ be32 ml ++ be32 (32 + tl + ml + zl)
                      ++ clock_thumb_data r ++ clock_img_data r
                      ++ clock_z_img_data r ++ data) 24 28 = be32 ml)
    by (destruct idle_magic; reflexivity).
  assert (F28 : slice (bytes_of_string (crc_str idle_magic)
                      ++ be32 cid ++ be32 32 ++ be32 tl ++ be32 (32 + tl)
                      ++ be32 ml ++ be32 (32 + tl + ml + zl)
                      ++ clock_thumb_data r ++ clock_img_data r
                      ++ clock_z_img_data r ++ data) 28 32
                = be32 (32 + tl + ml + zl))
    by (destruct idle_magic; reflexivity).
  cbv zeta. rewrite F8, F12, F16, F20, F24, F28.
  rewrite !be_uint_be32 by lia.
  pose proof (header_len idle_magic cid 32 tl (32 + tl) ml
                         (32 + tl + ml + zl)) as Hh.
  set (hdr := bytes_of_string (crc_str idle_magic)
              ++ be32 cid ++ be32 32 ++ be32 tl ++ be32 (32 + tl)
              ++ be32 ml ++ be32 (32 + tl + ml + zl)) in *.
  assert (Hout : bytes_of_string (crc_str idle_magic)
                 ++ be32 cid ++ be32 32 ++ be32 tl ++ be32 (32 + tl)
                 ++ be32 ml ++ be32 (32 + tl + ml + zl)
                 ++ clock_thumb_data r ++ clock_img_data r
                 ++ clock_z_img_data r ++ data
                 = hdr ++ clock_thumb_data r ++ clock_img_data r
                   ++ clock_z_img_data r ++ data).
  { unfold hdr. rewrite <- !app_assoc. reflexivity. }
  rewrite Hout.
  split; [reflexivity|]. split; [reflexivity|]. split; [reflexivity|].
  split; [|split; [|split; [|split]]].
  - rewrite Ht, <- Hh. apply slice_app_whole.
  - replace (32 + tl) with (len (hdr ++ clock_thumb_data r))
      by (rewrite len_app; lia).
    rewrite Hm, (app_assoc hdr). apply slice_app_whole.
  - replace (32 + tl + ml) with (len (hdr ++ clock_thumb_data r
                                       ++ clock_img_data r))
      by (rewrite !len_app; lia).
    rewrite Hz.
    replace (hdr ++ clock_thumb_data r ++ clock_img_data r
             ++ clock_z_img_data r ++ data)
      with ((hdr ++ clock_thumb_data r ++ clock_img_data r)
            ++ clock_z_img_data r ++ data)
      by (rewrite <- !app_assoc; reflexivity).
    apply slice_app_whole.
  - replace (hdr ++ clock_thumb_data r ++ clock_img_data r
             ++ clock_z_img_data r ++ data)
      with ((hdr ++ clock_thumb_data r ++ clock_img_data r
             ++ clock_z_img_data r) ++ data)
      by (rewrite <- !app_assoc; reflexivity).
    apply drop_app_length'. rewrite !length_app.
    unfold len in *. lia.
  - exact Hl.
Qed.

(** *** References into the file *)

Lemma pack_shape
      (src : source) (file_list : list prepared_file)
      (clock_id_base : Z) (clock_size : string) (idle_magic : bool)
      (thumbnail_path_override : option (option (list byte)))
      (clock_id : Z) (out : list byte) :
  gen_clock_res src file_list clock_id_base clock_size idle_magic
                thumbnail_path_override = Some (clock_id, out) ->
  exists file_names layer_list r clock_layer_data hdr,
    src = Source file_names layer_list /\
    (initial_regions thumbnail_path_override
       ≫= fun r0 => add_files (bool_decide (is_Some thumbnail_path_override))
                              r0 file_list) = Some r /\
    consistent file_list r /\
    pack_layers (32 + len (clock_thumb_data r) + len (clock_img_data r))
                (img_objs r) layer_list = Some clock_layer_data /\
    len hdr = 32 /\
    out = hdr ++ clock_thumb_data r ++ clock_img_data r
              ++ clock_z_img_data r ++ clock_layer_data /\
    be_uint (slice out 20 24) = 32 + len (clock_thumb_data r).
Proof.
  intros Hpack.
  apply gen_clock_res_Some in Hpack
    as (names & layers & prefix & r0 & r & data & -> & Hp & -> & Hr0 & Hr
        & Hl & Hw).
  pose proof (add_files_consistent _ _ _ _ _
                (initial_regions_consistent _ _ Hr0) Hr) as Hcons.
  simpl in Hcons. pose proof Hcons as (Ht & Hm & Hz & _).
  apply write_res_Some in Hw as (H1 & H2 & H3 & H4 & H5 & ->).
  exists names, layers, r, data,
    (bytes_of_string (crc_str idle_magic)
     ++ be32 (Z.lor clock_id_base prefix) ++ be32 32
     ++ be32 (clock_thumb_length r) ++ be32 (32 + clock_thumb_length r)
     ++ be32 (clock_img_length r)
     ++ be32 (32 + clock_thumb_length r + clock_img_length r
              + clock_z_img_length r)).
  split; [reflexivity|]. split; [rewrite Hr0; exact Hr|].
  split; [exact Hcons|]. split; [rewrite <- Ht, <- Hm; exact Hl|].
  split; [apply header_len|]. split; [rewrite <- !app_assoc; reflexivity|].
  rewrite <- Ht.
  transitivity (be_uint (be32 (32 + clock_thumb_length r)));
    [|apply be_uint_be32; lia].
  f_equal. destruct idle_magic; reflexivity.
Qed.

Lemma pack_i_be_Some (v : Z) (out : list byte) :
  pack_i_be v = Some out ->
  -2147483648 <= v <= 2147483647 /\ out = be32 v.
Proof.
  unfold pack_i_be.
  destruct (-2147483648 <=? v) eqn:E1; destruct (v <=? 2147483647) eqn:E2;
    simpl; try discriminate.
  intros [= <-]. apply Z.leb_le in E1, E2. auto.
Qed.

Lemma image_ref_Some (clock_z_img_start : Z) (objs : gmap string (Z * Z))
      (img : string) (c : list byte) :
  image_ref clock_z_img_start objs img = Some c ->
  exists off size,
    objs !! img = Some (off, size) /\
    c = be32 (if startswith img "z_" then clock_z_img_start + off else off)
          ++ be32 size.
Proof.
  unfold image_ref.
  destruct (objs !! img) as [[off size]|] eqn:Hl; simpl.
  - destruct (startswith img "z_"); simpl.
    + destruct (pack_i_be (clock_z_img_start + off)) as [a|] eqn:Ea; simpl;
        [|discriminate].
      destruct (pack_i_be size) as [b|] eqn:Eb; simpl; [|discriminate].
      intros [= <-]. apply pack_i_be_Some in Ea as [_ Ea].
      apply pack_i_be_Some in Eb as [_ Eb]. subst a b. eauto.
    + destruct (pack_i_be off) as [a|] eqn:Ea; simpl; [|discriminate].
      destruct (pack_i_be size) as [b|] eqn:Eb; simpl; [|discriminate].
      intros [= <-]. apply pack_i_be_Some in Ea as [_ Ea].
      apply pack_i_be_Some in Eb as [_ Eb]. subst a b. eauto.
  - destruct (startswith img "z_"); discriminate.
Qed.

Lemma pack_layer_imgs (clock_z_img_start : Z) (objs : gmap string (Z * Z))
      (l : layer) (bs : list byte) :
  pack_layer clock_z_img_start objs l = Some bs ->
  exists fixed imgs,
    mapM (fun p => pack_img clock_z_img_start objs l p.1 p.2)
         (enumerate (imgArr l)) = Some imgs /\
    bs = fixed ++ concat imgs /\
    len fixed = 24 + (if mem (dataType l) [130; 59; 52] then 4 else 0)
                + (if mem (dataType l) [112]
                   then 4 * from_option len 0 (area_num l) else 0) /\
    (mem (dataType l) [130; 59; 52] = true -> is_Some (interval l)) /\
    (mem (dataType l) [112] = true -> is_Some (area_num l)).
Proof.
  unfold pack_layer.
  destruct (pack_i_be (drawType l)) as [f1|] eqn:E1; simpl; [|discriminate].
  destruct (pack_i_be (dataType l)) as [f2|] eqn:E2; simpl; [|discriminate].
  destruct (if mem (dataType l) [130; 59; 52] then _ else _) as [f3|] eqn:E3;
    simpl; [|discriminate].
  destruct (if mem (dataType l) [112] then _ else _) as [f4|] eqn:E4;
    simpl; [|discriminate].
  destruct (pack_i_be (alignType l)) as [f5|] eqn:E5; simpl; [|discriminate].
  destruct (pack_i_be (x l)) as [f6|] eqn:E6; simpl; [|discriminate].
  destruct (pack_i_be (y l)) as [f7|] eqn:E7; simpl; [|discriminate].
  destruct (pack_i_be (num l)) as [f8|] eqn:E8; simpl; [|discriminate].
  destruct (mapM _ _) as [imgs|] eqn:Em; simpl; [|discriminate].
  intros [= <-].
  exists (f1 ++ f2 ++ f3 ++ f4 ++ f5 ++ f6 ++ f7 ++ f8), imgs.
  split; [reflexivity|]. split; [rewrite <- !app_assoc; reflexivity|].
  apply pack_i_be_Some in E1 as [_ ->], E2 as [_ ->], E5 as [_ ->],
        E6 as [_ ->], E7 as [_ ->], E8 as [_ ->].
  assert (H3 : len f3 = (if mem (dataType l) [130; 59; 52] then 4 else 0) /\
               (mem (dataType l) [130; 59; 52] = true -> is_Some (interval l))).
  { destruct (mem (dataType l) [130; 59; 52]).
    - destruct (interval l) as [v|]; simpl in E3; [|discriminate].
      apply pack_i_be_Some in E3 as [_ ->]. split; [reflexivity | eauto].
    - injection E3 as <-. split; [reflexivity | discriminate]. }
  assert (H4 : len f4 = (if mem (dataType l) [112]
                         then 4 * from_option len 0 (area_num l) else 0) /\
               (mem (dataType l) [112] = true -> is_Some (area_num l))).
  { destruct (mem (dataType l) [112]).
    - destruct (area_num l) as [vs|]; simpl in E4; [|discriminate].
      split; [|eauto]. simpl.
      destruct (mapM pack_i_be vs) as [cells|] eqn:Ec; simpl in E4;
        [|discriminate].
      injection E4 as <-. clear -Ec. revert cells Ec.
      induction vs as [|v vs IH]; intros cells Ec; simpl in Ec.
      + injection Ec as <-. reflexivity.
      + destruct (pack_i_be v) as [c|] eqn:Ev; simpl in Ec; [|discriminate].
        destruct (mapM pack_i_be vs) as [cs|]; simpl in Ec; [|discriminate].
        injection Ec as <-. apply pack_i_be_Some in Ev as [_ ->].
        specialize (IH cs eq_refl). unfold len, be32 in *.
        simpl in *. lia.
    - injection E4 as <-. split; [reflexivity | discriminate]. }
  destruct H3 as [H3 H3'], H4 as [H4 H4'].
  split; [|split; assumption].
  rewrite !len_app, H3, H4. unfold len, be32. simpl. lia.
Qed.

Lemma pack_layers_each (clock_z_img_start : Z) (objs : gmap string (Z * Z))
      (layer_list : list layer) (data : list byte) (l : layer) :
  pack_layers clock_z_img_start objs layer_list = Some data ->
  l ∈ layer_list ->
  is_Some (pack_layer clock_z_img_start objs l).
Proof.
  unfold pack_layers. intros H Hl.
  destruct (mapM _ layer_list) as [recs|] eqn:Em; [|discriminate].
  apply mapM_Some_1 in Em. apply list_elem_of_lookup in Hl as [i Hi].
  destruct (Forall2_lookup_l _ _ _ i l Em Hi) as (bs & _ & Hbs). eauto.
Qed.

Lemma pack_layers_img (clock_z_img_start : Z) (objs : gmap string (Z * Z))
      (layer_list : list layer) (data : list byte) (l : layer)
      (idx : Z) (img : jval) :
  pack_layers clock_z_img_start objs layer_list = Some data ->
  l ∈ layer_list -> (idx, img) ∈ enumerate (imgArr l) ->
  is_Some (pack_img clock_z_img_start objs l idx img).
Proof.
  intros H Hl Hi.
  destruct (pack_layers_each _ _ _ _ _ H Hl) as [bs Hbs].
  apply pack_layer_imgs in Hbs as (fixed & imgs & Hm & _).
  apply mapM_Some_1 in Hm. apply list_elem_of_lookup in Hi as [i Hi].
  destruct (Forall2_lookup_l _ _ _ i _ Hm Hi) as (c & _ & Hc). eauto.
Qed.

(** References resolve inside the file.  In a pack that ends well, take
    any reference to a file name [s] in a layer of the descriptor: the
    third element of a 3-tuple of a [drawType] 10, 15 or 21 layer, or a
    string element that no other rule of the serializer takes.  Then the
    bytes written for it end with the i32 pair [(woff, length)], and the
    bytes of the file of that name lie in the output at [woff] counted
    from the start of the file for a [z_] name, and at [woff] counted from
    [main_start] (the u32 at offset 20) for any other name. *)
Theorem references_resolve_in_file
        (file_names : list string) (layer_list : list layer)
        (file_list : list prepared_file)
        (clock_id_base : Z) (clock_size : string) (idle_magic : bool)
        (thumbnail_path_override : option (option (list byte)))
        (clock_id : Z) (out : list byte)
        (l : layer) (idx : Z) (img : jval) (s : string) :
  gen_clock_res (Source file_names layer_list) file_list clock_id_base
                clock_size idle_magic thumbnail_path_override
    = Some (clock_id, out) ->
  l ∈ layer_list ->
  (idx, img) ∈ enumerate (imgArr l) ->
  (mem (drawType l) [10; 15; 21] = true /\
   exists e0 e1 rest, img = JList (JInt e0 :: JInt e1 :: JStr s :: rest)) \/
  (mem (drawType l) [10; 15; 21] = false /\
   (drawType l =? 55) && (idx =? 2) = false /\
   mem (dataType l) [64; 65; 66; 67] && mem idx [10; 11] = false /\
   (drawType l =? 8) && mem idx [0; 1; 2] = false /\
   img = JStr s) ->
  exists f chunk woff,
    f ∈ file_list /\ file_chunk f = Some (s, chunk) /\
    (exists r pre,
        (initial_regions thumbnail_path_override
           ≫= fun r0 => add_files
                          (bool_decide (is_Some thumbnail_path_override))
                          r0 file_list) = Some r /\
        pack_img (32 + len (clock_thumb_data r) + len (clock_img_data r))
                 (img_objs r) l idx img
        = Some (pre ++ be32 woff ++ be32 (len chunk))) /\
    let abs := if startswith s "z_" then woff
               else be_uint (slice out 20 24) + woff in
    slice out abs (abs + len chunk) = chunk.
Proof.
  intros Hpack Hl Hi Hbranch.
  apply pack_shape in Hpack
    as (names & layers & r & data & hdr & [= <- <-] & Hr & Hcons & Hlayers
        & Hh & -> & Hms).
  destruct (pack_layers_img _ _ _ _ _ _ _ Hlayers Hl Hi) as [w Hw].
  set (zs := 32 + len (clock_thumb_data r) + len (clock_img_data r)) in *.
  assert (Href : exists pre c,
             image_ref zs (img_objs r) s = Some c /\ w = pre ++ c).
  { unfold pack_img in Hw.
    destruct Hbranch as [(Hd & e0 & e1 & rest & ->)
                        |(Hd & H55 & H64 & H8 & ->)].
    - rewrite Hd in Hw.
      destruct (pack_i_be e0) as [a|]; simpl in Hw; [|discriminate].
      destruct (pack_i_be e1) as [b|]; simpl in Hw; [|discriminate].
      destruct (image_ref zs (img_objs r) s) as [c|]; simpl in Hw;
        [|discriminate].
      injection Hw as <-. exists (a ++ b), c.
      split; [reflexivity | rewrite <- app_assoc; reflexivity].
    - rewrite Hd, H55, H64, H8 in Hw. exists [], w. split; [exact Hw|].
      reflexivity. }
  destruct Href as (pre & c & Hc & ->).
  apply image_ref_Some in Hc as (off & size & Hobj & ->).
  destruct Hcons as (_ & _ & _ & Hobjs).
  destruct (Hobjs s off size Hobj) as (f & chunk & Hf & Hfc & H0 & -> & Hle
                                       & Hsl).
  exists f, chunk,
    (if startswith s "z_" then zs + off else off).
  split; [exact Hf|]. split; [exact Hfc|]. split.
  { exists r, pre. split; [exact Hr | exact Hw]. }
  cbv zeta. rewrite Hms. pose proof (len_nonneg chunk).
  destruct (startswith s "z_").
  - replace (hdr ++ clock_thumb_data r ++ clock_img_data r
             ++ clock_z_img_data r ++ data)
      with ((hdr ++ clock_thumb_data r ++ clock_img_data r)
            ++ clock_z_img_data r ++ data)
      by (rewrite <- !app_assoc; reflexivity).
    replace zs with (len (hdr ++ clock_thumb_data r ++ clock_img_data r))
      by (unfold zs; rewrite !len_app; lia).
    rewrite slice_app_mid by lia. exact Hsl.
  - replace (hdr ++ clock_thumb_data r ++ clock_img_data r
             ++ clock_z_img_data r ++ data)
      with ((hdr ++ clock_thumb_data r)
            ++ clock_img_data r ++ clock_z_img_data r ++ data)
      by (rewrite <- !app_assoc; reflexivity).
    replace (32 + len (clock_thumb_data r))
      with (len (hdr ++ clock_thumb_data r)) by (rewrite len_app; lia).
    rewrite slice_app_mid by lia. exact Hsl.
Qed.

(** *** What stops a pack *)

(** No file for a descriptor with a mismatch.  When the validator has a
    mismatch to report on a descriptor of the data model, the pack ends
    without writing a file, whatever the other arguments. *)
Theorem mismatch_stops_pack
        (file_names : list string) (config : list layer)
        (file_list : list prepared_file)
        (clock_id_base : Z) (clock_size : string) (idle_magic : bool)
        (thumbnail_path_override : option (option (list byte))) :
  Forall (fun item => layer_shaped item = true) config ->
  spec_mismatches (get_filename_list file_names) config <> [] ->
  gen_clock_res (Source file_names config) file_list clock_id_base
                clock_size idle_magic thumbnail_path_override = None.
Proof.
  intros Hc Hm. unfold gen_clock_res, check_clock.
  destruct (check_items_records (get_filename_list file_names) config
              {| log := []; err_count := 0; config_img_list := [] |} Hc)
    as (st & -> & _ & Hcount).
  simpl in *. rewrite Hcount.
  destruct (spec_mismatches (get_filename_list file_names) config)
    as [|m ms]; [congruence|].
  assert ((0 + len (m :: ms) =? 0) = false) as ->.
  { apply Z.eqb_neq. unfold len. simpl. lia. }
  reflexivity.
Qed.

(** A layer that lacks a key the serializer reads stops the pack: a
    [dataType] of 52, 59 or 130 without [interval], or a [dataType] of 112
    without [area_num].  The validator looks at neither key. *)
Theorem missing_layer_key_stops_pack
        (file_names : list string) (layer_list : list layer)
        (file_list : list prepared_file)
        (clock_id_base : Z) (clock_size : string) (idle_magic : bool)
        (thumbnail_path_override : option (option (list byte)))
        (l : layer) :
  l ∈ layer_list ->
  (mem (dataType l) [130; 59; 52] = true /\ interval l = None) \/
  (dataType l = 112 /\ area_num l = None) ->
  gen_clock_res (Source file_names layer_list) file_list clock_id_base
                clock_size idle_magic thumbnail_path_override = None.
Proof.
  intros Hl Hkey.
  destruct (gen_clock_res _ _ _ _ _ _) as [[cid out]|] eqn:Hpack;
    [|reflexivity].
  exfalso.
  apply pack_shape in Hpack
    as (names & layers & r & data & hdr & [= <- <-] & _ & _ & Hlayers & _).
  destruct (pack_layers_each _ _ _ _ _ Hlayers Hl) as [bs Hbs].
  apply pack_layer_imgs in Hbs as (_ & _ & _ & _ & _ & Hi & Ha).
  destruct Hkey as [[Hd Hn]|[Hd Hn]].
  - destruct (Hi Hd) as [v Hv]. congruence.
  - rewrite Hd in Ha. destruct (Ha eq_refl) as [v Hv]. congruence.
Qed.

(** *** The size of a layer record *)

Lemma pack_img_len (clock_z_img_start : Z) (objs : gmap string (Z * Z))
      (l : layer) (idx : Z) (img : jval) (w : list byte) :
  pack_img clock_z_img_start objs l idx img = Some w ->
  len w = pack_img_size l idx img.
Proof.
  unfold pack_img, pack_img_size.
  destruct (mem (drawType l) [10; 15; 21]).
  { destruct img as [n|s|[|[e0| |] [|[e1| |] [|[|e2|] rest]]]];
      try discriminate.
    destruct (pack_i_be e0) as [a|] eqn:Ea; simpl; [|discriminate].
    destruct (pack_i_be e1) as [b|] eqn:Eb; simpl; [|discriminate].
    destruct (image_ref _ _ _) as [c|] eqn:Ec; simpl; [|discriminate].
    intros [= <-]. apply pack_i_be_Some in Ea as [_ ->].
    apply pack_i_be_Some in Eb as [_ ->].
    apply image_ref_Some in Ec as (off & size & _ & ->). reflexivity. }
  destruct ((drawType l =? 55) && (idx =? 2)).
  { destruct img as [n|s|l0]; try discriminate.
    intros [= <-]. unfold len. rewrite pack_30s_length. reflexivity. }
  destruct (mem (dataType l) [64; 65; 66; 67] && mem idx [10; 11]).
  { destruct img as [n|s|l0]; try discriminate.
    intros H. apply pack_i_be_Some in H as [_ ->]. reflexivity. }
  destruct ((drawType l =? 8) && mem idx [0; 1; 2]).
  { destruct img as [n|s|l0]; try discriminate.
    intros H. apply pack_i_be_Some in H as [_ ->]. reflexivity. }
  destruct img as [n|s|l0]; try discriminate.
  - intros H. apply pack_i_be_Some in H as [_ ->]. reflexivity.
  - intros H. apply image_ref_Some in H as (off & size & _ & ->).
    reflexivity.
Qed.

Lemma mapM_pack_img_len (clock_z_img_start : Z) (objs : gmap string (Z * Z))
      (l : layer) (elems : list (Z * jval)) (imgs : list (list byte)) :
  mapM (fun p => pack_img clock_z_img_start objs l p.1 p.2) elems
    = Some imgs ->
  len (concat imgs)
  = foldr (fun p acc => pack_img_size l p.1 p.2 + acc) 0 elems.
Proof.
  revert imgs. induction elems as [|[idx img] elems IH]; intros imgs; simpl.
  - intros [= <-]. reflexivity.
  - destruct (pack_img _ _ _ _ _) as [w|] eqn:Ew; simpl; [|discriminate].
    destruct (mapM _ elems) as [ws|]; simpl in *; [|discriminate].
    intros [= <-]. simpl. rewrite len_app, (IH ws eq_refl).
    rewrite (pack_img_len _ _ _ _ _ _ Ew). reflexivity.
Qed.

(** The length of a layer record depends on the descriptor alone.  A
    record that is written has 24 bytes for the six fields every layer
    has, 4 more for [interval] when [dataType] is 52, 59 or 130, 4 for each
    value of [area_num] when [dataType] is 112, and for each element of
    [imgArr] 16, 30, 4 or 8 bytes by the rule that takes it: what the chunk
    table holds changes the bytes, never their number. *)
Theorem layer_record_length
        (clock_z_img_start : Z) (objs : gmap string (Z * Z))
        (l : layer) (bs : list byte) :
  pack_layer clock_z_img_start objs l = Some bs ->
  len bs
  = 24
    + (if mem (dataType l) [130; 59; 52] then 4 else 0)
    + (if mem (dataType l) [112]
       then 4 * from_option len 0 (area_num l) else 0)
    + foldr (fun p acc => pack_img_size l p.1 p.2 + acc) 0
            (enumerate (imgArr l)) /\
  Forall (fun p => pack_img_size l p.1 p.2 ∈ [16; 30; 4; 8])
         (enumerate (imgArr l)).
Proof.
  intros H.
  apply pack_layer_imgs in H as (fixed & imgs & Hm & -> & Hfixed & _ & _).
  split.
  - rewrite len_app, Hfixed, (mapM_pack_img_len _ _ _ _ _ Hm). reflexivity.
  - apply Forall_forall. intros [idx img] _. unfold pack_img_size. simpl.
    repeat match goal with
           | |- context [if ?c then _ else _] => destruct c
           end; try destruct img; set_solver.
Qed.

(** *** What the regions hold *)

Lemma add_file_lengths (o : bool) (r r' : regions) (f : prepared_file) :
  add_file o r f = Some r' ->
  clock_img_length r' + clock_z_img_length r'
  = clock_img_length r + clock_z_img_length r + stored_size o f.
Proof.
  unfold add_file, stored_size.
  destruct (file_chunk f) as [[file_name in_data]|]; simpl; [|discriminate].
  destruct (negb o && contains "thumbnail" file_name).
  { intros [= <-]. simpl. lia. }
  destruct (startswith file_name "z_"); intros [= <-]; simpl; lia.
Qed.

Lemma add_files_lengths (o : bool) (file_list : list prepared_file)
      (r r' : regions) :
  add_files o r file_list = Some r' ->
  clock_img_length r' + clock_z_img_length r'
  = clock_img_length r + clock_z_img_length r
    + foldr (fun f acc => stored_size o f + acc) 0 file_list.
Proof.
  revert r. induction file_list as [|f file_list IH]; intros r; simpl.
  - intros [= <-]. lia.
  - destruct (add_file o r f) as [r1|] eqn:E; simpl; [|discriminate].
    intros H. rewrite (IH _ H), (add_file_lengths _ _ _ _ E). lia.
Qed.

(** Every file takes its room.  After the loop over [file_list] the main
    region and the Z region together hold as many bytes as the files that
    are not taken as thumbnail have, each counted as often as it is in the
    list: two files that go by one name are both stored. *)
Theorem regions_hold_every_file
        (thumbnail_path_override : option (option (list byte)))
        (o : bool) (file_list : list prepared_file) (r0 r : regions) :
  initial_regions thumbnail_path_override = Some r0 ->
  add_files o r0 file_list = Some r ->
  len (clock_img_data r) + len (clock_z_img_data r)
  = foldr (fun f acc => stored_size o f + acc) 0 file_list.
Proof.
  intros Hr0 Hr.
  pose proof (add_files_consistent _ _ _ _ _
                (initial_regions_consistent _ _ Hr0) Hr) as (_ & Hm & Hz & _).
  rewrite <- Hm, <- Hz, (add_files_lengths _ _ _ _ Hr).
  unfold initial_regions in Hr0.
  destruct thumbnail_path_override as [[d|]|]; simpl in Hr0;
    try discriminate; injection Hr0 as <-; simpl; lia.
Qed.

Lemma add_file_thumbnail (r r' : regions) (f : prepared_file) :
  add_file false r f = Some r' ->
  (forall key, is_Some (img_objs r !! key) ->
               contains "thumbnail" key = false) ->
  forall key, is_Some (img_objs r' !! key) ->
              contains "thumbnail" key = false.
Proof.
  unfold add_file.
  destruct (file_chunk f) as [[file_name in_data]|]; simpl; [|discriminate].
  destruct (contains "thumbnail" file_name) eqn:Et; simpl.
  { intros [= <-]. simpl. auto. }
  destruct (startswith file_name "z_"); intros [= <-] Hold key; simpl;
    rewrite lookup_insert; case_decide; subst; auto.
Qed.

Lemma add_file_override (r r' : regions) (f : prepared_file) :
  add_file true r f = Some r' -> clock_thumb_data r' = clock_thumb_data r.
Proof.
  unfold add_file.
  destruct (file_chunk f) as [[file_name in_data]|]; simpl; [|discriminate].
  destruct (startswith file_name "z_"); intros [= <-]; reflexivity.
Qed.

(** The thumbnail and the chunk table.  Without an override no name that
    contains [thumbnail] gets into the chunk table, so a layer cannot refer
    to the thumbnail file; with an override the thumbnail is the bytes of
    the override, whatever the files are named. *)
Theorem thumbnail_and_chunk_table
        (file_list : list prepared_file) (r0 r : regions) :
  (initial_regions None = Some r0 ->
   add_files false r0 file_list = Some r ->
   forall key, is_Some (img_objs r !! key) ->
               contains "thumbnail" key = false) /\
  (forall d,
      initial_regions (Some (Some d)) = Some r0 ->
      add_files true r0 file_list = Some r ->
      clock_thumb_data r = d).
Proof.
  split.
  - intros [= <-]. simpl.
    assert (Hgen : forall files ra rb,
               add_files false ra files = Some rb ->
               (forall key, is_Some (img_objs ra !! key) ->
                            contains "thumbnail" key = false) ->
               forall key, is_Some (img_objs rb !! key) ->
                           contains "thumbnail" key = false).
    { induction files as [|f files IH]; intros ra rb; simpl.
      - intros [= <-]. auto.
      - destruct (add_file false ra f) as [r1|] eqn:E; simpl; [|discriminate].
        intros H Hold. apply (IH _ _ H).
        exact (add_file_thumbnail _ _ _ E Hold). }
    intros Hr. apply (Hgen _ _ _ Hr). simpl. intros key [v Hv].
    rewrite lookup_empty in Hv. discriminate.
  - intros d [= <-].
    assert (Hgen : forall files ra rb,
               add_files true ra files = Some rb ->
               clock_thumb_data rb = clock_thumb_data ra).
    { induction files as [|f files IH]; intros ra rb; simpl.
      - intros [= <-]. reflexivity.
      - destruct (add_file true ra f) as [r1|] eqn:E; simpl; [|discriminate].
        intros H. rewrite (IH _ _ H). exact (add_file_override _ _ _ E). }
    intros Hr. rewrite (Hgen _ _ _ Hr). reflexivity.
Qed.

End PackerMore.

(** ** The command line *)

Module CliFacts.

Import Validator Packer PackerFacts PackerMore Notions Cli.

(** The id taken from the folder name is the first number in the name
    that lies in 50000..65535. *)
Lemma extracted_id_is_first_in_range (numbers : list Z) (v : Z) :
  _extract_clock_id_from_src_folder numbers = Some v ->
  50000 <= v <= 65535 /\
  exists before after,
    numbers = before ++ v :: after /\
    Forall (fun u => ~ 50000 <= u <= 65535) before.
Proof.
  unfold _extract_clock_id_from_src_folder. intros H. split.
  - apply head_Some_elem_of, list_elem_of_filter in H as [H _]. exact H.
  - apply head_filter_Some in H. exact H.
Qed.

(** A detected size has a prefix.  When the detection gives a size, the
    first element of the first layer names an image (as a string or as the
    last element of a list) whose size is one of the five of [allowed], and
    the size given is a key of [g_clock_id_prefix_dict]: the lookup of the
    prefix cannot fail on a detected size. *)
Theorem detected_size_has_prefix (d : folder) (clock_size : string) :
  _detect_clock_size_from_first_layer d = Some clock_size ->
  is_Some (g_clock_id_prefix_dict !! clock_size) /\
  exists config first img0 img_name size,
    folder_config d = Some config /\
    head config = Some first /\
    head (imgArr first) = Some img0 /\
    (img0 = JStr img_name \/
     exists l, img0 = JList l /\ last l = Some (JStr img_name)) /\
    img_name <> EmptyString /\
    folder_image_size d img_name = Some size /\
    (size, clock_size) ∈ allowed.
Proof.
  unfold _detect_clock_size_from_first_layer.
  destruct (folder_config d) as [config|] eqn:Hcfg; simpl; [|discriminate].
  destruct (head config) as [first|] eqn:Hfirst; simpl; [|discriminate].
  destruct (head (imgArr first)) as [img0|] eqn:Himg0; simpl;
    [|discriminate].
  intros H.
  assert (Hname : exists img_name size,
             (img0 = JStr img_name \/
              exists l, img0 = JList l /\ last l = Some (JStr img_name)) /\
             img_name <> EmptyString /\
             folder_image_size d img_name = Some size /\
             snd <$> head (filter (fun e : Z * Z * string =>
                                     bool_decide (e.1 = size)) allowed)
             = Some clock_size).
  { destruct img0 as [n|s|l]; simpl in H; try discriminate.
    - case_bool_decide as Hs; [discriminate|].
      destruct (folder_image_size d s) as [size|] eqn:Hsz; simpl in H;
        [|discriminate].
      exists s, size. repeat split; try assumption. left. reflexivity.
    - destruct (last l) as [[n|s|l']|] eqn:Hl; simpl in H; try discriminate.
      case_bool_decide as Hs; [discriminate|].
      destruct (folder_image_size d s) as [size|] eqn:Hsz; simpl in H;
        [|discriminate].
      exists s, size. repeat split; try assumption.
      right. exists l. split; [reflexivity | exact Hl]. }
  destruct Hname as (img_name & size & Himg & Hne & Hsz & Hal).
  destruct (head (filter _ allowed)) as [[size' s']|] eqn:Hhead;
    simpl in Hal; [|discriminate].
  injection Hal as ->.
  apply head_Some_elem_of, list_elem_of_filter in Hhead as [Heq Hin].
  apply bool_decide_unpack in Heq. simpl in Heq. subst size'.
  split.
  - clear -Hin. unfold allowed in Hin.
    repeat (apply elem_of_cons in Hin as [[= _ ->]|Hin];
            [vm_compute; eauto|]).
    apply elem_of_nil in Hin. contradiction.
  - exists config, first, img0, img_name, size.
    repeat split; assumption.
Qed.

(** What [cli_main] hands to the packer.  When [cli_main] ends well the
    base id is the one given with [--clock-id] or, without the option, the
    first number of the folder name that lies in 50000..65535; it lies in
    that range either way; the low 16 bits of the clock id are that base id
    and the high 16 bits one of the prefixes of the table; and the file
    starts with the magic string the [--idle] option selects. *)
Theorem cli_main_clock_id (args : arguments) (sd : source_dir)
        (clock_id : Z) (out : list byte) :
  cli_main args sd = Some (clock_id, out) ->
  exists clock_id_base,
    (arg_clock_id args = Some clock_id_base \/
     arg_clock_id args = None /\
     exists before after,
       dir_name_numbers sd = before ++ clock_id_base :: after /\
       Forall (fun u => ~ 50000 <= u <= 65535) before) /\
    50000 <= clock_id_base <= 65535 /\
    Z.land clock_id 65535 = clock_id_base /\
    Z.land clock_id 4294901760
      ∈ [983040; 917504; 851968; 786432; 720896; 655360; 589824; 524288;
         458752] /\
    slice out 0 8
    = bytes_of_string (if arg_idle args then "II@*24dG" else "Sb@*O2GG") /\
    be_uint (slice out 8 12) = clock_id.
Proof.
  unfold cli_main.
  destruct (match arg_face_size args with
            | Some s => negb (bool_decide (is_Some (g_clock_id_prefix_dict !! s)))
            | None => false
            end); [discriminate|].
  destruct (negb (is_dir sd)); [discriminate|].
  destruct (match arg_clock_id args with
            | Some v => Some v
            | None => _extract_clock_id_from_src_folder (dir_name_numbers sd)
            end) as [base|] eqn:Hbase; simpl; [|discriminate].
  destruct (50000 <=? base) eqn:E1; destruct (base <=? 65535) eqn:E2; simpl;
    try discriminate.
  apply Z.leb_le in E1, E2.
  destruct (match arg_face_size args with
            | Some s => Some s
            | None => _detect_clock_size_from_first_layer (dir_folder sd)
            end) as [clock_size|]; simpl; [|discriminate].
  intros Hpack.
  apply gen_clock_res_Some in Hpack
    as (names & layers & prefix & r0 & r & data & _ & Hp & -> & _ & _ & _
        & Hw).
  apply write_res_Some in Hw as (H1 & _ & _ & _ & _ & ->).
  destruct (clock_id_halves base clock_size prefix Hp ltac:(lia))
    as (Hlow & Hhigh & _).
  exists base. split.
  { destruct (arg_clock_id args) as [v|].
    - left. exact Hbase.
    - right. split; [reflexivity|].
      apply extracted_id_is_first_in_range in Hbase
        as (_ & before & after & Hnum & Hbefore).
      exists before, after. split; assumption. }
  split; [lia|]. split; [exact Hlow|]. split.
  { rewrite Hhigh. apply (prefix_table_values _ _ Hp). }
  split.
  - destruct (arg_idle args); reflexivity.
  - transitivity (be_uint (be32 (Z.lor base prefix)));
      [|apply be_uint_be32; lia].
    f_equal. destruct (arg_idle args); reflexivity.
Qed.

End CliFacts.

(** ** Directory listings *)

Module FilesFacts.

Import Bmp Packer Files TranscoderFacts.

Lemma lower_empty (s : string) : lower s = EmptyString -> s = EmptyString.
Proof. destruct s; [reflexivity | discriminate]. Qed.

(** A name with an extension has at least two dot-separated parts. *)
Lemma file_extension_parts (file_name : string) :
  file_extension file_name <> EmptyString ->
  exists img_name img_ext rest,
    split "." file_name = img_name :: img_ext :: rest.
Proof.
  unfold file_extension. intros Hext.
  destruct (split "." file_name) as [|a [|b rest]] eqn:Hs.
  - contradiction.
  - contradiction.
  - eauto.
Qed.

Lemma media_header_length (img_type : Z) (f : prepared_file) (w h : Z) :
  0 <= img_type <= 255 ->
  image_size f = Some (w, h) ->
  exists hdr, media_header img_type f = Some hdr /\ len hdr = 16.
Proof.
  intros Ht Hsz. unfold media_header. rewrite Hsz. simpl.
  rewrite chunk_header_total by exact Ht.
  eexists. split; [reflexivity|]. reflexivity.
Qed.

(** The files [get_files] lists get through the name handling of the
    packer.  Asked for extensions none of which is empty, [get_files]
    lists only names with at least two dot-separated parts, so the loop of
    the packer, which takes [base_name.split('.')[0]] and [[1]], finds both
    on every file listed.  With an image size that can be read, such a
    file gives its chunk under the first two parts of its name: its bytes
    as they are, after a 16-byte header exactly when the second part,
    which need not be the extension that was matched, is [jpg] or [gif]. *)
Theorem listed_files_have_chunks
        (dirpath : string) (filenames : list string)
        (deeper : list (string * list string))
        (ext_list found : list string) :
  get_files (Some ((dirpath, filenames) :: deeper)) ext_list = Some found ->
  EmptyString ∉ ext_list ->
  Forall (fun p =>
            exists file_name img_name img_ext rest,
              file_name ∈ filenames /\
              p = path_join dirpath file_name /\
              split "." file_name = img_name :: img_ext :: rest /\
              forall bs w h, exists header,
                file_chunk {| base_name := file_name; file_bytes := bs;
                              image_size := Some (w, h) |}
                = Some (join_dot img_name img_ext, header ++ bs) /\
                len header
                = if bool_decide (lower img_ext = "jpg"%string)
                     || bool_decide (lower img_ext = "gif"%string)
                  then 16 else 0)
         found.
Proof.
  intros Hfound Hne. simpl in Hfound. injection Hfound as <-.
  apply Forall_forall. intros p Hp.
  apply list_elem_of_fmap in Hp as (file_name & -> & Hin).
  apply list_elem_of_filter in Hin as [Hext Hin].
  assert (Hnonempty : file_extension file_name <> EmptyString).
  { intros Hempty. rewrite Hempty in Hext.
    apply list_elem_of_fmap in Hext as (e & He & Hin').
    symmetry in He. apply lower_empty in He. subst e. contradiction. }
  destruct (file_extension_parts file_name Hnonempty)
    as (img_name & img_ext & rest & Hsplit).
  exists file_name, img_name, img_ext, rest.
  split; [exact Hin|]. split; [reflexivity|]. split; [exact Hsplit|].
  intros bs w h. unfold file_chunk. cbn [base_name file_bytes].
  rewrite Hsplit. cbn [lookup list_lookup mbind option_bind].
  simpl.
  destruct (bool_decide (lower img_ext = "jpg"%string)); simpl.
  - destruct (media_header_length 9
                {| base_name := file_name; file_bytes := bs;
                   image_size := Some (w, h) |} w h ltac:(lia) eq_refl)
      as (hdr & Hhdr & Hlen).
    simpl in Hhdr. rewrite Hhdr. simpl.
    exists hdr. split; [reflexivity | exact Hlen].
  - destruct (bool_decide (lower img_ext = "gif"%string)); simpl.
    + destruct (media_header_length 3
                  {| base_name := file_name; file_bytes := bs;
                     image_size := Some (w, h) |} w h ltac:(lia) eq_refl)
        as (hdr & Hhdr & Hlen).
      simpl in Hhdr. rewrite Hhdr. simpl.
      exists hdr. split; [reflexivity | exact Hlen].
    + exists []. split; reflexivity.
Qed.

End FilesFacts.

(** ** The pipeline of intermediate files *)

Module PipelineFacts.

Import Bmp Packer Files Pipeline.

Lemma list_ascii_app (s t : string) :
  list_ascii_of_string (s +:+ t)
  = list_ascii_of_string s ++ list_ascii_of_string t.
Proof.
  induction s as [|a s IH]; [reflexivity|].
  change (a :: list_ascii_of_string (s +:+ t)
          = a :: (list_ascii_of_string s ++ list_ascii_of_string t)).
  now rewrite IH.
Qed.

Lemma string_app_assoc (s t u : string) : (s +:+ t) +:+ u = s +:+ (t +:+ u).
Proof.
  induction s as [|a s IH]; [reflexivity|].
  change (String a ((s +:+ t) +:+ u) = String a (s +:+ (t +:+ u))).
  now rewrite IH.
Qed.

Lemma splitext_rgb (with_alpha : bool) (n : string) :
  splitext (rgb_name (bmp_name with_alpha n))
  = (bmp_name with_alpha n, ".RGB"%string).
Proof.
  unfold splitext, rgb_name.
  rewrite list_ascii_app, reverse_app.
  change (reverse (list_ascii_of_string ".RGB")) with ["B"; "G"; "R"; "."]%char.
  cbn [app cut_at_dot is_dot is_sep Ascii.eqb Bool.eqb mbind option_bind].
  set (m := bmp_name with_alpha n).
  assert (Hm : only_dots (reverse (list_ascii_of_string m)) = false).
  { unfold m, bmp_name. rewrite list_ascii_app, reverse_app.
    destruct with_alpha; reflexivity. }
  simpl. rewrite Hm, reverse_involutive, string_of_list_ascii_of_string.
  reflexivity.
Qed.

Lemma split_nonempty (c : ascii) (s : string) : split c s <> [].
Proof.
  induction s as [|a s IH]; simpl; [discriminate|].
  destruct (Ascii.eqb a c); [discriminate|].
  destruct (split c s); [contradiction | discriminate].
Qed.

Lemma split_app (c : ascii) (s t : string) :
  split c (s +:+ String c t) = split c s ++ split c t.
Proof.
  induction s as [|a s IH]; simpl.
  - rewrite Ascii.eqb_refl. reflexivity.
  - destruct (Ascii.eqb a c); [now rewrite IH|].
    rewrite IH. pose proof (split_nonempty c s) as Hne.
    destruct (split c s); [contradiction | reflexivity].
Qed.

Lemma split_cons (c : ascii) (s a : string) (tl : list string) :
  split c s = a :: tl -> tl <> [] ->
  exists s', s = a +:+ String c s' /\ split c s' = tl.
Proof.
  revert a tl. induction s as [|x s IH]; intros a tl Hs Htl; simpl in Hs.
  - injection Hs as <- <-. contradiction.
  - destruct (Ascii.eqb x c) eqn:E.
    + apply Ascii.eqb_eq in E. subst x. injection Hs as <- <-.
      exists s. split; reflexivity.
    + destruct (split c s) as [|h t] eqn:Hsp.
      * injection Hs as <- <-. contradiction.
      * injection Hs as <- <-.
        destruct (IH h t eq_refl Htl) as (s' & -> & Hs').
        exists s'. split; [reflexivity | exact Hs'].
Qed.

Lemma split_no_sep (c : ascii) (s a : string) :
  split c s = [a] -> s = a.
Proof.
  revert a. induction s as [|x s IH]; intros a Hs; simpl in Hs.
  - now injection Hs.
  - pose proof (split_nonempty c s) as Hne.
    destruct (Ascii.eqb x c).
    + injection Hs as _ Hnil. contradiction.
    + destruct (split c s) as [|h t] eqn:Hsp; [contradiction|].
      injection Hs as <- ->. now rewrite (IH h eq_refl).
Qed.

Lemma produced_name_parts (is_compress with_alpha : bool) (n : string) :
  split "." (produced_name is_compress with_alpha n)
  = split "." n ++ [if with_alpha then "BMPA" else "bmp";
                    if is_compress then "COMP" else "RGB"]%string.
Proof.
  unfold produced_name, comp_name. rewrite splitext_rgb. cbn [fst].
  unfold rgb_name, bmp_name.
  destruct is_compress, with_alpha; rewrite string_app_assoc.
  - exact (split_app "." n "BMPA.COMP").
  - exact (split_app "." n "bmp.COMP").
  - exact (split_app "." n "BMPA.RGB").
  - exact (split_app "." n "bmp.RGB").
Qed.

(** The chunk of a PNG whose name has one dot. *)
Lemma one_dot_png_chunk
      (n a b : string) (is_compress with_alpha : bool)
      (bs : list byte) (sz : option (Z * Z)) :
  split "." n = [a; b] ->
  lower (file_extension n) = "png"%string ->
  file_chunk {| base_name := produced_name is_compress with_alpha n;
                file_bytes := bs; image_size := sz |} = Some (n, bs).
Proof.
  intros Hn Hext.
  assert (Hb : lower b = "png"%string).
  { unfold file_extension in Hext. rewrite Hn in Hext. simpl in Hext.
    case_bool_decide; [discriminate | exact Hext]. }
  assert (Hname : n = join_dot a b).
  { destruct (split_cons _ _ _ _ Hn ltac:(discriminate)) as (s' & -> & Hs').
    now rewrite (split_no_sep _ _ _ Hs'). }
  unfold file_chunk. cbn [base_name file_bytes].
  rewrite produced_name_parts, Hn.
  cbn [app lookup list_lookup mbind option_bind].
  simpl. rewrite Hb. simpl. now rewrite Hname.
Qed.

(** A PNG goes by its own name.  Take a PNG whose name has one dot and the
    file the pipeline hands to the packer for it ([name.bmp.RGB],
    [name.BMPA.COMP], ...).  The turn of the packer loop on that file ends
    well and goes by the name of the PNG: without an override, a name that
    contains [thumbnail] makes the file the thumbnail and the chunk table
    stays as it is; otherwise the bytes are appended as they are to the Z
    region for a [z_] name and to the main region for any other, and the
    chunk table gets, under the name of the PNG, the place where they
    start and their length.  The transcoder reads the format suffix from
    the part of the PNG name before the dot, and the intermediate files
    carry the extensions the next step lists. *)
Theorem png_chunk_goes_by_png_name
        (n a b : string) (is_compress with_alpha : bool)
        (bs : list byte) (sz : option (Z * Z)) (o : bool) (r : regions) :
  split "." n = [a; b] ->
  lower (file_extension n) = "png"%string ->
  (exists r',
      add_file o r {| base_name := produced_name is_compress with_alpha n;
                      file_bytes := bs; image_size := sz |} = Some r' /\
      if negb o && contains "thumbnail" n then
        clock_thumb_data r' = bs /\
        img_objs r' = img_objs r /\
        clock_img_data r' = clock_img_data r /\
        clock_z_img_data r' = clock_z_img_data r
      else if startswith n "z_" then
        img_objs r' !! n = Some (clock_z_img_length r, len bs) /\
        clock_z_img_data r' = clock_z_img_data r ++ bs /\
        clock_img_data r' = clock_img_data r /\
        clock_thumb_data r' = clock_thumb_data r
      else
        img_objs r' !! n = Some (clock_img_length r, len bs) /\
        clock_img_data r' = clock_img_data r ++ bs /\
        clock_z_img_data r' = clock_z_img_data r /\
        clock_thumb_data r' = clock_thumb_data r) /\
  stem (bmp_name with_alpha n) = a /\
  lower (file_extension (bmp_name with_alpha n))
    ∈ lower <$> ["bmp"; "BMPA"]%string /\
  lower (file_extension (produced_name is_compress with_alpha n))
    = lower (if is_compress then "COMP" else "RGB").
Proof.
  intros Hn Hext.
  assert (Hb : lower b = "png"%string).
  { unfold file_extension in Hext. rewrite Hn in Hext. simpl in Hext.
    case_bool_decide; [discriminate | exact Hext]. }
  assert (Hbne : b <> EmptyString) by (intros ->; discriminate Hb).
  split; [|split; [|split]].
  - unfold add_file.
    rewrite (one_dot_png_chunk n a b is_compress with_alpha bs sz Hn Hext).
    simpl.
    destruct (negb o && contains "thumbnail" n).
    + eexists. split; [reflexivity|]. simpl. repeat split.
    + destruct (startswith n "z_").
      * eexists. split; [reflexivity|]. simpl.
        split; [apply lookup_insert_eq|]. repeat split.
      * eexists. split; [reflexivity|]. simpl.
        split; [apply lookup_insert_eq|]. repeat split.
  - unfold stem, bmp_name.
    destruct with_alpha.
    + rewrite (split_app "." n "BMPA"), Hn. reflexivity.
    + rewrite (split_app "." n "bmp"), Hn. reflexivity.
  - unfold file_extension, bmp_name.
    destruct with_alpha.
    + rewrite (split_app "." n "BMPA"), Hn. simpl.
      rewrite (bool_decide_eq_false_2 _ Hbne). simpl.
      right. left.
    + rewrite (split_app "." n "bmp"), Hn. simpl.
      rewrite (bool_decide_eq_false_2 _ Hbne). simpl.
      left.
  - unfold file_extension. rewrite produced_name_parts, Hn.
    destruct is_compress, with_alpha; reflexivity.
Qed.

Lemma length_list_ascii_app (s t : string) :
  length (list_ascii_of_string (s +:+ t))
  = (length (list_ascii_of_string s) + length (list_ascii_of_string t))%nat.
Proof. now rewrite list_ascii_app, length_app. Qed.

(** A PNG with more than one dot in its name loses its name.  The chunk
    is stored under the first two dot-separated parts only, which is not
    the name of the PNG, so a reference by that name finds no entry of this
    file. *)
Theorem dotted_png_name_is_cut
        (n a b c : string) (rest : list string)
        (is_compress with_alpha : bool)
        (bs : list byte) (sz : option (Z * Z))
        (key : string) (data : list byte) :
  split "." n = a :: b :: c :: rest ->
  file_chunk {| base_name := produced_name is_compress with_alpha n;
                file_bytes := bs; image_size := sz |} = Some (key, data) ->
  key = join_dot a b /\ key <> n.
Proof.
  intros Hn Hchunk.
  assert (Hkey : key = join_dot a b).
  { unfold file_chunk in Hchunk. cbn [base_name file_bytes] in Hchunk.
    rewrite produced_name_parts, Hn in Hchunk.
    cbn [app lookup list_lookup mbind option_bind] in Hchunk.
    simpl in Hchunk.
    destruct (if bool_decide (lower b = "jpg"%string) then _ else _);
      simpl in Hchunk; [|discriminate].
    now injection Hchunk as <- _. }
  split; [exact Hkey|]. subst key. intros Heq.
  destruct (split_cons _ _ _ _ Hn ltac:(discriminate)) as (s1 & Hn1 & Hs1).
  destruct (split_cons _ _ _ _ Hs1 ltac:(discriminate)) as (s2 & Hn2 & _).
  subst s1. rewrite Hn1 in Heq. unfold join_dot in Heq.
  apply (f_equal (fun s => length (list_ascii_of_string s))) in Heq.
  rewrite !length_list_ascii_app in Heq.
  change (list_ascii_of_string (String "." ?x))
    with ("."%char :: list_ascii_of_string x) in Heq.
  cbn [length] in Heq.
  change (String "." (b +:+ String "." s2))
    with ("." +:+ (b +:+ String "." s2)) in Heq.
  rewrite !length_list_ascii_app in Heq.
  change (list_ascii_of_string (String "." s2))
    with ("."%char :: list_ascii_of_string s2) in Heq.
  cbn [length list_ascii_of_string] in Heq. lia.
Qed.

End PipelineFacts.

(** ** The further properties on the samples *)

Module MoreWitnesses.

Import MoreSamples Bmp Compressor Validator Packer Notions Files Cli.
Import TranscoderMore CompressorMore ValidatorMore PackerFacts PackerMore
       CliFacts FilesFacts Pipeline PipelineFacts.

Lemma argb1555_row_transcoding_witness :
  is_Some (pack_row 1555 4 2 row_bgra) /\
  exists b g r a v,
    byte_at row_bgra 0 = Some b /\ byte_at row_bgra 1 = Some g /\
    byte_at row_bgra 2 = Some r /\ byte_at row_bgra 3 = Some a /\
    unpack_H_le (slice (z2b <$> [65; 252; 0; 0]) 0 2) = Some v /\
    Z.land v 32767 =
      Z.lor (Z.lor (Z.shiftl (Z.land r 248) 7) (Z.shiftl (Z.land g 248) 2))
            (Z.shiftr (Z.land b 248) 3) /\
    Z.testbit v 15 = (a =? 255).
Proof.
  destruct (argb1555_row_transcoding 2 row_bgra) as [H1 H2].
  split.
  - apply H1. unfold len. simpl. lia.
  - apply (H2 (z2b <$> [65; 252; 0; 0]) 0); [reflexivity | lia].
Defined.

Lemma argb8565_row_transcoding_witness :
  is_Some (pack_row 8565 4 2 row_bgra) /\
  exists b g r a,
    byte_at row_bgra 0 = Some b /\ byte_at row_bgra 1 = Some g /\
    byte_at row_bgra 2 = Some r /\ byte_at row_bgra 3 = Some a /\
    unpack_H_le (slice (z2b <$> [129; 248; 255; 0; 0; 4]) 0 2) =
      Some (Z.lor (Z.lor (Z.shiftl (Z.land r 248) 8)
                         (Z.shiftl (Z.land g 252) 3))
                  (Z.shiftr (Z.land b 248) 3)) /\
    byte_at (z2b <$> [129; 248; 255; 0; 0; 4]) 2 = Some a.
Proof.
  destruct (argb8565_row_transcoding 2 row_bgra) as [H1 H2].
  split.
  - apply H1. unfold len. simpl. lia.
  - apply (H2 (z2b <$> [129; 248; 255; 0; 0; 4]) 0); [reflexivity | lia].
Defined.

Lemma rows_emitted_top_down_witness :
  exists rows out,
    drop 16 td_blob = concat rows /\
    len rows = 2 /\
    rows !! 1%nat = Some out /\
    pack_row 565 3 2 (slice td_bmp 62 70) = Some out.
Proof.
  apply (rows_emitted_top_down "t.png.bmp" td_bmp td_blob
           54 2 4294967294 24 3 565 73 1);
    first [reflexivity | simpl; lia].
Defined.

Lemma complete_bmp_is_transcoded_witness :
  exists blob,
    bmp_2_rgb "t.png.bmp" td_bmp = Some blob /\ len blob = 24.
Proof.
  apply (complete_bmp_is_transcoded "t.png.bmp" td_bmp
           54 2 4294967294 24 3 565 73);
    first [reflexivity | unfold len; simpl; lia].
Defined.

Lemma blob_header_describes_image_witness :
  byte_at td_blob 0 = Some 73 /\
  73 ∈ [71; 72; 73; 74] /\
  byte_at td_blob 1 = Some 0 /\
  height_field td_blob = Some 2 /\
  width_field td_blob = Some 2 /\
  slice td_blob 8 16 = replicate 8 Byte.x00.
Proof.
  apply (blob_header_describes_image "t.png.bmp" td_bmp td_blob
           54 2 4294967294 24 3 565 73); reflexivity.
Defined.

Lemma bmp_2_rgb_refusals_witness :
  bmp_2_rgb "t.png.bmp" (z2b <$> [66; 77; 0; 0]) = None /\
  bmp_2_rgb "t.png.bmp" (bmp_header 2 2 8 ++ (z2b <$> [1; 2; 0; 0; 3; 4; 0; 0]))
  = None.
Proof.
  split.
  - apply (proj1 (bmp_2_rgb_refusals "t.png.bmp" (z2b <$> [66; 77; 0; 0]))).
    left. unfold len. simpl. lia.
  - apply (proj2 (bmp_2_rgb_refusals "t.png.bmp"
                    (bmp_header 2 2 8 ++ (z2b <$> [1; 2; 0; 0; 3; 4; 0; 0])))
                 8); [reflexivity | lia].
Defined.

Lemma compressed_output_is_skipped_witness :
  compress_chunk lz4_store raw_chunk_comp = Skipped /\
  byte_at raw_chunk_comp 1 = Some 1 /\
  byte_at raw_chunk_comp 0 = byte_at raw_chunk 0.
Proof.
  apply (compressed_output_is_skipped lz4_store raw_chunk raw_chunk_comp).
  reflexivity.
Defined.

Lemma declared_length_is_compressed_length_witness :
  lz4_store (take 2 (drop 16 raw_chunk)) ModeHighCompression 12 false
    = Some (drop 16 raw_chunk_comp) /\
  declared_len raw_chunk_comp = Some 2 /\
  len (take 2 (drop 16 raw_chunk)) = 2.
Proof.
  apply (declared_length_is_compressed_length lz4_store raw_chunk
           raw_chunk_comp 2); [reflexivity | reflexivity |].
  unfold len. simpl. lia.
Defined.

Lemma check_clock_ignores_letter_case_witness :
  check_clock (Source ["config.json"; "BG.JPG"]%string
                      [plain_layer 0 0 1 [JStr "Bg.Jpg"]])
  = check_clock (Source ["config.json"; "bg.jpg"]%string
                        [plain_layer 0 0 1 [JStr "bg.jpg"]]).
Proof.
  apply check_clock_ignores_letter_case;
    first [reflexivity | left | repeat constructor].
Defined.

Lemma count_mismatch_without_name_raises_witness :
  check_clock (Source face_names
                      ([plain_layer 0 0 1 [JStr "bg.jpg"]]
                         ++ nameless_layer :: []))
  = None.
Proof.
  apply count_mismatch_without_name_raises.
  - repeat constructor.
  - reflexivity.
  - unfold len. simpl. lia.
Defined.

Lemma face_is_packed :
  gen_clock_res face_src face_files 50001 "360_360" false None
  = Some (508753, face_out).
Proof. vm_compute. reflexivity. Qed.

Lemma header_locates_regions_witness :
  exists r layer_list clock_layer_data,
    (initial_regions None ≫= fun r0 => add_files false r0 face_files)
      = Some r /\
    (exists file_names, face_src = Source file_names layer_list) /\
    be_uint (slice face_out 8 12) = 508753 /\
    be_uint (slice face_out 12 16) = 32 /\
    be_uint (slice face_out 20 24)
      = be_uint (slice face_out 12 16) + be_uint (slice face_out 16 20) /\
    slice face_out (be_uint (slice face_out 12 16))
          (be_uint (slice face_out 12 16) + be_uint (slice face_out 16 20))
      = clock_thumb_data r /\
    slice face_out (be_uint (slice face_out 20 24))
          (be_uint (slice face_out 20 24) + be_uint (slice face_out 24 28))
      = clock_img_data r /\
    slice face_out
          (be_uint (slice face_out 20 24) + be_uint (slice face_out 24 28))
          (be_uint (slice face_out 28 32))
      = clock_z_img_data r /\
    drop (Z.to_nat (be_uint (slice face_out 28 32))) face_out
      = clock_layer_data /\
    pack_layers
      (be_uint (slice face_out 20 24) + be_uint (slice face_out 24 28))
      (img_objs r) layer_list = Some clock_layer_data.
Proof.
  apply (header_locates_regions face_src face_files 50001 "360_360" false
                                None 508753 face_out).
  exact face_is_packed.
Defined.

Lemma references_resolve_in_file_witness :
  exists f chunk woff,
    f ∈ face_files /\
    file_chunk f = Some ("z_needle.jpg"%string, chunk) /\
    (exists r pre,
        (initial_regions None ≫= fun r0 => add_files false r0 face_files)
          = Some r /\
        pack_img (32 + len (clock_thumb_data r) + len (clock_img_data r))
                 (img_objs r)
                 (plain_layer 1 0 2 [JStr "digit0.jpg"; JStr "z_needle.jpg"])
                 1 (JStr "z_needle.jpg")
        = Some (pre ++ be32 woff ++ be32 (len chunk))) /\
    slice face_out woff (woff + len chunk) = chunk.
Proof.
  apply (references_resolve_in_file face_names face_config face_files
           50001 "360_360" false None 508753 face_out
           (plain_layer 1 0 2 [JStr "digit0.jpg"; JStr "z_needle.jpg"])
           1 (JStr "z_needle.jpg") "z_needle.jpg").
  - exact face_is_packed.
  - right. left.
  - right. left.
  - right. repeat split; reflexivity.
Defined.

Lemma mismatch_stops_pack_witness :
  gen_clock_res (Source ["config.json"%string]
                        [plain_layer 0 0 1 [JStr "a.png"]])
                [] 50001 "360_360" false None = None.
Proof.
  apply mismatch_stops_pack.
  - repeat constructor.
  - discriminate.
Defined.

Lemma missing_layer_key_stops_pack_witness :
  gen_clock_res (Source face_names [animated_layer]) face_files 50001
                "360_360" false None = None.
Proof.
  apply (missing_layer_key_stops_pack face_names [animated_layer] face_files
           50001 "360_360" false None animated_layer).
  - left.
  - left. split; reflexivity.
Defined.

Lemma layer_record_length_witness :
  len (default [] (pack_layer 69 (img_objs face_regions)
                     (plain_layer 1 0 2
                        [JStr "digit0.jpg"; JStr "z_needle.jpg"])))
  = 24 + 0 + 0 + (8 + (8 + 0)) /\
  Forall (fun p => pack_img_size
                     (plain_layer 1 0 2
                        [JStr "digit0.jpg"; JStr "z_needle.jpg"]) p.1 p.2
                   ∈ [16; 30; 4; 8])
         (enumerate [JStr "digit0.jpg"; JStr "z_needle.jpg"]).
Proof.
  apply (layer_record_length 69 (img_objs face_regions)
           (plain_layer 1 0 2 [JStr "digit0.jpg"; JStr "z_needle.jpg"])).
  vm_compute. reflexivity.
Defined.

Lemma regions_hold_every_file_witness :
  len (clock_img_data face_regions) + len (clock_z_img_data face_regions)
  = foldr (fun f acc => stored_size false f + acc) 0 face_files.
Proof.
  apply (regions_hold_every_file None false face_files
           {| clock_thumb_data := []; clock_thumb_length := 0;
              clock_img_data := []; clock_img_length := 0;
              clock_z_img_data := []; clock_z_img_length := 0;
              img_objs := ∅ |} face_regions).
  - reflexivity.
  - exact face_regions_built.
Defined.

Lemma thumbnail_and_chunk_table_witness :
  ~ is_Some
      (img_objs
         (default face_regions
            (initial_regions None
               ≫= fun r0 => add_files false r0 thumb_files_lower))
       !! "thumbnail.jpg"%string) /\
  clock_thumb_data
    (default face_regions
       (initial_regions (Some (Some (z2b <$> [7; 7])))
          ≫= fun r0 => add_files true r0 thumb_files_lower))
  = z2b <$> [7; 7].
Proof.
  split.
  - intros Hin.
    eapply (proj1 (thumbnail_and_chunk_table thumb_files_lower _ _)) in Hin;
      [discriminate Hin | reflexivity | vm_compute; reflexivity].
  - eapply (proj2 (thumbnail_and_chunk_table thumb_files_lower _ _));
      [reflexivity | vm_compute; reflexivity].
Defined.

Lemma detected_size_has_prefix_witness :
  is_Some (g_clock_id_prefix_dict !! "360_360"%string) /\
  exists config first img0 img_name size,
    folder_config face_folder = Some config /\
    head config = Some first /\
    head (imgArr first) = Some img0 /\
    (img0 = JStr img_name \/
     exists l, img0 = JList l /\ last l = Some (JStr img_name)) /\
    img_name <> EmptyString /\
    folder_image_size face_folder img_name = Some size /\
    (size, "360_360"%string) ∈ allowed.
Proof.
  apply (detected_size_has_prefix face_folder "360_360"). reflexivity.
Defined.

Lemma cli_main_clock_id_witness :
  exists clock_id_base,
    (arg_clock_id no_options = Some clock_id_base \/
     arg_clock_id no_options = None /\
     exists before after,
       dir_name_numbers face_dir = before ++ clock_id_base :: after /\
       Forall (fun u => ~ 50000 <= u <= 65535) before) /\
    50000 <= clock_id_base <= 65535 /\
    Z.land 508753 65535 = clock_id_base /\
    Z.land 508753 4294901760
      ∈ [983040; 917504; 851968; 786432; 720896; 655360; 589824; 524288;
         458752] /\
    slice face_out 0 8 = bytes_of_string "Sb@*O2GG" /\
    be_uint (slice face_out 8 12) = 508753.
Proof.
  apply (cli_main_clock_id no_options face_dir 508753 face_out).
  vm_compute. reflexivity.
Defined.

Lemma listed_files_have_chunks_witness :
  Forall (fun p =>
            exists file_name img_name img_ext rest,
              file_name ∈ ["bg.jpg"; "notes"; "a.b.gif"]%string /\
              p = path_join "face" file_name /\
              split "." file_name = img_name :: img_ext :: rest /\
              forall bs w h, exists header,
                file_chunk {| base_name := file_name; file_bytes := bs;
                              image_size := Some (w, h) |}
                = Some (join_dot img_name img_ext, header ++ bs) /\
                len header
                = if bool_decide (lower img_ext = "jpg"%string)
                     || bool_decide (lower img_ext = "gif"%string)
                  then 16 else 0)
         ["face/bg.jpg"; "face/a.b.gif"]%string.
Proof.
  apply (listed_files_have_chunks
           "face" ["bg.jpg"; "notes"; "a.b.gif"]%string
           [("face/sub"%string, ["x.jpg"%string])] ["jpg"; "gif"]%string).
  - reflexivity.
  - intros Hin.
    repeat (apply elem_of_cons in Hin as [Hin|Hin]; [discriminate Hin|]).
    inversion Hin.
Defined.

Lemma png_chunk_goes_by_png_name_witness :
  ((exists r',
       add_file false face_regions
                {| base_name := produced_name true false "digit1.png";
                   file_bytes := raw_chunk_comp; image_size := None |}
       = Some r' /\
       img_objs r' !! "digit1.png"%string
         = Some (clock_img_length face_regions, len raw_chunk_comp) /\
       clock_img_data r' = clock_img_data face_regions ++ raw_chunk_comp /\
       clock_z_img_data r' = clock_z_img_data face_regions /\
       clock_thumb_data r' = clock_thumb_data face_regions) /\
   stem (bmp_name false "digit1.png") = "digit1"%string /\
   lower (file_extension (bmp_name false "digit1.png"))
     ∈ lower <$> ["bmp"; "BMPA"]%string /\
   lower (file_extension (produced_name true false "digit1.png"))
     = lower "COMP") /\
  (exists r',
      add_file false face_regions
               {| base_name := produced_name true true "thumbnail.png";
                  file_bytes := raw_chunk_comp; image_size := None |}
      = Some r' /\
      clock_thumb_data r' = raw_chunk_comp /\
      img_objs r' = img_objs face_regions /\
      clock_img_data r' = clock_img_data face_regions /\
      clock_z_img_data r' = clock_z_img_data face_regions).
Proof.
  split.
  - apply (png_chunk_goes_by_png_name "digit1.png" "digit1" "png" true false
             raw_chunk_comp None false face_regions); reflexivity.
  - apply (proj1 (png_chunk_goes_by_png_name
                    "thumbnail.png" "thumbnail" "png" true true
                    raw_chunk_comp None false face_regions
                    eq_refl eq_refl)).
Defined.

Lemma dotted_png_name_is_cut_witness :
  "digit.0"%string = join_dot "digit" "0" /\
  "digit.0"%string <> "digit.0.png"%string.
Proof.
  apply (dotted_png_name_is_cut "digit.0.png" "digit" "0" "png" [] true false
           raw_chunk_comp None "digit.0" raw_chunk_comp); reflexivity.
Defined.

End MoreWitnesses.
